(** * Settings synchronisation over git: orchestration model

    A shallow embedding of the synchronisation core of the VS Code
    extension: [GitService] (src/git/gitService.ts), [ExtensionService]
    (src/sync/extensionService.ts) and [SyncService]
    (src/sync/syncService.ts).

    The TypeScript classes mutate fields of long-lived objects and talk to
    collaborators that live outside the repository (the git binary, the file
    system, the editor host).  Every method is therefore a computation in a
    state-and-exception monad over one [World]:
    - the fields of the three classes are fields of the world;
    - a JavaScript [throw] is the [Err] result, [try]/[catch]/[finally] are
      combinators;
    - [setTimeout]/[clearTimeout] edit a timer table that an explicit event
      loop drains;
    - the answers of the collaborators (does this git command fail, which
      button of a prompt is pressed, is there something to commit) are read
      from queues held in the world, so that a statement quantified over all
      worlds is quantified over every behaviour of the environment.

    An [await]ed call runs to completion before the next statement, as in
    the source; interleavings of several handlers at an [await] are not part
    of the model, and the clock moves between handlers only: a timer is
    dated from the clock of the world in which it is set. *)

From Stdlib Require Import ZArith Lia List String Bool.
From stdpp Require Import base gmap strings list.

Open Scope string_scope.
Open Scope list_scope.
Open Scope Z_scope.

(** ** Data model *)

(** [interface ExtensionInfo { id: string; version?: string }] *)
Record ExtensionInfo := {
  id : string;
  version : option string }.

(** An element of [vscode.extensions.all]: the fields the code reads are
    [ext.id], [ext.packageJSON.version] and [ext.packageJSON.isBuiltin]. *)
Record HostExtension := {
  hx_id : string;
  hx_version : string;
  isBuiltin : bool }.

(** One entry of [settingsSync.files.externalFiles]. *)
Record ExternalFile := {
  source : string;
  target : string }.

(** The value of the [settingsSync.files] configuration key. *)
Record FileConfig := {
  patterns : list string;
  excludePatterns : list string;
  externalFiles : list ExternalFile }.

(** The configuration keys the three services read, together with the
    three paths the host provides ([process.env.HOME], the user settings
    directory returned by [getUserSettingsPath] and
    [GitService.workingDirectory]). *)
Record Config := {
  repositoryUrl : string;
  branch : string;
  pullBeforePush : bool;
  pullBeforeForcePush : bool;
  syncInterval : Z;
  pullOnLaunch : bool;
  debounceDelay : Z;
  files : option FileConfig;
  extensionsSync : bool;
  extensionsAutoRemove : bool;
  home : string;
  userSettingsPath : string;
  workingDirectory : string }.

(** The default [config.get('files', {...})] falls back to. *)
Definition defaultFileConfig : FileConfig :=
  {| patterns := ["settings.json"; "keybindings.json"];
     excludePatterns := [];
     externalFiles := [] |}.

(** What a file holds: opaque text, or the JSON array of extension records
    that [saveExtensionsToFile] writes and [readSyncedExtensions] parses. *)
Inductive Content :=
  | Raw (text : string)
  | Json (records : list ExtensionInfo).

(** The commands sent to the git backend through simple-git. *)
Inductive GitCmd :=
  | Init                  (* git.init() *)
  | AddRemote             (* git.addRemote('origin', repoUrl) *)
  | Fetch                 (* git.fetch('origin') *)
  | Checkout              (* git.checkout(branch) *)
  | CheckoutLocalBranch   (* git.checkoutLocalBranch(branch) *)
  | PullOrigin            (* git.pull('origin', branch) *)
  | PullRebase            (* git.pull(['--rebase']) *)
  | PullPlain             (* git.pull() *)
  | Add                   (* git.add('.') *)
  | Commit                (* git.commit(message) *)
  | Push                  (* git.push() *)
  | PushForce             (* git.push(['-f']) *)
  | ResetHardPrev         (* git.reset(['--hard', 'HEAD~1']) *)
  | RevparseHead          (* git.revparse(['--abbrev-ref', 'HEAD']) *)
  | ResetHardOrigin       (* git.reset(['--hard', `origin/${branch}`]) *)
  | Status.               (* git.status() *)

(** The questions the environment answers.  For a git command and for the
    I/O and host commands the answer [true] means that the call succeeds.
    [StagedChanges] tells whether a successful [Commit] had anything to
    record (and so created a commit): that depends on what was written
    into the working tree since the last commit or reset, by the mirror, by
    the extension snapshot or from outside the running method (the handler
    of a configuration change mirrors live files into the working tree
    without consulting a guard, and the user is pointed to that directory).
    [TreeDirty] is the answer of [git.status()] (some path modified, not
    added or deleted), and [PullAndRetry] tells whether the user picks
    'Pull and Retry' in the prompt shown after a rejected push. *)
Inductive Op :=
  | OGit (c : GitCmd)
  | StagedChanges
  | TreeDirty
  | PullAndRetry
  | CopyIO
  | WriteIO
  | InstallCmd
  | UninstallCmd.

(** The callbacks handed to [setTimeout]. *)
Inductive TimerAct :=
  | FireDebounce        (* the debounce callback of handleFileChange *)
  | FirePeriodic        (* the callback of setupPeriodicSync *)
  | ReleaseSyncLock     (* isSyncing = false, from the finally of sync *)
  | ReleaseRemoteLock.  (* isApplyingRemoteChanges = false *)

Record Timer := {
  tid : nat;
  due : Z;
  act : TimerAct }.

(** The watchers [setupFileWatcher] creates. *)
Inductive Watcher :=
  | PatternWatcher (pattern : string)   (* vscode FileSystemWatcher *)
  | DirWatcher (sourcePath : string)    (* fs.watch on the parent directory *)
  | DirectWatcher (sourcePath : string). (* fs.watch on the file itself *)

#[global] Instance Watcher_eq_dec : EqDecision Watcher.
Proof. solve_decision. Defined.

(** Entry points of the services, recorded when they are entered;
    [CHasChanges b] records that [hasChanges()] returned [b]. *)
Inductive Call :=
  | CHasChanges (result : bool)
  | CGitPull
  | CGitPush
  | CGitForcePush
  | CGitForcePull
  | CCopyToWorking
  | CCopyFromWorking
  | CPushExtensions
  | CPullExtensions.

(** What an execution leaves behind for an observer. *)
Inductive Obs :=
  | ObsCall (c : Call)
  | ObsGit (c : GitCmd)
  | ObsCopyFile (src tgt : string)     (* log('Copying file:', ...) of copyFile *)
  | ObsMissingOptional (src : string)  (* log('Optional external file not found:') *)
  | ObsMissingSource (src : string)    (* log('Source file does not exist:') *)
  | ObsInstall (ext : string)          (* workbench.extensions.installExtension *)
  | ObsUninstall (ext : string)        (* workbench.extensions.uninstallExtension *)
  | ObsShowError (msg : string)        (* vscode.window.showErrorMessage *)
  | ObsTrigger (at_ms : Z).            (* 'Debounce timer expired, ...' *)

#[global] Instance Call_eq_dec : EqDecision Call.
Proof. solve_decision. Defined.

(** ** The world *)

(** Fields of [SyncService].  [lastEventTime] is the map captured by the
    handlers that [setupFileWatcher] installs. *)
Record Svc := {
  isEnabled : bool;
  isSyncing : bool;
  isApplyingRemoteChanges : bool;
  syncTimer : option nat;
  debounceTimer : option nat;
  watchers : list Watcher;
  extensionWatcher : bool;
  lastEventTime : gmap string Z }.

(** Fields of [GitService], and the one fact about the repository that the
    specification of [push] speaks of: [ahead] counts the local commits
    that are not on the remote. *)
Record Git := {
  initialized : bool;
  ahead : nat }.

(** The host: clock, timer table, configuration, installed extensions, file
    system, glob, the environment's answers and the observations so far. *)
Record Host := {
  now : Z;
  timers : list Timer;
  nextTimer : nat;
  cfg : Config;
  extensionsAll : list HostExtension;
  fs : gmap string Content;
  fg : list string -> list string -> string -> list string;
  answers : Op -> list bool;
  trace : list Obs }.

Record World := {
  svc : Svc;
  git : Git;
  host : Host }.

(** Field updates. *)
Definition withSvc (f : Svc -> Svc) (w : World) : World :=
  {| svc := f (svc w); git := git w; host := host w |}.
Definition withGit (f : Git -> Git) (w : World) : World :=
  {| svc := svc w; git := f (git w); host := host w |}.
Definition withHost (f : Host -> Host) (w : World) : World :=
  {| svc := svc w; git := git w; host := f (host w) |}.

Definition setIsEnabled (b : bool) (s : Svc) : Svc :=
  {| isEnabled := b; isSyncing := isSyncing s;
     isApplyingRemoteChanges := isApplyingRemoteChanges s;
     syncTimer := syncTimer s; debounceTimer := debounceTimer s;
     watchers := watchers s; extensionWatcher := extensionWatcher s;
     lastEventTime := lastEventTime s |}.
Definition setIsSyncing (b : bool) (s : Svc) : Svc :=
  {| isEnabled := isEnabled s; isSyncing := b;
     isApplyingRemoteChanges := isApplyingRemoteChanges s;
     syncTimer := syncTimer s; debounceTimer := debounceTimer s;
     watchers := watchers s; extensionWatcher := extensionWatcher s;
     lastEventTime := lastEventTime s |}.
Definition setIsApplyingRemoteChanges (b : bool) (s : Svc) : Svc :=
  {| isEnabled := isEnabled s; isSyncing := isSyncing s;
     isApplyingRemoteChanges := b;
     syncTimer := syncTimer s; debounceTimer := debounceTimer s;
     watchers := watchers s; extensionWatcher := extensionWatcher s;
     lastEventTime := lastEventTime s |}.
Definition setSyncTimer (t : option nat) (s : Svc) : Svc :=
  {| isEnabled := isEnabled s; isSyncing := isSyncing s;
     isApplyingRemoteChanges := isApplyingRemoteChanges s;
     syncTimer := t; debounceTimer := debounceTimer s;
     watchers := watchers s; extensionWatcher := extensionWatcher s;
     lastEventTime := lastEventTime s |}.
Definition setDebounceTimer (t : option nat) (s : Svc) : Svc :=
  {| isEnabled := isEnabled s; isSyncing := isSyncing s;
     isApplyingRemoteChanges := isApplyingRemoteChanges s;
     syncTimer := syncTimer s; debounceTimer := t;
     watchers := watchers s; extensionWatcher := extensionWatcher s;
     lastEventTime := lastEventTime s |}.
Definition setWatchers (l : list Watcher) (s : Svc) : Svc :=
  {| isEnabled := isEnabled s; isSyncing := isSyncing s;
     isApplyingRemoteChanges := isApplyingRemoteChanges s;
     syncTimer := syncTimer s; debounceTimer := debounceTimer s;
     watchers := l; extensionWatcher := extensionWatcher s;
     lastEventTime := lastEventTime s |}.
Definition setExtensionWatcher (b : bool) (s : Svc) : Svc :=
  {| isEnabled := isEnabled s; isSyncing := isSyncing s;
     isApplyingRemoteChanges := isApplyingRemoteChanges s;
     syncTimer := syncTimer s; debounceTimer := debounceTimer s;
     watchers := watchers s; extensionWatcher := b;
     lastEventTime := lastEventTime s |}.
Definition setLastEventTime (m : gmap string Z) (s : Svc) : Svc :=
  {| isEnabled := isEnabled s; isSyncing := isSyncing s;
     isApplyingRemoteChanges := isApplyingRemoteChanges s;
     syncTimer := syncTimer s; debounceTimer := debounceTimer s;
     watchers := watchers s; extensionWatcher := extensionWatcher s;
     lastEventTime := m |}.

Definition setInitialized (b : bool) (g : Git) : Git :=
  {| initialized := b; ahead := ahead g |}.
Definition setAhead (n : nat) (g : Git) : Git :=
  {| initialized := initialized g; ahead := n |}.

Definition setNow (t : Z) (h : Host) : Host :=
  {| now := t; timers := timers h; nextTimer := nextTimer h; cfg := cfg h;
     extensionsAll := extensionsAll h; fs := fs h; fg := fg h;
     answers := answers h; trace := trace h |}.
Definition setTimers (l : list Timer) (n : nat) (h : Host) : Host :=
  {| now := now h; timers := l; nextTimer := n; cfg := cfg h;
     extensionsAll := extensionsAll h; fs := fs h; fg := fg h;
     answers := answers h; trace := trace h |}.
Definition setExtensionsAll (l : list HostExtension) (h : Host) : Host :=
  {| now := now h; timers := timers h; nextTimer := nextTimer h; cfg := cfg h;
     extensionsAll := l; fs := fs h; fg := fg h;
     answers := answers h; trace := trace h |}.
Definition setFs (m : gmap string Content) (h : Host) : Host :=
  {| now := now h; timers := timers h; nextTimer := nextTimer h; cfg := cfg h;
     extensionsAll := extensionsAll h; fs := m; fg := fg h;
     answers := answers h; trace := trace h |}.
Definition setAnswers (a : Op -> list bool) (h : Host) : Host :=
  {| now := now h; timers := timers h; nextTimer := nextTimer h; cfg := cfg h;
     extensionsAll := extensionsAll h; fs := fs h; fg := fg h;
     answers := a; trace := trace h |}.
Definition setTrace (l : list Obs) (h : Host) : Host :=
  {| now := now h; timers := timers h; nextTimer := nextTimer h; cfg := cfg h;
     extensionsAll := extensionsAll h; fs := fs h; fg := fg h;
     answers := answers h; trace := l |}.

(** ** The monad of methods *)

Inductive Res (A : Type) :=
  | Ok (a : A)
  | Err (msg : string).
Arguments Ok {A} a.
Arguments Err {A} msg.

Definition M (A : Type) : Type := World -> Res A * World.

Definition ret {A} (a : A) : M A := fun w => (Ok a, w).

Definition throw {A} (msg : string) : M A := fun w => (Err msg, w).

Definition bind {A B} (m : M A) (k : A -> M B) : M B :=
  fun w =>
    match m w with
    | (Ok a, w') => k a w'
    | (Err e, w') => (Err e, w')
    end.

(** [try { m } catch (error) { h(error) }] *)
Definition tryCatch {A} (m : M A) (h : string -> M A) : M A :=
  fun w =>
    match m w with
    | (Ok a, w') => (Ok a, w')
    | (Err e, w') => h e w'
    end.

(** [try { m } finally { f }], for a finaliser that does not throw. *)
Definition tryFinally {A} (m : M A) (f : World -> World) : M A :=
  fun w => let (r, w') := m w in (r, f w').

Definition gets {A} (f : World -> A) : M A := fun w => (Ok (f w), w).

Definition modify (f : World -> World) : M unit := fun w => (Ok tt, f w).

Declare Scope method_scope.
Delimit Scope method_scope with method.
Notation "x <- m ;; k" := (bind m (fun x => k))
  (at level 100, m at next level, right associativity) : method_scope.
Notation "m ;; k" := (bind m (fun _ => k))
  (at level 100, right associativity) : method_scope.
Open Scope method_scope.

(** [for (const x of l) { await body(x) }] *)
Fixpoint forEach {A} (l : list A) (body : A -> M unit) : M unit :=
  match l with
  | [] => ret tt
  | x :: rest => body x ;; forEach rest body
  end.

(** ** Host primitives *)

Definition emit (o : Obs) : M unit :=
  modify (withHost (fun h => setTrace (trace h ++ [o]) h)).

(** Questions are told apart by a code. *)
Definition gitCode (c : GitCmd) : nat :=
  match c with
  | Init => 0 | AddRemote => 1 | Fetch => 2 | Checkout => 3
  | CheckoutLocalBranch => 4 | PullOrigin => 5 | PullRebase => 6
  | PullPlain => 7 | Add => 8 | Commit => 9 | Push => 10 | PushForce => 11
  | ResetHardPrev => 12 | RevparseHead => 13 | ResetHardOrigin => 14
  | Status => 15
  end%nat.

Definition opCode (q : Op) : nat :=
  match q with
  | StagedChanges => 0 | TreeDirty => 1 | PullAndRetry => 2 | CopyIO => 3
  | WriteIO => 4 | InstallCmd => 5 | UninstallCmd => 6
  | OGit c => 7 + gitCode c
  end%nat.

Definition sameOp (q q' : Op) : bool := (opCode q =? opCode q')%nat.

(** The next answer of the environment to question [q], taken off its
    queue; an exhausted queue answers [true]. *)
Definition ask (q : Op) : M bool :=
  fun w =>
    (Ok (hd true (answers (host w) q)),
     withHost (setAnswers (fun q' => if sameOp q' q
                                     then tl (answers (host w) q)
                                     else answers (host w) q')) w).

(** The answer the environment will give to the [n]-th next question [q]. *)
Definition answerAt (q : Op) (n : nat) (w : World) : bool :=
  hd true (Nat.iter n (@tl bool) (answers (host w) q)).

Definition config : M Config := gets (fun w => cfg (host w)).

(** [TIMEOUT_MAX] of Node's timers: 2^31 - 1 ms. *)
Definition TIMEOUT_MAX : Z := 2147483647.

(** The delay a Node timer runs with: a delay that is not between 1 and
    [TIMEOUT_MAX] is set to 1
    ([if (!(after >= 1 && after <= TIMEOUT_MAX)) after = 1]). *)
Definition timerDelay (delay : Z) : Z :=
  if (1 <=? delay) && (delay <=? TIMEOUT_MAX) then delay else 1.
Arguments timerDelay !delay /.

(** [setTimeout(callback, delay)]: returns the new handle. *)
Definition setTimeout (a : TimerAct) (delay : Z) : M nat :=
  fun w =>
    let h := host w in
    let t := {| tid := nextTimer h; due := now h + timerDelay delay;
                act := a |} in
    (Ok (nextTimer h),
     withHost (setTimers (timers h ++ [t]) (S (nextTimer h))) w).

(** [clearTimeout(handle)] *)
Definition clearTimeout (handle : nat) : M unit :=
  modify (withHost (fun h =>
    setTimers (List.filter (fun t => negb (tid t =? handle)%nat) (timers h))
              (nextTimer h) h)).

(** [fs.existsSync(path)] *)
Definition existsSync (path : string) (w : World) : bool :=
  bool_decide (is_Some (fs (host w) !! path)).

(** Paths are plain strings: [path.join] inserts the separator unless one
    side is empty or the right side brings its own; [path.relative] strips
    the directory prefix. *)
Definition path_join (a b : string) : string :=
  if String.eqb a "" then b
  else if String.prefix "/" b then a +:+ b
  else a +:+ "/" +:+ b.

Definition path_isAbsolute (p : string) : bool := String.prefix "/" p.

Definition path_relative (from to : string) : string :=
  if String.prefix (from +:+ "/") to
  then String.substring (S (String.length from))
         (String.length to - S (String.length from)) to
  else to.

Definition str_includes (needle s : string) : bool :=
  match String.index 0 needle s with Some _ => true | None => false end.

(** [s.startsWith('~') ? path.join(process.env.HOME || '', s.slice(1)) : s] *)
Definition expandHome (c : Config) (s : string) : string :=
  if String.prefix "~" s
  then path_join (home c) (String.substring 1 (String.length s - 1) s)
  else s.

(** [path.basename(p)], for a path without a trailing separator: what
    follows the last separator. *)
Fixpoint path_basename (p : string) : string :=
  match p with
  | EmptyString => EmptyString
  | String _ rest => if str_includes "/" p then path_basename rest else p
  end.

(** Whether [p] is [dir] or lies below it. *)
Definition underDir (dir p : string) : bool :=
  String.eqb p dir || String.prefix (dir +:+ "/") p.

(** [fs.existsSync(dir)] for a directory.  The file system of the model
    holds files only: a directory is there when a file lies in it. *)
Definition dirExists (dir : string) (w : World) : bool :=
  existsb (fun kv => underDir dir kv.1) (map_to_list (fs (host w))).

(** What [fs.promises.rm(dir, { recursive: true, force: true })] leaves. *)
Definition rmTree (dir : string) (m : gmap string Content)
    : gmap string Content :=
  filter (fun kv => underDir dir kv.1 = false) m.

(** ** GitService (src/git/gitService.ts) *)

Module GitService.

Definition gitName (c : GitCmd) : string :=
  match c with
  | Init => "init" | AddRemote => "remote add" | Fetch => "fetch"
  | Checkout => "checkout" | CheckoutLocalBranch => "checkout -b"
  | PullOrigin => "pull origin" | PullRebase => "pull --rebase"
  | PullPlain => "pull" | Add => "add" | Commit => "commit"
  | Push => "push" | PushForce => "push -f"
  | ResetHardPrev => "reset --hard HEAD~1" | RevparseHead => "rev-parse"
  | ResetHardOrigin => "reset --hard origin" | Status => "status"
  end.

(** What a successful command does to the number of unpushed commits.  A
    commit adds one when there was something staged; simple-git reports
    an empty commit without throwing.  A push publishes every local
    commit; [reset --hard HEAD~1] drops the last one; a hard reset to the
    remote tip drops them all.  [init] creates the [.git] entry.  The
    files that a checkout, a pull or a reset bring into the working tree
    are the remote's and are not part of the model. *)
Definition effect (c : GitCmd) : M unit :=
  match c with
  | Commit =>
      staged <- ask StagedChanges ;;
      if staged
      then modify (withGit (fun g => setAhead (S (ahead g)) g))
      else ret tt
  | Push | PushForce | ResetHardOrigin =>
      modify (withGit (setAhead 0%nat))
  | ResetHardPrev =>
      modify (withGit (fun g => setAhead (Nat.pred (ahead g)) g))
  | Init =>
      modify (fun w => withHost (setFs
        (<[path_join (workingDirectory (cfg (host w))) ".git" := Raw ""]>
           (fs (host w)))) w)
  | _ => ret tt
  end.

(** [await this.git.<command>(...)]: the promise rejects when the
    environment says so. *)
Definition gitCmd (c : GitCmd) : M unit :=
  emit (ObsGit c) ;;
  ok <- ask (OGit c) ;;
  if ok then effect c else throw ("git " +:+ gitName c +:+ " failed").

(** [config.get<string>('branch') || 'main'] *)
Definition branchOrMain (c : Config) : string :=
  if String.eqb (branch c) "" then "main" else branch c.

Definition isInitialized : M bool := gets (fun w => initialized (git w)).

Definition getWorkingDirectory : M string :=
  gets (fun w => workingDirectory (cfg (host w))).

(** [async initialize()].  The working directory is created when it is
    absent; directories are not part of the model. *)
Definition initialize : M unit :=
  c <- config ;;
  if String.eqb (repositoryUrl c) ""
  then throw "Git repository URL is not configured"
  else
    tryCatch
      (isRepo <- gets (existsSync (path_join (workingDirectory c) ".git")) ;;
       (if negb isRepo then gitCmd Init ;; gitCmd AddRemote else ret tt) ;;
       gitCmd Fetch ;;
       tryCatch (gitCmd Checkout)
         (fun _ =>
            gitCmd CheckoutLocalBranch ;;
            tryCatch (gitCmd PullOrigin) (fun _ => ret tt)) ;;
       modify (withGit (setInitialized true)))
      (fun error => throw ("Failed to initialize git: " +:+ error)).

(** [async pull()] *)
Definition pull : M unit :=
  emit (ObsCall CGitPull) ;;
  init <- gets (fun w => initialized (git w)) ;;
  if negb init then throw "Git service not initialized"
  else
    tryCatch (gitCmd PullRebase)
      (fun error => throw ("Failed to pull changes: " +:+ error)).

(** The retry offered after a rejected push: lines 150-173. *)
Definition pullAndRetry (c : Config) : M unit :=
  tryCatch
    (gitCmd PullRebase ;;
     gitCmd Add ;;
     gitCmd Commit ;;
     gitCmd Push)
    (fun _ =>
       emit (ObsShowError
         "Failed to push changes automatically. Please resolve conflicts manually in the repository.") ;;
       throw ("Failed to reconcile changes. Repository location: "
              +:+ workingDirectory c)).

(** The handler of a rejected push: lines 133-177. *)
Definition onPushRejected (c : Config) : M unit :=
  gitCmd ResetHardPrev ;;
  emit (ObsShowError ("Failed to push to " +:+ repositoryUrl c
                      +:+ " (" +:+ branchOrMain c +:+ ")")) ;;
  choice <- ask PullAndRetry ;;
  if choice then pullAndRetry c
  else throw ("Push failed to " +:+ repositoryUrl c
              +:+ " (" +:+ branchOrMain c +:+ ")").

(** [async push()] *)
Definition push : M unit :=
  emit (ObsCall CGitPush) ;;
  init <- isInitialized ;;
  if negb init then throw "Git service not initialized"
  else
    tryCatch
      (c <- config ;;
       (if pullBeforePush c then gitCmd PullRebase else ret tt) ;;
       gitCmd Add ;;
       gitCmd Commit ;;
       tryCatch (gitCmd Push) (fun _ => onPushRejected c))
      (fun error =>
         emit (ObsShowError ("Failed to push changes: " +:+ error)) ;;
         throw ("Failed to push changes: " +:+ error)).

(** [async forcePush()] *)
Definition forcePush : M unit :=
  emit (ObsCall CGitForcePush) ;;
  init <- isInitialized ;;
  if negb init then throw "Git service not initialized"
  else
    tryCatch
      (c <- config ;;
       (if pullBeforeForcePush c then gitCmd PullPlain else ret tt) ;;
       gitCmd Add ;;
       gitCmd Commit ;;
       gitCmd PushForce)
      (fun error =>
         emit (ObsShowError ("Failed to force push changes: " +:+ error)) ;;
         throw ("Failed to force push changes: " +:+ error)).

(** [async forcePull()] *)
Definition forcePull : M unit :=
  emit (ObsCall CGitForcePull) ;;
  init <- gets (fun w => initialized (git w)) ;;
  if negb init then throw "Git service not initialized"
  else
    tryCatch
      (gitCmd Fetch ;;
       gitCmd RevparseHead ;;
       gitCmd ResetHardOrigin)
      (fun error => throw ("Failed to force pull changes: " +:+ error)).

(** [async hasChanges()] *)
Definition hasChanges : M bool :=
  init <- gets (fun w => initialized (git w)) ;;
  if negb init
  then emit (ObsCall (CHasChanges false)) ;; ret false
  else
    gitCmd Status ;;
    dirty <- ask TreeDirty ;;
    emit (ObsCall (CHasChanges dirty)) ;;
    ret dirty.

(** [async reinitialize()].  The removal of the working directory is a
    write to the file system, which the environment may refuse; the local
    commits go with the directory. *)
Definition reinitialize : M unit :=
  tryCatch
    (workingDir <- getWorkingDirectory ;;
     present <- gets (dirExists workingDir) ;;
     (if present
      then
        ok <- ask WriteIO ;;
        if ok
        then
          modify (withHost (fun h => setFs (rmTree workingDir (fs h)) h)) ;;
          modify (withGit (setAhead 0%nat))
        else throw "EACCES: permission denied"
      else ret tt) ;;
     modify (withGit (setInitialized false)) ;;
     initialize)
    (fun error =>
       emit (ObsShowError ("Failed to reinitialize repository: " +:+ error)) ;;
       throw ("Failed to reinitialize repository: " +:+ error)).

End GitService.

(** ** ExtensionService (src/sync/extensionService.ts) *)

Module ExtensionService.

Definition extensionsFile (c : Config) : string :=
  path_join (workingDirectory c) "extensions.json".

(** [Array.prototype.includes] on strings. *)
Definition includes (l : list string) (x : string) : bool :=
  bool_decide (x ∈ l).

(** [vscode.extensions.all.filter(ext => !isBuiltin).map(...)] *)
Definition getCurrentExtensions : M (list ExtensionInfo) :=
  gets (fun w =>
    map (fun e => {| id := hx_id e; version := Some (hx_version e) |})
        (List.filter (fun e => negb (isBuiltin e))
                     (extensionsAll (host w)))).

Definition saveExtensionsToFile (exts : list ExtensionInfo) : M unit :=
  c <- config ;;
  tryCatch
    (ok <- ask WriteIO ;;
     if ok
     then modify (withHost (fun h =>
            setFs (<[extensionsFile c := Json exts]> (fs h)) h))
     else throw "EIO: write failed")
    (fun error => throw error).

(** [async pushExtensions()] *)
Definition pushExtensions : M unit :=
  emit (ObsCall CPushExtensions) ;;
  c <- config ;;
  if negb (extensionsSync c) then ret tt
  else
    tryCatch
      (current <- getCurrentExtensions ;;
       saveExtensionsToFile current)
      (fun error => throw error).

(** [readSyncedExtensions]: [null] when the file is absent; a file that
    does not hold an array of records makes the caller throw. *)
Definition readSyncedExtensions : M (option (list ExtensionInfo)) :=
  c <- config ;;
  tryCatch
    (content <- gets (fun w => fs (host w) !! extensionsFile c) ;;
     match content with
     | None => ret None
     | Some (Json records) => ret (Some records)
     | Some (Raw _) => throw "SyntaxError: unexpected token in JSON"
     end)
    (fun error => throw error).

(** [executeCommand('workbench.extensions.installExtension', id)]: on
    success the host lists the new, user-installed extension. *)
Definition installExtension (x : string) : M unit :=
  emit (ObsInstall x) ;;
  ok <- ask InstallCmd ;;
  if ok
  then modify (withHost (fun h =>
         setExtensionsAll
           (extensionsAll h ++
              [{| hx_id := x; hx_version := ""; isBuiltin := false |}]) h))
  else throw ("Failed to install " +:+ x).

(** [executeCommand('workbench.extensions.uninstallExtension', id)] *)
Definition uninstallExtension (x : string) : M unit :=
  emit (ObsUninstall x) ;;
  ok <- ask UninstallCmd ;;
  if ok
  then modify (withHost (fun h =>
         setExtensionsAll
           (List.filter (fun e => negb (String.eqb (hx_id e) x))
                        (extensionsAll h)) h))
  else throw ("Failed to uninstall " +:+ x).

(** The [filter] of installMissingExtensions. *)
Definition extensionsToInstall (all : list HostExtension)
    (synced : list ExtensionInfo) : list ExtensionInfo :=
  let currentExtensions := map hx_id all in
  List.filter (fun ext => negb (includes currentExtensions (id ext))) synced.

(** The [filter] of removeExtraExtensions. *)
Definition extraExtensions (all : list HostExtension)
    (synced : list ExtensionInfo) : list HostExtension :=
  let syncedExtensionIds := map id synced in
  List.filter
    (fun ext => negb (isBuiltin ext)
                && negb (includes syncedExtensionIds (hx_id ext)))
    all.

Definition installMissingExtensions (synced : list ExtensionInfo) : M unit :=
  all <- gets (fun w => extensionsAll (host w)) ;;
  let toInstall := extensionsToInstall all synced in
  if (length toInstall =? 0)%nat then ret tt
  else
    forEach toInstall (fun ext =>
      tryCatch (installExtension (id ext)) (fun _ => ret tt)).

Definition removeExtraExtensions (synced : list ExtensionInfo) : M unit :=
  all <- gets (fun w => extensionsAll (host w)) ;;
  let extra := extraExtensions all synced in
  if (length extra =? 0)%nat then ret tt
  else
    forEach extra (fun ext =>
      tryCatch (uninstallExtension (hx_id ext)) (fun _ => ret tt)).

(** [async pullExtensions()] *)
Definition pullExtensions : M unit :=
  emit (ObsCall CPullExtensions) ;;
  c <- config ;;
  if negb (extensionsSync c) then ret tt
  else
    tryCatch
      (synced <- readSyncedExtensions ;;
       match synced with
       | None => ret tt
       | Some syncedExtensions =>
           installMissingExtensions syncedExtensions ;;
           if extensionsAutoRemove c
           then removeExtraExtensions syncedExtensions
           else ret tt
       end)
      (fun error => throw error).

End ExtensionService.

(** ** SyncService (src/sync/syncService.ts) *)

Module SyncService.

(** [const EVENT_THRESHOLD = 100; // ms] *)
Definition EVENT_THRESHOLD : Z := 100.

Definition getUserSettingsPath : M string :=
  gets (fun w => userSettingsPath (cfg (host w))).

(** [private async copyFile(source, target)] *)
Definition copyFile (src tgt : string) : M unit :=
  tryCatch
    (emit (ObsCopyFile src tgt) ;;
     present <- gets (fun w => fs (host w) !! src) ;;
     match present with
     | Some content =>
         ok <- ask CopyIO ;;
         if ok
         then modify (withHost (fun h => setFs (<[tgt := content]> (fs h)) h))
         else throw "EACCES: permission denied"
     | None =>
         if str_includes "~" src || path_isAbsolute src
         then emit (ObsMissingOptional src)
         else emit (ObsMissingSource src)
     end)
    (fun error =>
       throw ("Failed to copy file " +:+ src +:+ " to " +:+ tgt
              +:+ ": " +:+ error)).

(** [config.get('files', {patterns: [...], ...})] *)
Definition fileConfigOrDefault (c : Config) : FileConfig :=
  match files c with
  | Some fc => fc
  | None => defaultFileConfig
  end.

(** [private async copyFilesToWorkingDir()] *)
Definition copyFilesToWorkingDir : M unit :=
  emit (ObsCall CCopyToWorking) ;;
  workingDir <- GitService.getWorkingDirectory ;;
  settingsPath <- getUserSettingsPath ;;
  c <- config ;;
  let fileConfig := fileConfigOrDefault c in
  found <- gets (fun w =>
    fg (host w) (patterns fileConfig) (excludePatterns fileConfig)
       settingsPath) ;;
  forEach found (fun file =>
    let relativePath := path_relative settingsPath file in
    let targetPath := path_join workingDir relativePath in
    copyFile file targetPath) ;;
  forEach (externalFiles fileConfig) (fun externalFile =>
    let sourcePath := expandHome c (source externalFile) in
    let targetPath := path_join workingDir (target externalFile) in
    copyFile sourcePath targetPath).

(** The [try] block of copyFilesFromWorkingDir. *)
Definition mirrorToLive : M unit :=
  emit (ObsCall CCopyFromWorking) ;;
  workingDir <- GitService.getWorkingDirectory ;;
  settingsPath <- getUserSettingsPath ;;
  c <- config ;;
  let fileConfig := fileConfigOrDefault c in
  found <- gets (fun w =>
    fg (host w) (patterns fileConfig) (excludePatterns fileConfig)
       workingDir) ;;
  forEach found (fun file =>
    let relativePath := path_relative workingDir file in
    let targetPath := path_join settingsPath relativePath in
    copyFile file targetPath) ;;
  forEach (externalFiles fileConfig) (fun externalFile =>
    let targetPath := expandHome c (source externalFile) in
    let sourcePath := path_join workingDir (target externalFile) in
    copyFile sourcePath targetPath).

(** The [finally] block of copyFilesFromWorkingDir: the flag is reset by a
    timer, one second later. *)
Definition releaseRemoteLockLater (w : World) : World :=
  snd (setTimeout ReleaseRemoteLock 1000 w).

(** [private async copyFilesFromWorkingDir()] *)
Definition copyFilesFromWorkingDir : M unit :=
  modify (withSvc (setIsApplyingRemoteChanges true)) ;;
  tryFinally mirrorToLive releaseRemoteLockLater.

(** The [finally] block of sync. *)
Definition releaseSyncLockLater (w : World) : World :=
  snd (setTimeout ReleaseSyncLock 1000 w).

(** The [try] block of sync, after the lock is taken: lines 501-530. *)
Definition syncBody : M unit :=
  hasLocalChanges <- GitService.hasChanges ;;
  if hasLocalChanges
  then
    copyFilesToWorkingDir ;;
    ExtensionService.pushExtensions ;;
    GitService.push
  else
    GitService.pull ;;
    hasRemoteChanges <- GitService.hasChanges ;;
    if hasRemoteChanges
    then copyFilesFromWorkingDir ;; ExtensionService.pullExtensions
    else ret tt.

(** [async sync()] *)
Definition sync : M unit :=
  enabled <- gets (fun w => isEnabled (svc w)) ;;
  if negb enabled then ret tt
  else
    syncing <- gets (fun w => isSyncing (svc w)) ;;
    if syncing then ret tt
    else
      init <- GitService.isInitialized ;;
      if negb init then throw "Git service not initialized"
      else
        tryFinally
          (tryCatch
             (modify (withSvc (setIsSyncing true)) ;; syncBody)
             (fun error => throw error))
          releaseSyncLockLater.

(** [async forcePush()] *)
Definition forcePush : M unit :=
  tryCatch
    (copyFilesToWorkingDir ;;
     ExtensionService.pushExtensions ;;
     GitService.forcePush)
    (fun error =>
       emit (ObsShowError ("Force push failed: " +:+ error)) ;;
       throw ("Force push failed: " +:+ error)).

(** [async forcePull()] *)
Definition forcePull : M unit :=
  tryCatch
    (GitService.forcePull ;;
     copyFilesFromWorkingDir ;;
     ExtensionService.pullExtensions)
    (fun error =>
       emit (ObsShowError ("Force pull failed: " +:+ error)) ;;
       throw ("Force pull failed: " +:+ error)).

(** [private async handleFileChange(uri)]: the guard, then the debounce
    timer is cancelled and restarted. *)
Definition handleFileChange (path : string) : M unit :=
  s <- gets svc ;;
  if negb (isEnabled s) || isSyncing s || isApplyingRemoteChanges s
  then ret tt
  else
    c <- config ;;
    let delay := debounceDelay c * 1000 in
    match debounceTimer s with
    | Some handle => clearTimeout handle
    | None => ret tt
    end ;;
    handle <- setTimeout FireDebounce delay ;;
    modify (withSvc (setDebounceTimer (Some handle))).

(** [const handleFileEvent = (uri) => {...}] of setupFileWatcher: an
    event that follows the last retained one for the same path by less
    than [EVENT_THRESHOLD] is skipped.  The handlers of the native
    watchers (lines 197-229) inline the same test. *)
Definition handleFileEvent (path : string) : M unit :=
  t <- gets (fun w => now (host w)) ;;
  lastTime <- gets (fun w => default 0 (lastEventTime (svc w) !! path)) ;;
  if t - lastTime <? EVENT_THRESHOLD then ret tt
  else
    modify (withSvc (fun s =>
      setLastEventTime (<[path := t]> (lastEventTime s)) s)) ;;
    handleFileChange path.

(** The watchers of one external file: the parent directory, and the file
    itself when it exists; a watcher registered earlier under the same
    path is closed first. *)
Definition watchExternal (c : Config) (externalFile : ExternalFile)
    : M unit :=
  let sourcePath := expandHome c (source externalFile) in
  tryCatch
    (present <- gets (existsSync sourcePath) ;;
     modify (withSvc (fun s =>
       setWatchers
         (List.filter
            (fun x => negb (bool_decide (x = DirWatcher sourcePath)))
            (watchers s)
          ++ DirWatcher sourcePath
             :: (if present then [DirectWatcher sourcePath] else [])) s)))
    (fun _ => ret tt).

(** [private async setupFileWatcher()] *)
Definition setupFileWatcher : M unit :=
  c <- config ;;
  match files c with
  | None => ret tt
  | Some fileConfig =>
      modify (withSvc (setLastEventTime ∅)) ;;
      forEach (patterns fileConfig) (fun pattern =>
        tryCatch
          (modify (withSvc (fun s =>
             setWatchers (watchers s ++ [PatternWatcher pattern]) s)))
          (fun _ => ret tt)) ;;
      forEach (externalFiles fileConfig) (watchExternal c)
  end.

(** [private async setupPeriodicSync()] *)
Definition setupPeriodicSync : M unit :=
  c <- config ;;
  let interval := syncInterval c * 1000 in
  pending <- gets (fun w => syncTimer (svc w)) ;;
  match pending with
  | Some handle => clearTimeout handle
  | None => ret tt
  end ;;
  handle <- setTimeout FirePeriodic interval ;;
  modify (withSvc (setSyncTimer (Some handle))).

(** [private async setupExtensionWatcher()]: registers the listener. *)
Definition setupExtensionWatcher : M unit :=
  modify (withSvc (setExtensionWatcher true)).

(** The startup pull of initialize: the [try] block of lines 83-97. *)
Definition initialPull : M unit :=
  GitService.pull ;;
  hasRemoteChanges <- GitService.hasChanges ;;
  if hasRemoteChanges
  then copyFilesFromWorkingDir ;; ExtensionService.pullExtensions
  else ret tt.

(** [async initialize()] *)
Definition initialize : M unit :=
  GitService.initialize ;;
  c <- config ;;
  (if pullOnLaunch c
   then tryCatch initialPull (fun _ => ret tt)
   else ret tt) ;;
  setupFileWatcher ;;
  setupPeriodicSync ;;
  setupExtensionWatcher ;;
  modify (withSvc (setIsEnabled true)).

(** The callback of the debounce timer: lines 300-319.  A failure
    rejects the promise returned by handleFileChange. *)
Definition debounceCallback : M unit :=
  t <- gets (fun w => now (host w)) ;;
  emit (ObsTrigger t) ;;
  tryCatch
    (copyFilesToWorkingDir ;;
     changed <- GitService.hasChanges ;;
     if changed then sync else ret tt)
    (fun error => throw error).

(** The callback of the periodic timer: lines 269-276. *)
Definition periodicCallback : M unit :=
  enabled <- gets (fun w => isEnabled (svc w)) ;;
  if enabled then sync ;; setupPeriodicSync else ret tt.

(** The body the two native watchers of an external file share: lines
    199-210 (parent directory) and 217-228 (the file itself). *)
Definition nativeEvent (sourcePath : string) : M unit :=
  t <- gets (fun w => now (host w)) ;;
  lastTime <- gets (fun w => default 0 (lastEventTime (svc w) !! sourcePath)) ;;
  if t - lastTime <? EVENT_THRESHOLD then ret tt
  else
    modify (withSvc (fun s =>
      setLastEventTime (<[sourcePath := t]> (lastEventTime s)) s)) ;;
    handleFileChange sourcePath.

(** The listener of [fs.watch(path.dirname(sourcePath), ...)]: lines
    197-212.  [filename] is [None] when the platform reports no name. *)
Definition handleDirEvent (sourcePath : string) (filename : option string)
    : M unit :=
  match filename with
  | Some name =>
      if negb (String.eqb name "")
         && String.eqb (path_basename sourcePath) name
      then nativeEvent sourcePath
      else ret tt
  | None => ret tt
  end.

(** The listener of [fs.watch(sourcePath, ...)]: lines 216-229. *)
Definition handleDirectEvent (sourcePath : string) : M unit :=
  nativeEvent sourcePath.

(** The listener that [setupExtensionWatcher] registers with
    [vscode.extensions.onDidChange]: lines 614-639. *)
Definition handleExtensionChange : M unit :=
  s <- gets svc ;;
  if negb (isEnabled s) || isSyncing s || isApplyingRemoteChanges s
  then ret tt
  else
    tryCatch
      (ExtensionService.pushExtensions ;;
       changed <- GitService.hasChanges ;;
       if changed then GitService.push else ret tt)
      (fun _ => ret tt).

(** The [try]/[catch] of the listener that the constructor registers with
    [vscode.workspace.onDidChangeConfiguration]: lines 40-58, reached when
    the change affects [settingsSync.files] and the native watchers of
    [watchedFiles] have been closed.  The template [`${error}`] renders an
    [Error] with its name in front. *)
Definition handleConfigurationChange : M unit :=
  tryCatch
    (copyFilesToWorkingDir ;;
     setupFileWatcher ;;
     changed <- GitService.hasChanges ;;
     if changed then GitService.push else ret tt)
    (fun error =>
       emit (ObsShowError
         ("Failed to handle configuration change: Error: " +:+ error))).

(** [disable()] *)
Definition disable : M unit :=
  modify (withSvc (setIsEnabled false)).

(** [enable()]: a failure of [setupPeriodicSync] is logged. *)
Definition enable : M unit :=
  modify (withSvc (setIsEnabled true)) ;;
  tryCatch setupPeriodicSync (fun _ => ret tt).

(** [public toggleEnabled = () => {...}] *)
Definition toggleEnabled : M unit :=
  modify (withSvc (fun s => setIsEnabled (negb (isEnabled s)) s)) ;;
  enabled <- gets (fun w => isEnabled (svc w)) ;;
  if enabled then enable else disable.

(** [dispose()]: the two timers the service holds are cleared; the native
    watchers are closed and every disposable is disposed, which closes
    each watcher that was ever created. *)
Definition dispose : M unit :=
  modify (withSvc (setIsEnabled false)) ;;
  pendingSync <- gets (fun w => syncTimer (svc w)) ;;
  match pendingSync with
  | Some handle => clearTimeout handle
  | None => ret tt
  end ;;
  pendingDebounce <- gets (fun w => debounceTimer (svc w)) ;;
  match pendingDebounce with
  | Some handle => clearTimeout handle
  | None => ret tt
  end ;;
  modify (withSvc (setWatchers [])) ;;
  modify (withSvc (setExtensionWatcher false)).

End SyncService.

(** ** The extension entry points (src/extension.ts) *)

Module Extension.

(** [export async function activate(context)], from the services on: the
    start-up initialisation of lines 54-63.  The result tells whether
    [statusBarItem.show()] was reached. *)
Definition activate : M bool :=
  c <- config ;;
  if String.eqb (repositoryUrl c) "" then ret false
  else tryCatch (SyncService.initialize ;; ret true) (fun _ => ret false).

(** [export function deactivate()] *)
Definition deactivate : M unit := SyncService.dispose.

(** The command 'sync-settings-with-github.reinitialize': lines 36-50.
    [yes] tells whether the user answers 'Yes' to the warning.  The
    information message of line 45 is not an observation of the trace. *)
Definition reinitializeCommand (yes : bool) : M unit :=
  if yes
  then
    tryCatch GitService.reinitialize
      (fun error => emit (ObsShowError ("Failed to reinitialize: " +:+ error)))
  else ret tt.

End Extension.

(** ** The event loop *)

(** What the host runs when a timer expires. *)
Definition fire (a : TimerAct) : M unit :=
  match a with
  | FireDebounce => SyncService.debounceCallback
  | FirePeriodic => SyncService.periodicCallback
  | ReleaseSyncLock => modify (withSvc (setIsSyncing false))
  | ReleaseRemoteLock => modify (withSvc (setIsApplyingRemoteChanges false))
  end.

(** The timer that expires first; among equal deadlines, the one that was
    set first. *)
Fixpoint earliest (l : list Timer) : option Timer :=
  match l with
  | [] => None
  | t :: rest =>
      match earliest rest with
      | Some u => if due u <? due t then Some u else Some t
      | None => Some t
      end
  end.

(** Remove timer [t] from the table, move the clock to its deadline and run
    its callback.  A callback that throws leaves an unhandled rejection:
    the loop goes on. *)
Definition expire (t : Timer) (w : World) : World :=
  let w1 := withHost (fun h =>
    setNow (Z.max (now h) (due t))
      (setTimers (List.filter (fun u => negb (tid u =? tid t)%nat) (timers h))
                 (nextTimer h) h)) w in
  snd (fire (act t) w1).

(** Let the clock reach [until], expiring every timer that is due on the
    way; [fuel] bounds the number of callbacks that are run. *)
Fixpoint advance (fuel : nat) (until : Z) (w : World) : World :=
  match earliest (timers (host w)) with
  | Some t =>
      if due t <=? until
      then match fuel with
           | O => w
           | S fuel' => advance fuel' until (expire t w)
           end
      else withHost (setNow (Z.max (now (host w)) until)) w
  | None => withHost (setNow (Z.max (now (host w)) until)) w
  end.

(** A file-system event for [path] reaches the watcher at time [t]. *)
Definition fileEventAt (fuel : nat) (path : string) (t : Z) (w : World)
    : World :=
  snd (SyncService.handleFileEvent path (advance fuel t w)).

(** A burst of events for [path], at the times [ts]. *)
Definition deliver (fuel : nat) (path : string) (ts : list Z) (w : World)
    : World :=
  fold_left (fun w t => fileEventAt fuel path t w) ts w.

(** ** Reading a trace *)

Definition callsOf (l : list Obs) : list Call :=
  omap (fun o => match o with ObsCall c => Some c | _ => None end) l.

Definition triggersOf (l : list Obs) : list Z :=
  omap (fun o => match o with ObsTrigger t => Some t | _ => None end) l.

Definition installsOf (l : list Obs) : list string :=
  omap (fun o => match o with ObsInstall x => Some x | _ => None end) l.

Definition uninstallsOf (l : list Obs) : list string :=
  omap (fun o => match o with ObsUninstall x => Some x | _ => None end) l.

Definition copiesOf (l : list Obs) : list (string * string) :=
  omap (fun o => match o with ObsCopyFile s t => Some (s, t) | _ => None end) l.

Definition gitCmdsOf (l : list Obs) : list GitCmd :=
  omap (fun o => match o with ObsGit c => Some c | _ => None end) l.

(** ** Sample worlds *)

Definition sampleFiles : FileConfig :=
  {| patterns := ["settings.json"];
     excludePatterns := [];
     externalFiles := [{| source := "~/.bashrc"; target := "shell/bashrc" |}] |}.

Definition sampleConfig : Config :=
  {| repositoryUrl := "https://github.com/user/settings.git";
     branch := "main";
     pullBeforePush := false;
     pullBeforeForcePush := false;
     syncInterval := 300;
     pullOnLaunch := true;
     debounceDelay := 5;
     files := Some sampleFiles;
     extensionsSync := true;
     extensionsAutoRemove := false;
     home := "/home/u";
     userSettingsPath := "/home/u/.config/Code/User";
     workingDirectory := "/home/u/settings-sync" |}.

(** A glob under which every pattern is a literal file name. *)
Definition literalGlob (pats ignore : list string) (cwd : string)
    : list string :=
  map (path_join cwd) pats.

(** The environment answers the questions listed in [script], in order, and
    [true] to everything else. *)
Definition scripted (script : list (Op * list bool)) (q : Op) : list bool :=
  match List.find (fun e => sameOp (fst e) q) script with
  | Some e => snd e
  | None => []
  end.

Definition sampleSvc (enabled syncing applying : bool) : Svc :=
  {| isEnabled := enabled; isSyncing := syncing;
     isApplyingRemoteChanges := applying;
     syncTimer := None; debounceTimer := None;
     watchers := []; extensionWatcher := false;
     lastEventTime := ∅ |}.

Definition sampleHost (c : Config) (exts : list HostExtension)
    (files : gmap string Content) (script : list (Op * list bool)) : Host :=
  {| now := 0; timers := []; nextTimer := 0%nat; cfg := c;
     extensionsAll := exts; fs := files; fg := literalGlob;
     answers := scripted script; trace := [] |}.

(** A freshly constructed service: disabled, over a git service that is not
    initialised yet. *)
Definition startWorld (files : gmap string Content)
    (script : list (Op * list bool)) : World :=
  {| svc := sampleSvc false false false;
     git := {| initialized := false; ahead := 0%nat |};
     host := sampleHost sampleConfig [] files script |}.

(** A host with one built-in extension and one user extension, and a
    synced list that names the built-in one and two that are missing; the
    first installation and the first removal fail. *)
Definition extensionWorld (autoRemove : bool) : World :=
  {| svc := sampleSvc true false false;
     git := {| initialized := true; ahead := 0%nat |};
     host :=
       sampleHost
         {| repositoryUrl := repositoryUrl sampleConfig;
            branch := branch sampleConfig;
            pullBeforePush := false; pullBeforeForcePush := false;
            syncInterval := 300; pullOnLaunch := true; debounceDelay := 5;
            files := Some sampleFiles;
            extensionsSync := true;
            extensionsAutoRemove := autoRemove;
            home := home sampleConfig;
            userSettingsPath := userSettingsPath sampleConfig;
            workingDirectory := workingDirectory sampleConfig |}
         [{| hx_id := "vscode.git"; hx_version := "1.0.0"; isBuiltin := true |};
          {| hx_id := "user.theme"; hx_version := "2.1.0"; isBuiltin := false |}]
         (<["/home/u/settings-sync/extensions.json" :=
              Json [{| id := "vscode.git"; version := None |};
                    {| id := "user.linter"; version := Some "0.3.0" |};
                    {| id := "user.spell"; version := None |}]]> ∅)
         [(InstallCmd, [false]); (UninstallCmd, [false])] |}.

(** A service that is enabled and idle over an initialised repository. *)
Definition idleWorld (script : list (Op * list bool)) : World :=
  {| svc := sampleSvc true false false;
     git := {| initialized := true; ahead := 0%nat |};
     host := sampleHost sampleConfig []
               (<["/home/u/.config/Code/User/settings.json" := Raw "{}"]> ∅)
               script |}.

(** ** Frames

    Relations between the world a method starts from and the world it ends
    in, used to state what a method leaves alone. *)

(** [Steps R m]: every run of [m], whatever its result, relates its initial
    world to its final world. *)
Definition Steps (R : relation World) {A} (m : M A) : Prop :=
  forall w, R w (snd (m w)).

(** What the low-level operations leave alone: the fields of the service,
    the timer table, the clock, the configuration, and the calls and
    triggers recorded so far. *)
Definition control (w : World) :=
  (svc w, timers (host w), nextTimer (host w), now (host w), cfg (host w),
   fg (host w), callsOf (trace (host w)), triggersOf (trace (host w))).

Definition quiet : relation World := fun w w' => control w' = control w.

(** [steady w w']: the fields of the service, the timer table and the clock
    are the same in [w] and [w']. *)
Definition steady : relation World := fun w w' =>
  svc w' = svc w /\ timers (host w') = timers (host w) /\
  nextTimer (host w') = nextTimer (host w) /\ now (host w') = now (host w).

(** The timer that releases a lock taken at time [t0]. *)
Definition releaseTimer (a : TimerAct) (t0 : Z) (handle : nat) : Timer :=
  {| tid := handle; due := t0 + 1000; act := a |}.

(** An observation that is neither a call nor a trigger. *)
Definition lowLevel (o : Obs) : Prop :=
  match o with
  | ObsCall _ | ObsTrigger _ => False
  | _ => True
  end.

(** [callsGrow cs w w']: between [w] and [w'] exactly the calls [cs] were
    recorded. *)
Definition callsGrow (cs : list Call) : relation World :=
  fun w w' => callsOf (trace (host w')) = callsOf (trace (host w)) ++ cs.

(** The timers that only release a lock. *)
Definition isRelease (t : Timer) : Prop :=
  act t = ReleaseSyncLock \/ act t = ReleaseRemoteLock.

(** [calm w w']: between [w] and [w'] no debounce callback ran, the
    configuration and the clock did not change, no timer was cleared and
    the only timers that were set are lock releases. *)
Definition calm : relation World := fun w w' =>
  triggersOf (trace (host w')) = triggersOf (trace (host w)) /\
  cfg (host w') = cfg (host w) /\
  now (host w') = now (host w) /\
  exists l, timers (host w') = timers (host w) ++ l /\ Forall isRelease l.

(** Overwrite the two flags that [sync] consults. *)
Definition overrideFlags (enabled syncing : bool) (w : World) : World :=
  withSvc (fun s => setIsEnabled enabled (setIsSyncing syncing s)) w.

(** [Blind g m]: [m] neither reads nor writes what [g] changes. *)
Definition Blind (g : World -> World) {A} (m : M A) : Prop :=
  forall w, m (g w) = (fst (m w), g (snd (m w))).

(** ** The runs of [sync]

    The calls a complete run of [sync] makes, once its guards are passed:
    the push pipeline when the working tree has local changes, otherwise a
    pull, followed by the mirror to the live directory and the extension
    pull when [hasChanges] answers [true] after the pull. *)
Definition pushRun : list Call :=
  [CHasChanges true; CCopyToWorking; CPushExtensions; CGitPush].

Definition pullRunUnchanged : list Call :=
  [CHasChanges false; CGitPull; CHasChanges false].

Definition pullRunChanged : list Call :=
  [CHasChanges false; CGitPull; CHasChanges true;
   CCopyFromWorking; CPullExtensions].

(** The calls of a complete force push and of a complete force pull. *)
Definition forcePushRun : list Call :=
  [CCopyToWorking; CPushExtensions; CGitForcePush].

Definition forcePullRun : list Call :=
  [CGitForcePull; CCopyFromWorking; CPullExtensions].

(** [svcOnly w w']: only fields of the service differ between [w] and [w']. *)
Definition svcOnly : relation World := fun w w' =>
  host w' = host w /\ git w' = git w.

(** The periodic timer armed by [setupPeriodicSync] at time [t0]. *)
Definition periodicTimer (c : Config) (t0 : Z) (handle : nat) : Timer :=
  {| tid := handle; due := t0 + timerDelay (syncInterval c * 1000);
     act := FirePeriodic |}.

(** ** The batches of the two mirrors *)

(** The (source, target) pairs [copyFilesToWorkingDir] goes through: the
    files the glob finds under the user settings directory, then the
    external files. *)
Definition batchToWorkingDir (w : World) : list (string * string) :=
  let c := cfg (host w) in
  let fileConfig := SyncService.fileConfigOrDefault c in
  map (fun file =>
         (file, path_join (workingDirectory c)
                  (path_relative (userSettingsPath c) file)))
      (fg (host w) (patterns fileConfig) (excludePatterns fileConfig)
          (userSettingsPath c))
  ++ map (fun x =>
            (expandHome c (source x),
             path_join (workingDirectory c) (target x)))
         (externalFiles fileConfig).

(** The pairs [copyFilesFromWorkingDir] goes through. *)
Definition batchFromWorkingDir (w : World) : list (string * string) :=
  let c := cfg (host w) in
  let fileConfig := SyncService.fileConfigOrDefault c in
  map (fun file =>
         (file, path_join (userSettingsPath c)
                  (path_relative (workingDirectory c) file)))
      (fg (host w) (patterns fileConfig) (excludePatterns fileConfig)
          (workingDirectory c))
  ++ map (fun x =>
            (path_join (workingDirectory c) (target x),
             expandHome c (source x)))
         (externalFiles fileConfig).

(** The line [copyFile] logs for a source that does not exist. *)
Definition missingNotice (src : string) : Obs :=
  if str_includes "~" src || path_isAbsolute src
  then ObsMissingOptional src
  else ObsMissingSource src.

(** ** A rejected push *)

(** The error [push] ends with when the retry fails too. *)
Definition terminalError (c : Config) : string :=
  "Failed to push changes: "
  +:+ ("Failed to reconcile changes. Repository location: "
       +:+ workingDirectory c).

(** Whether the retry runs up to its commit and records something: the
    pull, the staging and the commit succeed and there is something
    staged.  Its pull is the second [pull --rebase] of the run when a pull
    precedes the first push. *)
Definition retryCommits (w : World) : bool :=
  let p := if pullBeforePush (cfg (host w)) then 1%nat else 0%nat in
  answerAt (OGit PullRebase) p w && answerAt (OGit Add) 1 w
  && answerAt (OGit Commit) 1 w && answerAt StagedChanges 1 w.

(** Whether the retry succeeds: its four commands do. *)
Definition retrySucceeds (w : World) : bool :=
  let p := if pullBeforePush (cfg (host w)) then 1%nat else 0%nat in
  answerAt (OGit PullRebase) p w && answerAt (OGit Add) 1 w
  && answerAt (OGit Commit) 1 w && answerAt (OGit Push) 1 w.

(** The remote rejects two pushes in a row; the user asks for the retry;
    both commits have something to record (the working tree was written to
    again while the prompt was open). *)
Definition conflictWorld : World :=
  idleWorld [(OGit Push, [false; false]); (PullAndRetry, [true]);
             (StagedChanges, [true; true])].

(** ** Bursts of file events *)

(** The delay of the debounce timer: [settingsSync.debounceDelay] in
    milliseconds, as [setTimeout] takes it. *)
Definition debounceMs (w : World) : Z :=
  timerDelay (debounceDelay (cfg (host w)) * 1000).

(** The time of the last event that [handleFileEvent] retains, among the
    events at times [ts] that follow a retained event at time [last]: an
    event less than [EVENT_THRESHOLD] after the last retained one is
    skipped. *)
Fixpoint lastRetained (last : Z) (ts : list Z) : Z :=
  match ts with
  | [] => last
  | t :: rest =>
      lastRetained
        (if t - last <? SyncService.EVENT_THRESHOLD then last else t) rest
  end.

(** [inBurst delay prev last ts]: the events at times [ts] arrive in order,
    not before [prev], each before the debounce timer set by the last
    retained event (at [last], then at the retained events of [ts])
    expires. *)
Fixpoint inBurst (delay prev last : Z) (ts : list Z) : Prop :=
  match ts with
  | [] => True
  | t :: rest =>
      prev <= t /\ t < last + delay /\
      inBurst delay t
        (if t - last <? SyncService.EVENT_THRESHOLD then last else t) rest
  end.

(** [spaced delay prev ts]: the events at times [ts] arrive in order, each
    less than [delay] after the previous one. *)
Fixpoint spaced (delay prev : Z) (ts : list Z) : Prop :=
  match ts with
  | [] => True
  | t :: rest => prev <= t /\ t - prev < delay /\ spaced delay t rest
  end.

(** The timer set by [handleFileChange] at time [t]. *)
Definition debounceTimerAt (w : World) (t : Z) (handle : nat) : Timer :=
  {| tid := handle; due := t + debounceMs w; act := FireDebounce |}.

(** [settled until w]: the timers of [w] that expire by [until] only release
    locks. *)
Definition settled (until : Z) (w : World) : Prop :=
  forall u, u ∈ timers (host w) -> due u <= until -> isRelease u.

(** [midBurst w0 path until last v]: [v] is the world in the middle of a
    burst that started in [w0]: the service is idle, no debounce callback
    has run, the last retained event for [path] came at [last] and set the
    one timer that can expire by [until]. *)
Definition midBurst (w0 : World) (path : string) (until last : Z)
    (v : World) : Prop :=
  isEnabled (svc v) = true /\ isSyncing (svc v) = false /\
  isApplyingRemoteChanges (svc v) = false /\
  cfg (host v) = cfg (host w0) /\
  triggersOf (trace (host v)) = triggersOf (trace (host w0)) /\
  lastEventTime (svc v) !! path = Some last /\
  last <= now (host v) <= last + debounceMs w0 /\
  exists others handle,
    timers (host v) = others ++ [debounceTimerAt w0 last handle] /\
    debounceTimer (svc v) = Some handle /\
    forall u, u ∈ others -> until < due u.

(** An idle service whose working tree turns out clean each time the
    debounce callback looks at it. *)
Definition quietTreeWorld : World :=
  idleWorld [(TreeDirty, [false; false; false])].

(** * Observations for the listeners, the timers and the files *)

(** [gitGrow cmds w w']: between [w] and [w'] exactly the commands [cmds]
    were sent to git. *)
Definition gitGrow (cmds : list GitCmd) : relation World :=
  fun w w' => gitCmdsOf (trace (host w')) = gitCmdsOf (trace (host w)) ++ cmds.

(** The [.git] entry of the working directory. *)
Definition gitDir (w : World) : string :=
  path_join (workingDirectory (cfg (host w))) ".git".

(** [unchanged f w w']: the observation [f] is the same in [w] and [w']. *)
Definition unchanged {A} (f : World -> A) : relation World :=
  fun w w' => f w' = f w.

(** The messages shown with [vscode.window.showErrorMessage]. *)
Definition errorsShownOf (l : list Obs) : list string :=
  omap (fun o => match o with ObsShowError m => Some m | _ => None end) l.

Definition errorsShown (w : World) : list string :=
  errorsShownOf (trace (host w)).

(** The message of the prompt shown after a rejected push, and the error
    thrown when the user cancels. *)
Definition pushRejectedPrompt (c : Config) : string :=
  "Failed to push to " +:+ repositoryUrl c
  +:+ " (" +:+ GitService.branchOrMain c +:+ ")".

Definition pushCancelledError (c : Config) : string :=
  "Push failed to " +:+ repositoryUrl c
  +:+ " (" +:+ GitService.branchOrMain c +:+ ")".

(** The pull that [push] starts with when [pullBeforePush] is set. *)
Definition pullFirst (c : Config) : list GitCmd :=
  if pullBeforePush c then [PullRebase] else [].

Definition setCfg (c : Config) (h : Host) : Host :=
  {| now := now h; timers := timers h; nextTimer := nextTimer h; cfg := c;
     extensionsAll := extensionsAll h; fs := fs h; fg := fg h;
     answers := answers h; trace := trace h |}.

(** [sampleConfig] with [settingsSync.git.pullBeforePush] set. *)
Definition pullFirstConfig : Config :=
  {| repositoryUrl := repositoryUrl sampleConfig;
     branch := branch sampleConfig;
     pullBeforePush := true;
     pullBeforeForcePush := false;
     syncInterval := 300; pullOnLaunch := true; debounceDelay := 5;
     files := Some sampleFiles;
     extensionsSync := true; extensionsAutoRemove := false;
     home := home sampleConfig;
     userSettingsPath := userSettingsPath sampleConfig;
     workingDirectory := workingDirectory sampleConfig |}.

(** An error caught and thrown again behind a prefix, after it was shown:
    the shape of the [catch] blocks of [push], [forcePush] and
    [reinitialize]. *)
Definition reportAs (pfx : string) (m : M unit) : M unit :=
  tryCatch m (fun error =>
    emit (ObsShowError (pfx +:+ error)) ;; throw (pfx +:+ error)).

(** Whether the removal of the working directory is refused: there is a
    directory to remove and the environment fails the next write. *)
Definition removalFails (w : World) : bool :=
  dirExists (workingDirectory (cfg (host w))) w
  && negb (answerAt WriteIO 0 w).

(** The world [reinitialize] hands to [initialize] when the removal is not
    refused. *)
Definition cleared (w : World) : World :=
  withGit (setInitialized false)
    (if dirExists (workingDirectory (cfg (host w))) w
     then withGit (setAhead 0%nat)
            (withHost (fun h =>
               setFs (rmTree (workingDirectory (cfg (host w))) (fs h)) h)
               (snd (ask WriteIO w)))
     else w).


(** The [initialized] field of the git service. *)
Definition initFlag (w : World) : bool := initialized (git w).


(** ** Timer discipline *)

Definition isPeriodic (t : Timer) : bool :=
  match act t with FirePeriodic => true | _ => false end.

Definition isDebounce (t : Timer) : bool :=
  match act t with FireDebounce => true | _ => false end.

(** [timersTracked w]: the handles of the timer table are distinct and
    were all handed out already, and the service holds in [syncTimer] and
    in [debounceTimer] the handle of every pending periodic and debounce
    timer. *)
Definition timersTracked (w : World) : Prop :=
  (forall t, t ∈ timers (host w) -> (tid t < nextTimer (host w))%nat) /\
  NoDup (map tid (timers (host w))) /\
  (forall t, t ∈ timers (host w) -> isPeriodic t = true ->
     syncTimer (svc w) = Some (tid t)) /\
  (forall t, t ∈ timers (host w) -> isDebounce t = true ->
     debounceTimer (svc w) = Some (tid t)).

Definition keepsTimers : relation World :=
  fun w w' => timersTracked w -> timersTracked w'.

(** What [timersTracked] looks at. *)
Definition timerView (w : World) :=
  (syncTimer (svc w), debounceTimer (svc w), timers (host w),
   nextTimer (host w)).

(** The commands and listeners of the extension. *)
Definition entryPoints : list (M unit) :=
  [SyncService.initialize; SyncService.sync; SyncService.forcePush;
   SyncService.forcePull; SyncService.toggleEnabled; SyncService.enable;
   SyncService.disable; SyncService.dispose;
   SyncService.handleExtensionChange; SyncService.handleConfigurationChange;
   GitService.reinitialize; Extension.deactivate].

(** One step of the extension in its environment: a command or a listener
    runs, a file event reaches a watcher, a timer expires, or the
    environment changes something that is not a field of the service or
    the timer table. *)
Inductive step : relation World :=
  | step_entry (m : M unit) (w : World) :
      In m entryPoints -> step w (snd (m w))
  | step_activate (w : World) : step w (snd (Extension.activate w))
  | step_reinitialize (yes : bool) (w : World) :
      step w (snd (Extension.reinitializeCommand yes w))
  | step_fileEvent (path : string) (w : World) :
      step w (snd (SyncService.handleFileEvent path w))
  | step_fileChange (path : string) (w : World) :
      step w (snd (SyncService.handleFileChange path w))
  | step_dirEvent (sourcePath : string) (filename : option string)
      (w : World) :
      step w (snd (SyncService.handleDirEvent sourcePath filename w))
  | step_directEvent (sourcePath : string) (w : World) :
      step w (snd (SyncService.handleDirectEvent sourcePath w))
  | step_expire (t : Timer) (w : World) :
      t ∈ timers (host w) -> step w (expire t w)
  | step_environment (w w' : World) :
      svc w' = svc w -> timers (host w') = timers (host w) ->
      nextTimer (host w') = nextTimer (host w) -> step w w'.

(** The world in which the callback of timer [t] starts: [t] is off the
    table and the clock has reached its deadline. *)
Definition tick (t : Timer) (w : World) : World :=
  withHost (fun h =>
    setNow (Z.max (now h) (due t))
      (setTimers (List.filter (fun u => negb (tid u =? tid t)%nat) (timers h))
                 (nextTimer h) h)) w.

(** The flags that [sync] consults, and the clock. *)
Definition flagsView (w : World) :=
  (isEnabled (svc w), isSyncing (svc w), now (host w)).

(** The commands sent to git so far, and the state of the git service. *)
Definition gitView (w : World) := (gitCmdsOf (trace (host w)), git w).

(** The fields of the service and the timer table. *)
Definition serviceView (w : World) :=
  (svc w, timers (host w), nextTimer (host w)).

(** What lies outside the service and the timer table. *)
Definition outsideView (w : World) :=
  (trace (host w), fs (host w), git w, extensionsAll (host w),
   isEnabled (svc w), watchers (svc w)).

(** The patterns of the pattern watchers among [l], in order. *)
Definition patternWatchersOf (l : list Watcher) : list string :=
  omap (fun x => match x with PatternWatcher p => Some p | _ => None end) l.

(** The calls of a complete run of the extension-change listener that
    finds something to push. *)
Definition extensionPushRun : list Call :=
  [CPushExtensions; CHasChanges true; CGitPush].

(** The records [getCurrentExtensions] returns in [w]. *)
Definition currentExtensions (w : World) : list ExtensionInfo :=
  map (fun e => {| id := hx_id e; version := Some (hx_version e) |})
      (List.filter (fun e => negb (isBuiltin e)) (extensionsAll (host w))).

(** ** What the mirrors do to the files *)

(** One copy that does not fail on I/O: the target takes the content of
    the source when the source exists. *)
Definition applyCopy (m : gmap string Content) (p : string * string)
    : gmap string Content :=
  match m !! p.1 with
  | Some content => <[p.2 := content]> m
  | None => m
  end.

(** The copies of a batch, in order. *)
Definition applyBatch (batch : list (string * string))
    (m : gmap string Content) : gmap string Content :=
  fold_left applyCopy batch m.

(** [keepsFiles w w']: every file of [w] is still there in [w']. *)
Definition keepsFiles : relation World := fun w w' =>
  forall p, is_Some (fs (host w) !! p) -> is_Some (fs (host w') !! p).

(** No target of the batch is the source of one of its copies, and no two
    copies have the same target. *)
Definition separate (batch : list (string * string)) : Prop :=
  NoDup (map snd batch) /\
  forall p q, p ∈ batch -> q ∈ batch -> p.2 <> q.1.

(** The watchers of the service. *)
Definition watchersOf (w : World) : list Watcher := watchers (svc w).

(** ** More sample worlds *)

(** An idle service over a working directory that holds a repository and
    a mirrored settings file. *)
Definition repositoryWorld (script : list (Op * list bool)) : World :=
  withHost
    (setFs (<["/home/u/settings-sync/.git" := Raw ""]>
              (<["/home/u/settings-sync/settings.json" := Raw "{}"]>
                 (<["/home/u/.config/Code/User/settings.json" := Raw "{}"]>
                    ∅))))
    (idleWorld script).

(** [sampleConfig] without the [settingsSync.files] key. *)
Definition bareConfig : Config :=
  {| repositoryUrl := repositoryUrl sampleConfig;
     branch := branch sampleConfig;
     pullBeforePush := false;
     pullBeforeForcePush := false;
     syncInterval := 300; pullOnLaunch := true; debounceDelay := 5;
     files := None;
     extensionsSync := true; extensionsAutoRemove := false;
     home := home sampleConfig;
     userSettingsPath := userSettingsPath sampleConfig;
     workingDirectory := workingDirectory sampleConfig |}.

(** An idle service one second after the epoch of the sample clock. *)
Definition lateWorld (script : list (Op * list bool)) : World :=
  withHost (setNow 1000) (idleWorld script).

(** The service after a start-up in which nothing fails and nothing is
    pulled; the pull of the first periodic sync will fail. *)
Definition startedWorld : World :=
  snd (SyncService.initialize
         (startWorld ∅ [(OGit PullRebase, [true; false]);
                        (TreeDirty, [false; false])])).

(** ** Runs in which nothing fails *)

(** The questions whose answer tells whether an operation succeeds: a
    git command, a copy, a write. *)
Definition fallible (q : Op) : bool :=
  match q with
  | OGit _ | CopyIO | WriteIO => true
  | _ => false
  end.

(** [noFailure w]: the environment of [w] lets every git command, every
    copy and every write succeed. *)
Definition noFailure (w : World) : Prop :=
  forall q, fallible q = true -> Forall (eq true) (answers (host w) q).

(** [staysObliging w w']: when nothing fails in the environment of [w],
    nothing fails in that of [w']. *)
Definition staysObliging : relation World :=
  fun w w' => noFailure w -> noFailure w'.

(** What the methods of a run leave alone: the configuration, the glob
    and the [initialized] flag. *)
Definition settingView (w : World) :=
  (cfg (host w), fg (host w), initialized (git w)).

(** The copies started so far. *)
Definition copiesView (w : World) := copiesOf (trace (host w)).

(** The answers [git status] has in store. *)
Definition dirtyAnswers (w : World) : list bool := answers (host w) TreeDirty.

(** [ran cs gs ps n w w']: between [w] and [w'] the calls [cs] were
    recorded, the commands [gs] were sent to git and the copies [ps] were
    started, [git status] was read [n] times, the configuration, the glob
    and the [initialized] flag did not change, and an environment in which
    nothing fails is still one. *)
Definition ran (cs : list Call) (gs : list GitCmd)
    (ps : list (string * string)) (n : nat) : relation World :=
  fun w w' =>
    callsGrow cs w w' /\ gitGrow gs w w' /\
    copiesOf (trace (host w')) = copiesOf (trace (host w)) ++ ps /\
    settingView w' = settingView w /\
    dirtyAnswers w' = Nat.iter n (@tl bool) (dirtyAnswers w) /\
    staysObliging w w'.

(** The pull that [forcePush] starts with when [pullBeforeForcePush] is
    set. *)
Definition pullFirstForce (c : Config) : list GitCmd :=
  if pullBeforeForcePush c then [PullPlain] else [].

(** ** The pipelines of the specification *)

(** A pipeline: the steps in order, each on the world the previous one
    left; the first step that throws ends the run with its error. *)
Fixpoint pipeline (steps : list (M unit)) (w : World) : Res unit * World :=
  match steps with
  | [] => (Ok tt, w)
  | step :: rest =>
      match step w with
      | (Ok _, w1) => pipeline rest w1
      | (Err e, w1) => (Err e, w1)
      end
  end.

(** A run of [sync] as the specification describes it, from the world in
    which the lock was taken: the push pipeline when [hasChanges] answers
    [true]; otherwise the pull, and the pull pipeline when [hasChanges]
    answers [true] after it. *)
Definition syncPlan (w : World) : Res unit * World :=
  match GitService.hasChanges w with
  | (Ok true, w1) =>
      pipeline [SyncService.copyFilesToWorkingDir;
                ExtensionService.pushExtensions;
                GitService.push] w1
  | (Ok false, w1) =>
      match GitService.pull w1 with
      | (Ok _, w2) =>
          match GitService.hasChanges w2 with
          | (Ok true, w3) =>
              pipeline [SyncService.copyFilesFromWorkingDir;
                        ExtensionService.pullExtensions] w3
          | (Ok false, w3) => (Ok tt, w3)
          | (Err e, w3) => (Err e, w3)
          end
      | (Err e, w2) => (Err e, w2)
      end
  | (Err e, w1) => (Err e, w1)
  end.

(** [sampleConfig] with [settingsSync.git.pullBeforePush] set, the tree
    dirty: a run of [sync] through its push pipeline. *)
Definition pushBranchWorld : World :=
  withHost (setCfg pullFirstConfig) (idleWorld [(TreeDirty, [true])]).

(** The files. *)
Definition filesView (w : World) := fs (host w).

(** The extensions the host lists. *)
Definition extensionsView (w : World) := extensionsAll (host w).

(** [sampleConfig] with a sync interval and a debounce delay of thirty
    days: more milliseconds than a timer takes. *)
Definition longDelayConfig : Config :=
  {| repositoryUrl := repositoryUrl sampleConfig;
     branch := branch sampleConfig;
     pullBeforePush := false;
     pullBeforeForcePush := false;
     syncInterval := 2592000; pullOnLaunch := true; debounceDelay := 2592000;
     files := Some sampleFiles;
     extensionsSync := true; extensionsAutoRemove := false;
     home := home sampleConfig;
     userSettingsPath := userSettingsPath sampleConfig;
     workingDirectory := workingDirectory sampleConfig |}.

(** A disabled service, otherwise idle, under [longDelayConfig]. *)
Definition longDelayWorld : World :=
  withHost (setCfg longDelayConfig)
    (withSvc (setIsEnabled false) (lateWorld [])).

(** An idle service under [longDelayConfig] whose working tree turns out
    clean. *)
Definition longDebounceWorld : World :=
  withHost (setCfg longDelayConfig) quietTreeWorld.


(** * Properties *)

(** ** Frame rules *)

Section StepsLemmas.
Context (R : relation World) `{!PreOrder R}.

Lemma steps_ret {A} (a : A) : Steps R (ret a).
Proof. intros w. reflexivity. Qed.

Lemma steps_throw {A} (e : string) : Steps R (@throw A e).
Proof. intros w. reflexivity. Qed.

Lemma steps_gets {A} (f : World -> A) : Steps R (gets f).
Proof. intros w. reflexivity. Qed.

Lemma steps_modify (f : World -> World) :
  (forall w, R w (f w)) -> Steps R (modify f).
Proof. intros H w. apply H. Qed.

Lemma steps_bind {A B} (m : M A) (k : A -> M B) :
  Steps R m -> (forall a, Steps R (k a)) -> Steps R (bind m k).
Proof.
  intros Hm Hk w. unfold bind. specialize (Hm w).
  destruct (m w) as [[a|e] w1]; simpl in *; [|assumption].
  etransitivity; [exact Hm | apply Hk].
Qed.

Lemma steps_tryCatch {A} (m : M A) (h : string -> M A) :
  Steps R m -> (forall e, Steps R (h e)) -> Steps R (tryCatch m h).
Proof.
  intros Hm Hh w. unfold tryCatch. specialize (Hm w).
  destruct (m w) as [[a|e] w1]; simpl in *; [assumption|].
  etransitivity; [exact Hm | apply Hh].
Qed.

Lemma steps_tryFinally {A} (m : M A) (f : World -> World) :
  Steps R m -> (forall w, R w (f w)) -> Steps R (tryFinally m f).
Proof.
  intros Hm Hf w. unfold tryFinally. specialize (Hm w).
  destruct (m w) as [r w1]; simpl in *.
  etransitivity; [exact Hm | apply Hf].
Qed.

Lemma steps_forEach {A} (l : list A) (body : A -> M unit) :
  (forall x, Steps R (body x)) -> Steps R (forEach l body).
Proof.
  intros Hb. induction l as [|x l IH]; simpl.
  - apply steps_ret.
  - apply steps_bind; [apply Hb | intros _; exact IH].
Qed.
End StepsLemmas.

#[global] Instance quiet_preorder : PreOrder quiet.
Proof.
  split.
  - intros w. reflexivity.
  - intros a b c Hab Hbc. unfold quiet in *. congruence.
Qed.

(** Break a method into its statements. *)
Ltac steps_with tac :=
  repeat (intros;
    lazymatch goal with
    | |- Steps _ (bind _ _) => apply steps_bind; [typeclasses eauto| |]
    | |- Steps _ (ret _) => apply steps_ret; typeclasses eauto
    | |- Steps _ (throw _) => apply steps_throw; typeclasses eauto
    | |- Steps _ (gets _) => apply steps_gets; typeclasses eauto
    | |- Steps _ (tryCatch _ _) => apply steps_tryCatch; [typeclasses eauto| |]
    | |- Steps _ (forEach _ _) => apply steps_forEach; [typeclasses eauto|]
    | |- Steps _ (if ?b then _ else _) => destruct b
    | |- Steps _ (match ?x with _ => _ end) => destruct x
    | |- Steps _ _ => tac
    end).

Lemma callsOf_app l1 l2 : callsOf (l1 ++ l2) = callsOf l1 ++ callsOf l2.
Proof. unfold callsOf. apply omap_app. Qed.

Lemma triggersOf_app l1 l2 : triggersOf (l1 ++ l2) = triggersOf l1 ++ triggersOf l2.
Proof. unfold triggersOf. apply omap_app. Qed.

Lemma quiet_emit o : lowLevel o -> Steps quiet (emit o).
Proof.
  intros Ho w. unfold quiet, control, emit, modify; simpl.
  rewrite callsOf_app, triggersOf_app.
  destruct o; simpl in *; try contradiction; rewrite ?app_nil_r; reflexivity.
Qed.

Lemma quiet_ask q : Steps quiet (ask q).
Proof. intros w. reflexivity. Qed.

Lemma quiet_withGit f : Steps quiet (modify (withGit f)).
Proof. intros w. reflexivity. Qed.

Lemma quiet_setFs (f : World -> gmap string Content) :
  Steps quiet (modify (fun w => withHost (setFs (f w)) w)).
Proof. intros w. reflexivity. Qed.

Lemma quiet_setExtensionsAll (f : Host -> list HostExtension) :
  Steps quiet (modify (withHost (fun h => setExtensionsAll (f h) h))).
Proof. intros w. reflexivity. Qed.

Lemma quiet_setFs_host (f : Host -> gmap string Content) :
  Steps quiet (modify (withHost (fun h => setFs (f h) h))).
Proof. intros w. reflexivity. Qed.

Create HintDb quiet.
#[global] Hint Resolve quiet_ask quiet_withGit quiet_setFs quiet_setFs_host
  quiet_setExtensionsAll : quiet.
#[global] Hint Extern 1 (Steps quiet (emit _)) =>
  (apply quiet_emit; exact I) : quiet.

Ltac quiet := steps_with ltac:(solve [eauto with quiet]).

Lemma quiet_effect c : Steps quiet (GitService.effect c).
Proof. destruct c; unfold GitService.effect; quiet. Qed.
#[global] Hint Resolve quiet_effect : quiet.

Lemma quiet_gitCmd c : Steps quiet (GitService.gitCmd c).
Proof. unfold GitService.gitCmd. quiet. Qed.
#[global] Hint Resolve quiet_gitCmd : quiet.

Lemma quiet_copyFile s t : Steps quiet (SyncService.copyFile s t).
Proof. unfold SyncService.copyFile. quiet. Qed.
#[global] Hint Resolve quiet_copyFile : quiet.

(** ** What the services leave alone *)

Lemma quiet_pullAndRetry c : Steps quiet (GitService.pullAndRetry c).
Proof. unfold GitService.pullAndRetry. quiet. Qed.
#[global] Hint Resolve quiet_pullAndRetry : quiet.

Lemma quiet_onPushRejected c : Steps quiet (GitService.onPushRejected c).
Proof. unfold GitService.onPushRejected. quiet. Qed.
#[global] Hint Resolve quiet_onPushRejected : quiet.

Lemma quiet_saveExtensionsToFile l :
  Steps quiet (ExtensionService.saveExtensionsToFile l).
Proof. unfold ExtensionService.saveExtensionsToFile, config. quiet. Qed.
#[global] Hint Resolve quiet_saveExtensionsToFile : quiet.

Lemma quiet_readSyncedExtensions :
  Steps quiet ExtensionService.readSyncedExtensions.
Proof. unfold ExtensionService.readSyncedExtensions, config. quiet. Qed.
#[global] Hint Resolve quiet_readSyncedExtensions : quiet.

Lemma quiet_installExtension x : Steps quiet (ExtensionService.installExtension x).
Proof. unfold ExtensionService.installExtension. quiet. Qed.

Lemma quiet_uninstallExtension x :
  Steps quiet (ExtensionService.uninstallExtension x).
Proof. unfold ExtensionService.uninstallExtension. quiet. Qed.
#[global] Hint Resolve quiet_installExtension quiet_uninstallExtension : quiet.

Lemma quiet_installMissingExtensions l :
  Steps quiet (ExtensionService.installMissingExtensions l).
Proof. unfold ExtensionService.installMissingExtensions. quiet. Qed.

Lemma quiet_removeExtraExtensions l :
  Steps quiet (ExtensionService.removeExtraExtensions l).
Proof. unfold ExtensionService.removeExtraExtensions. quiet. Qed.
#[global] Hint Resolve quiet_installMissingExtensions
  quiet_removeExtraExtensions : quiet.

(** A method that records its entry and is quiet afterwards records
    exactly that call. *)
Lemma entered_call c {A} (rest : M A) :
  Steps quiet rest ->
  forall w, callsGrow [c] w (snd ((emit (ObsCall c) ;; rest) w)).
Proof.
  intros Hrest w. unfold callsGrow, bind, emit, modify; simpl.
  match goal with |- context [rest ?v] => specialize (Hrest v) end.
  destruct (rest _) as [r w1]; simpl in *.
  unfold quiet, control in Hrest; simpl in Hrest.
  injection Hrest as _ _ _ _ _ _ Hcalls _.
  rewrite Hcalls, callsOf_app. reflexivity.
Qed.

Lemma calls_pull w : callsGrow [CGitPull] w (snd (GitService.pull w)).
Proof. apply entered_call. quiet. Qed.

Lemma calls_push w : callsGrow [CGitPush] w (snd (GitService.push w)).
Proof. apply entered_call. unfold GitService.isInitialized, config. quiet. Qed.

Lemma calls_forcePush w :
  callsGrow [CGitForcePush] w (snd (GitService.forcePush w)).
Proof. apply entered_call. unfold GitService.isInitialized, config. quiet. Qed.

Lemma calls_forcePull w :
  callsGrow [CGitForcePull] w (snd (GitService.forcePull w)).
Proof. apply entered_call. quiet. Qed.

Lemma calls_pushExtensions w :
  callsGrow [CPushExtensions] w (snd (ExtensionService.pushExtensions w)).
Proof.
  apply entered_call.
  unfold config, ExtensionService.getCurrentExtensions. quiet.
Qed.

Lemma calls_pullExtensions w :
  callsGrow [CPullExtensions] w (snd (ExtensionService.pullExtensions w)).
Proof. apply entered_call. unfold config. quiet. Qed.

Lemma calls_copyFilesToWorkingDir w :
  callsGrow [CCopyToWorking] w (snd (SyncService.copyFilesToWorkingDir w)).
Proof.
  apply entered_call.
  unfold GitService.getWorkingDirectory, SyncService.getUserSettingsPath, config.
  quiet.
Qed.

Lemma calls_mirrorToLive w :
  callsGrow [CCopyFromWorking] w (snd (SyncService.mirrorToLive w)).
Proof.
  apply entered_call.
  unfold GitService.getWorkingDirectory, SyncService.getUserSettingsPath, config.
  quiet.
Qed.

Lemma calls_copyFilesFromWorkingDir w :
  callsGrow [CCopyFromWorking] w (snd (SyncService.copyFilesFromWorkingDir w)).
Proof.
  unfold SyncService.copyFilesFromWorkingDir, bind, modify, tryFinally; simpl.
  match goal with |- context [SyncService.mirrorToLive ?v] =>
    pose proof (calls_mirrorToLive v) as H;
    destruct (SyncService.mirrorToLive v) as [r w1] end.
  exact H.
Qed.

(** [hasChanges] records its answer when it returns one. *)
Lemma calls_hasChanges w :
  match GitService.hasChanges w with
  | (Ok b, w') => callsGrow [CHasChanges b] w w'
  | (Err _, w') => callsGrow [] w w'
  end.
Proof.
  unfold GitService.hasChanges, bind, gets; simpl.
  destruct (initialized (git w)); simpl.
  - pose proof (quiet_gitCmd Status w) as Hq.
    destruct (GitService.gitCmd Status w) as [[[]|e] w1]; simpl in *.
    + unfold callsGrow, ask, emit, modify, ret; simpl.
      unfold quiet, control in Hq. injection Hq as _ _ _ _ _ _ Hq _.
      rewrite callsOf_app, Hq. reflexivity.
    + unfold callsGrow, quiet, control in *.
      injection Hq as _ _ _ _ _ _ Hq _. rewrite Hq, app_nil_r. reflexivity.
  - unfold callsGrow, emit, modify, ret; simpl. rewrite callsOf_app. reflexivity.
Qed.

(** ** The guards and the pipeline of [sync] *)

Lemma tryCatch_rethrow {A} (m : M A) w :
  tryCatch m (fun error => throw error) w = m w.
Proof. unfold tryCatch, throw. destruct (m w) as [[a|e] w1]; reflexivity. Qed.

Lemma callsGrow_nil w : callsGrow [] w w.
Proof. unfold callsGrow. rewrite app_nil_r. reflexivity. Qed.

Lemma callsGrow_trans cs1 cs2 w1 w2 w3 :
  callsGrow cs1 w1 w2 -> callsGrow cs2 w2 w3 -> callsGrow (cs1 ++ cs2) w1 w3.
Proof.
  unfold callsGrow. intros H1 H2. rewrite H2, H1, app_assoc. reflexivity.
Qed.

(** C3: [sync] returns normally and leaves the world as it is when the
    service is disabled, and also when a sync is already in flight; when
    the service is enabled and idle but the git service was never
    initialised, it throws 'Git service not initialized' (and takes no
    lock). *)
Theorem sync_guards (w : World) :
  (isEnabled (svc w) = false -> SyncService.sync w = (Ok tt, w)) /\
  (isEnabled (svc w) = true -> isSyncing (svc w) = true ->
   SyncService.sync w = (Ok tt, w)) /\
  (isEnabled (svc w) = true -> isSyncing (svc w) = false ->
   initialized (git w) = false ->
   SyncService.sync w = (Err "Git service not initialized", w)).
Proof.
  unfold SyncService.sync, GitService.isInitialized, bind, gets.
  repeat split.
  - intros He. cbn beta. rewrite He. reflexivity.
  - intros He Hs. cbn beta. rewrite He; cbn. rewrite Hs. reflexivity.
  - intros He Hs Hi. cbn beta. rewrite He; cbn. rewrite Hs; cbn.
    rewrite Hi. reflexivity.
Qed.

Lemma sync_guards_witness :
  SyncService.sync (overrideFlags false false (idleWorld []))
    = (Ok tt, overrideFlags false false (idleWorld [])) /\
  SyncService.sync (overrideFlags true true (idleWorld []))
    = (Ok tt, overrideFlags true true (idleWorld [])) /\
  SyncService.sync (withGit (setInitialized false) (idleWorld []))
    = (Err "Git service not initialized",
       withGit (setInitialized false) (idleWorld [])).
Proof.
  split; [|split].
  - apply (proj1 (sync_guards _)). reflexivity.
  - apply (proj1 (proj2 (sync_guards _))); reflexivity.
  - apply (proj2 (proj2 (sync_guards _))); reflexivity.
Defined.

(** Past the guards [sync] is its body, run with the lock taken, and the
    release of the lock is scheduled whatever the body returns. *)
Lemma sync_unfold w :
  isEnabled (svc w) = true -> isSyncing (svc w) = false ->
  initialized (git w) = true ->
  SyncService.sync w =
    (fst (SyncService.syncBody (withSvc (setIsSyncing true) w)),
     SyncService.releaseSyncLockLater
       (snd (SyncService.syncBody (withSvc (setIsSyncing true) w)))).
Proof.
  intros He Hs Hi.
  unfold SyncService.sync, GitService.isInitialized, tryFinally, bind, gets.
  cbn beta. rewrite He; cbn. rewrite Hs; cbn. rewrite Hi; cbn.
  rewrite tryCatch_rethrow. unfold modify.
  destruct (SyncService.syncBody _) as [r w1]. reflexivity.
Qed.

Lemma syncBody_runs w :
  exists cs, callsGrow cs w (snd (SyncService.syncBody w)) /\
    (cs `prefix_of` pushRun \/ cs `prefix_of` pullRunUnchanged \/
     cs `prefix_of` pullRunChanged) /\
    (fst (SyncService.syncBody w) = Ok tt ->
     cs = pushRun \/ cs = pullRunUnchanged \/ cs = pullRunChanged).
Proof.
  unfold SyncService.syncBody, bind.
  pose proof (calls_hasChanges w) as H1.
  destruct (GitService.hasChanges w) as [[b|e] w1]; simpl.
  2:{ exists []. split; [exact H1|]. split; [|discriminate].
      left. apply prefix_nil. }
  destruct b.
  - (* local changes: mirror, write the snapshot, push *)
    pose proof (calls_copyFilesToWorkingDir w1) as H2.
    destruct (SyncService.copyFilesToWorkingDir w1) as [[[]|e] w2]; simpl in *.
    2:{ exists [CHasChanges true; CCopyToWorking].
        split; [apply (callsGrow_trans _ _ _ _ _ H1 H2)|].
        split; [|discriminate]. left. by exists [CPushExtensions; CGitPush]. }
    pose proof (calls_pushExtensions w2) as H3.
    destruct (ExtensionService.pushExtensions w2) as [[[]|e] w3]; simpl in *.
    2:{ exists [CHasChanges true; CCopyToWorking; CPushExtensions].
        split; [apply (callsGrow_trans _ _ _ _ _
                        (callsGrow_trans _ _ _ _ _ H1 H2) H3)|].
        split; [|discriminate]. left. by exists [CGitPush]. }
    pose proof (calls_push w3) as H4.
    exists pushRun. split.
    + apply (callsGrow_trans _ _ _ _ _
               (callsGrow_trans _ _ _ _ _
                 (callsGrow_trans _ _ _ _ _ H1 H2) H3) H4).
    + split; [left; reflexivity | intros _; left; reflexivity].
  - (* no local changes: pull, then look again *)
    pose proof (calls_pull w1) as H2.
    destruct (GitService.pull w1) as [[[]|e] w2]; simpl in *.
    2:{ exists [CHasChanges false; CGitPull].
        split; [apply (callsGrow_trans _ _ _ _ _ H1 H2)|].
        split; [|discriminate].
        right; left. by exists [CHasChanges false]. }
    pose proof (calls_hasChanges w2) as H3.
    destruct (GitService.hasChanges w2) as [[b|e] w3]; simpl in *.
    2:{ exists [CHasChanges false; CGitPull].
        split; [apply (callsGrow_trans _ _ _ _ _
                        (callsGrow_trans _ _ _ _ _ H1 H2) H3)|].
        split; [|discriminate].
        right; left. by exists [CHasChanges false]. }
    destruct b; simpl.
    + pose proof (calls_copyFilesFromWorkingDir w3) as H4.
      destruct (SyncService.copyFilesFromWorkingDir w3) as [[[]|e] w4];
        simpl in *.
      2:{ exists [CHasChanges false; CGitPull; CHasChanges true;
                  CCopyFromWorking].
          split; [apply (callsGrow_trans _ _ _ _ _
                          (callsGrow_trans _ _ _ _ _
                            (callsGrow_trans _ _ _ _ _ H1 H2) H3) H4)|].
          split; [|discriminate].
          right; right. by exists [CPullExtensions]. }
      pose proof (calls_pullExtensions w4) as H5.
      exists pullRunChanged. split.
      * apply (callsGrow_trans _ _ _ _ _
                 (callsGrow_trans _ _ _ _ _
                   (callsGrow_trans _ _ _ _ _
                     (callsGrow_trans _ _ _ _ _ H1 H2) H3) H4) H5).
      * split; [right; right; reflexivity | intros _; right; right; reflexivity].
    + exists pullRunUnchanged. split.
      * apply (callsGrow_trans _ _ _ _ _
                 (callsGrow_trans _ _ _ _ _ H1 H2) H3).
      * split; [right; left; reflexivity | intros _; right; left; reflexivity].
Qed.


(** ** The force operations do not look at the guards *)

Section BlindLemmas.
Context (g : World -> World).

Lemma blind_ret {A} (a : A) : Blind g (ret a).
Proof. intros w. reflexivity. Qed.

Lemma blind_throw {A} (e : string) : Blind g (@throw A e).
Proof. intros w. reflexivity. Qed.

Lemma blind_gets {A} (f : World -> A) :
  (forall w, f (g w) = f w) -> Blind g (gets f).
Proof. intros H w. unfold gets. rewrite H. reflexivity. Qed.

Lemma blind_modify (f : World -> World) :
  (forall w, f (g w) = g (f w)) -> Blind g (modify f).
Proof. intros H w. unfold modify. rewrite H. reflexivity. Qed.

Lemma blind_bind {A B} (m : M A) (k : A -> M B) :
  Blind g m -> (forall a, Blind g (k a)) -> Blind g (bind m k).
Proof.
  intros Hm Hk w. unfold bind. rewrite Hm.
  destruct (m w) as [[a|e] w1]; simpl; [apply Hk | reflexivity].
Qed.

Lemma blind_tryCatch {A} (m : M A) (h : string -> M A) :
  Blind g m -> (forall e, Blind g (h e)) -> Blind g (tryCatch m h).
Proof.
  intros Hm Hh w. unfold tryCatch. rewrite Hm.
  destruct (m w) as [[a|e] w1]; simpl; [reflexivity | apply Hh].
Qed.

Lemma blind_tryFinally {A} (m : M A) (f : World -> World) :
  Blind g m -> (forall w, f (g w) = g (f w)) -> Blind g (tryFinally m f).
Proof.
  intros Hm Hf w. unfold tryFinally. rewrite Hm.
  destruct (m w) as [r w1]; simpl. rewrite Hf. reflexivity.
Qed.

Lemma blind_forEach {A} (l : list A) (body : A -> M unit) :
  (forall x, Blind g (body x)) -> Blind g (forEach l body).
Proof.
  intros Hb. induction l as [|x l IH]; simpl.
  - apply blind_ret.
  - apply blind_bind; [apply Hb | intros _; exact IH].
Qed.
End BlindLemmas.

Lemma blind_ask e s q : Blind (overrideFlags e s) (ask q).
Proof. intros w. reflexivity. Qed.

Create HintDb blind.
#[global] Hint Resolve blind_ask : blind.

Ltac blind :=
  repeat (intros;
    lazymatch goal with
    | |- Blind _ (bind _ _) => apply blind_bind
    | |- Blind _ (ret _) => apply blind_ret
    | |- Blind _ (throw _) => apply blind_throw
    | |- Blind _ (gets _) => apply blind_gets; reflexivity
    | |- Blind _ (emit _) => apply blind_modify; reflexivity
    | |- Blind _ (modify _) => apply blind_modify; reflexivity
    | |- Blind _ (tryCatch _ _) => apply blind_tryCatch
    | |- Blind _ (tryFinally _ _) => apply blind_tryFinally; [|reflexivity]
    | |- Blind _ (forEach _ _) => apply blind_forEach
    | |- Blind _ (if ?b then _ else _) => destruct b
    | |- Blind _ (match ?x with _ => _ end) => destruct x
    | |- Blind _ _ => solve [eauto with blind]
    end).

Section BlindServices.
Context (e s : bool).
Local Abbreviation g := (overrideFlags e s).

Lemma blind_gitCmd c : Blind g (GitService.gitCmd c).
Proof.
  unfold GitService.gitCmd. blind.
  destruct c; unfold GitService.effect; blind.
Qed.
Hint Resolve blind_gitCmd : blind.

Lemma blind_forcePush : Blind g GitService.forcePush.
Proof.
  unfold GitService.forcePush, GitService.isInitialized, config. blind.
Qed.

Lemma blind_forcePull : Blind g GitService.forcePull.
Proof. unfold GitService.forcePull. blind. Qed.

Lemma blind_copyFile a b : Blind g (SyncService.copyFile a b).
Proof. unfold SyncService.copyFile. blind. Qed.
Hint Resolve blind_copyFile : blind.

Lemma blind_copyFilesToWorkingDir : Blind g SyncService.copyFilesToWorkingDir.
Proof.
  unfold SyncService.copyFilesToWorkingDir, GitService.getWorkingDirectory,
    SyncService.getUserSettingsPath, config.
  blind.
Qed.

Lemma blind_copyFilesFromWorkingDir :
  Blind g SyncService.copyFilesFromWorkingDir.
Proof.
  unfold SyncService.copyFilesFromWorkingDir, SyncService.mirrorToLive,
    GitService.getWorkingDirectory, SyncService.getUserSettingsPath, config.
  blind.
Qed.

Lemma blind_pushExtensions : Blind g ExtensionService.pushExtensions.
Proof.
  unfold ExtensionService.pushExtensions,
    ExtensionService.saveExtensionsToFile,
    ExtensionService.getCurrentExtensions, config.
  blind.
Qed.

Lemma blind_pullExtensions : Blind g ExtensionService.pullExtensions.
Proof.
  unfold ExtensionService.pullExtensions,
    ExtensionService.readSyncedExtensions,
    ExtensionService.installMissingExtensions,
    ExtensionService.removeExtraExtensions,
    ExtensionService.installExtension,
    ExtensionService.uninstallExtension, config.
  blind.
Qed.

Lemma blind_sync_forcePush : Blind g SyncService.forcePush.
Proof.
  unfold SyncService.forcePush.
  pose proof blind_copyFilesToWorkingDir.
  pose proof blind_pushExtensions.
  pose proof blind_forcePush.
  blind.
Qed.

Lemma blind_sync_forcePull : Blind g SyncService.forcePull.
Proof.
  unfold SyncService.forcePull.
  pose proof blind_copyFilesFromWorkingDir.
  pose proof blind_pullExtensions.
  pose proof blind_forcePull.
  blind.
Qed.
End BlindServices.

Lemma forcePush_runs w :
  exists cs, callsGrow cs w (snd (SyncService.forcePush w)) /\
    cs `prefix_of` forcePushRun /\
    (fst (SyncService.forcePush w) = Ok tt -> cs = forcePushRun).
Proof.
  unfold SyncService.forcePush, tryCatch, bind.
  pose proof (calls_copyFilesToWorkingDir w) as H1.
  destruct (SyncService.copyFilesToWorkingDir w) as [[[]|e1] w1]; simpl in *.
  2:{ exists [CCopyToWorking]. unfold callsGrow in *; simpl.
      rewrite callsOf_app, H1; simpl. rewrite app_nil_r.
      split; [reflexivity|]. split; [|discriminate].
      by exists [CPushExtensions; CGitForcePush]. }
  pose proof (calls_pushExtensions w1) as H2.
  destruct (ExtensionService.pushExtensions w1) as [[[]|e2] w2]; simpl in *.
  2:{ exists [CCopyToWorking; CPushExtensions]. unfold callsGrow in *; simpl.
      rewrite callsOf_app, H2, H1; simpl. rewrite app_nil_r, <- app_assoc.
      split; [reflexivity|]. split; [|discriminate].
      by exists [CGitForcePush]. }
  pose proof (calls_forcePush w2) as H3.
  destruct (GitService.forcePush w2) as [[[]|e3] w3]; simpl in *.
  - exists forcePushRun. unfold callsGrow in *.
    rewrite H3, H2, H1, <- !app_assoc. by repeat split.
  - exists forcePushRun. unfold callsGrow in *; simpl.
    rewrite callsOf_app, H3, H2, H1; simpl. rewrite app_nil_r, <- !app_assoc.
    by repeat split.
Qed.

Lemma forcePull_runs w :
  exists cs, callsGrow cs w (snd (SyncService.forcePull w)) /\
    cs `prefix_of` forcePullRun /\
    (fst (SyncService.forcePull w) = Ok tt -> cs = forcePullRun).
Proof.
  unfold SyncService.forcePull, tryCatch, bind.
  pose proof (calls_forcePull w) as H1.
  destruct (GitService.forcePull w) as [[[]|e1] w1]; simpl in *.
  2:{ exists [CGitForcePull]. unfold callsGrow in *; simpl.
      rewrite callsOf_app, H1; simpl. rewrite app_nil_r.
      split; [reflexivity|]. split; [|discriminate].
      by exists [CCopyFromWorking; CPullExtensions]. }
  pose proof (calls_copyFilesFromWorkingDir w1) as H2.
  destruct (SyncService.copyFilesFromWorkingDir w1) as [[[]|e2] w2]; simpl in *.
  2:{ exists [CGitForcePull; CCopyFromWorking]. unfold callsGrow in *; simpl.
      rewrite callsOf_app, H2, H1; simpl. rewrite app_nil_r, <- app_assoc.
      split; [reflexivity|]. split; [|discriminate].
      by exists [CPullExtensions]. }
  pose proof (calls_pullExtensions w2) as H3.
  destruct (ExtensionService.pullExtensions w2) as [[[]|e3] w3]; simpl in *.
  - exists forcePullRun. unfold callsGrow in *.
    rewrite H3, H2, H1, <- !app_assoc. by repeat split.
  - exists forcePullRun. unfold callsGrow in *; simpl.
    rewrite callsOf_app, H3, H2, H1; simpl. rewrite app_nil_r, <- !app_assoc.
    by repeat split.
Qed.

(** The only check on the way: the git service refuses to force push or
    force pull before it is initialised, and sends no command. *)
Lemma git_force_needs_initialized w :
  initialized (git w) = false ->
  GitService.forcePush w
    = (Err "Git service not initialized",
       snd (emit (ObsCall CGitForcePush) w)) /\
  GitService.forcePull w
    = (Err "Git service not initialized",
       snd (emit (ObsCall CGitForcePull) w)).
Proof.
  intros Hi.
  unfold GitService.forcePush, GitService.forcePull, GitService.isInitialized,
    bind, gets, emit, modify; simpl.
  rewrite Hi. split; reflexivity.
Qed.


(** ** Calm methods *)

#[global] Instance calm_preorder : PreOrder calm.
Proof.
  split.
  - intros w. repeat split. exists []. rewrite app_nil_r. by split.
  - intros a b c (Ht1 & Hc1 & Hn1 & l1 & Hl1 & Hr1) (Ht2 & Hc2 & Hn2 & l2 & Hl2 & Hr2).
    repeat split; try congruence.
    exists (l1 ++ l2). split.
    + rewrite Hl2, Hl1, app_assoc. reflexivity.
    + apply Forall_app. by split.
Qed.

Lemma quiet_calm {A} (m : M A) : Steps quiet m -> Steps calm m.
Proof.
  intros H w. specialize (H w). unfold quiet, control in H.
  injection H as _ Ht _ Hn Hc _ _ Htr.
  repeat split; try assumption.
  exists []. rewrite app_nil_r. by split.
Qed.

Lemma calm_emit_call c : Steps calm (emit (ObsCall c)).
Proof.
  intros w. unfold calm, emit, modify, withHost, setTrace.
  cbn [snd host trace timers cfg now]. split; [|repeat split].
  - rewrite triggersOf_app; simpl. apply app_nil_r.
  - exists []. rewrite app_nil_r. by split.
Qed.

Lemma calm_withSvc f : Steps calm (modify (withSvc f)).
Proof.
  intros w. repeat split. exists []. rewrite app_nil_r. by split.
Qed.

Lemma calm_release_remote w : calm w (SyncService.releaseRemoteLockLater w).
Proof.
  repeat split. eexists. split; [reflexivity|].
  constructor; [|constructor]. right. reflexivity.
Qed.

Lemma calm_release_sync w : calm w (SyncService.releaseSyncLockLater w).
Proof.
  repeat split. eexists. split; [reflexivity|].
  constructor; [|constructor]. left. reflexivity.
Qed.

Create HintDb calm.
#[global] Hint Resolve calm_emit_call calm_withSvc : calm.

Ltac calm :=
  steps_with ltac:(first
    [ solve [eauto with calm]
    | apply quiet_calm; solve [eauto with quiet]
    | apply steps_tryFinally;
        [typeclasses eauto | | first [apply calm_release_remote
                                     | apply calm_release_sync]] ]).

Lemma calm_hasChanges : Steps calm GitService.hasChanges.
Proof. unfold GitService.hasChanges. calm. Qed.

Lemma calm_pull : Steps calm GitService.pull.
Proof. unfold GitService.pull. calm. Qed.

Lemma calm_push : Steps calm GitService.push.
Proof. unfold GitService.push, GitService.isInitialized, config. calm. Qed.

Lemma calm_copyFilesToWorkingDir : Steps calm SyncService.copyFilesToWorkingDir.
Proof.
  unfold SyncService.copyFilesToWorkingDir, GitService.getWorkingDirectory,
    SyncService.getUserSettingsPath, config.
  calm.
Qed.

Lemma calm_copyFilesFromWorkingDir :
  Steps calm SyncService.copyFilesFromWorkingDir.
Proof.
  unfold SyncService.copyFilesFromWorkingDir, SyncService.mirrorToLive,
    GitService.getWorkingDirectory, SyncService.getUserSettingsPath, config.
  calm.
Qed.

Lemma calm_pushExtensions : Steps calm ExtensionService.pushExtensions.
Proof.
  unfold ExtensionService.pushExtensions,
    ExtensionService.getCurrentExtensions, config.
  calm.
Qed.

Lemma calm_pullExtensions : Steps calm ExtensionService.pullExtensions.
Proof. unfold ExtensionService.pullExtensions, config. calm. Qed.

#[global] Hint Resolve calm_hasChanges calm_pull calm_push
  calm_copyFilesToWorkingDir calm_copyFilesFromWorkingDir
  calm_pushExtensions calm_pullExtensions : calm.

Lemma calm_syncBody : Steps calm SyncService.syncBody.
Proof. unfold SyncService.syncBody. calm. Qed.
#[global] Hint Resolve calm_syncBody : calm.

Lemma calm_sync : Steps calm SyncService.sync.
Proof. unfold SyncService.sync, GitService.isInitialized. calm. Qed.
#[global] Hint Resolve calm_sync : calm.

Lemma calm_initialPull : Steps calm SyncService.initialPull.
Proof. unfold SyncService.initialPull. calm. Qed.

Lemma quiet_git_initialize : Steps quiet GitService.initialize.
Proof. unfold GitService.initialize, config. quiet. Qed.

(** ** Start-up *)

#[global] Instance svcOnly_preorder : PreOrder svcOnly.
Proof.
  split.
  - intros w. by split.
  - intros a b c [H1 H2] [H3 H4]. split; congruence.
Qed.

Lemma svcOnly_withSvc f : Steps svcOnly (modify (withSvc f)).
Proof. intros w. by split. Qed.

Lemma swallow_ok (m : M unit) w : fst (tryCatch m (fun _ => ret tt) w) = Ok tt.
Proof. unfold tryCatch, ret. by destruct (m w) as [[[]|e] w1]. Qed.

Lemma watchExternal_ok c x w : fst (SyncService.watchExternal c x w) = Ok tt.
Proof. apply swallow_ok. Qed.

Lemma watchExternal_adds c x w :
  DirWatcher (expandHome c (source x))
    ∈ watchers (svc (snd (SyncService.watchExternal c x w))).
Proof.
  unfold SyncService.watchExternal, tryCatch, bind, gets, modify; simpl.
  apply elem_of_app. right. apply list_elem_of_here.
Qed.

Lemma watchExternal_keeps c x w o :
  o ∈ watchers (svc w) ->
  o ∈ watchers (svc (snd (SyncService.watchExternal c x w))).
Proof.
  intros Ho. unfold SyncService.watchExternal, tryCatch, bind, gets, modify.
  simpl. apply elem_of_app.
  destruct (decide (o = DirWatcher (expandHome c (source x)))) as [->|Hne].
  - right. apply list_elem_of_here.
  - left. apply list_elem_of_In, filter_In. split.
    + by apply list_elem_of_In.
    + rewrite bool_decide_eq_false_2; done.
Qed.

Lemma watchAll_ok c l w :
  fst (forEach l (SyncService.watchExternal c) w) = Ok tt.
Proof.
  revert w. induction l as [|x l IH]; intros w; simpl; [reflexivity|].
  unfold bind. pose proof (watchExternal_ok c x w) as H.
  destruct (SyncService.watchExternal c x w) as [[[]|e] w1]; simpl in *.
  - apply IH.
  - discriminate.
Qed.

Lemma watchAll_keeps c l w o :
  o ∈ watchers (svc w) ->
  o ∈ watchers (svc (snd (forEach l (SyncService.watchExternal c) w))).
Proof.
  revert w. induction l as [|x l IH]; intros w Ho; simpl; [exact Ho|].
  unfold bind. pose proof (watchExternal_ok c x w) as H.
  pose proof (watchExternal_keeps c x w o Ho) as Hk.
  destruct (SyncService.watchExternal c x w) as [[[]|e] w1]; simpl in *.
  - by apply IH.
  - discriminate.
Qed.

Lemma watchAll_adds c l w x :
  x ∈ l ->
  DirWatcher (expandHome c (source x))
    ∈ watchers (svc (snd (forEach l (SyncService.watchExternal c) w))).
Proof.
  revert w. induction l as [|y l IH]; intros w Hx; [by inversion Hx|].
  simpl. unfold bind. pose proof (watchExternal_ok c y w) as H.
  pose proof (watchExternal_adds c y w) as Ha.
  destruct (SyncService.watchExternal c y w) as [[[]|e] w1]; simpl in *;
    [|discriminate].
  apply elem_of_cons in Hx as [->|Hx].
  - by apply watchAll_keeps.
  - by apply IH.
Qed.

(** The loop over the glob patterns of setupFileWatcher. *)
Lemma watchPatterns_spec l w :
  let body := fun pattern : string =>
    tryCatch
      (modify (withSvc (fun s =>
         setWatchers (watchers s ++ [PatternWatcher pattern]) s)))
      (fun _ => ret tt) in
  fst (forEach l body w) = Ok tt /\
  forall p, p ∈ l -> PatternWatcher p ∈ watchers (svc (snd (forEach l body w))).
Proof.
  intros body.
  assert (Hkeep : forall l w o, o ∈ watchers (svc w) ->
            o ∈ watchers (svc (snd (forEach l body w)))).
  { clear. intros l. induction l as [|y l IH]; intros w o Ho; simpl; [done|].
    unfold bind, body at 1, tryCatch, modify; simpl.
    apply IH; simpl. apply elem_of_app. by left. }
  revert w. induction l as [|y l IH]; intros w; simpl.
  - split; [reflexivity | intros p Hp; by inversion Hp].
  - unfold bind, body at 1 3, tryCatch, modify; simpl.
    destruct (IH (withSvc (fun s =>
      setWatchers (watchers s ++ [PatternWatcher y]) s) w)) as [Hok Hin].
    split; [exact Hok|].
    intros p Hp. apply elem_of_cons in Hp as [->|Hp].
    + apply Hkeep; simpl. apply elem_of_app. right. apply list_elem_of_here.
    + by apply Hin.
Qed.

Lemma svcOnly_setupFileWatcher : Steps svcOnly SyncService.setupFileWatcher.
Proof.
  unfold SyncService.setupFileWatcher, SyncService.watchExternal, config.
  steps_with ltac:(apply svcOnly_withSvc).
Qed.

Lemma setupFileWatcher_unfold w :
  SyncService.setupFileWatcher w =
    match files (cfg (host w)) with
    | None => (Ok tt, w)
    | Some fc =>
        (forEach (patterns fc) (fun pattern =>
           tryCatch
             (modify (withSvc (fun s =>
                setWatchers (watchers s ++ [PatternWatcher pattern]) s)))
             (fun _ => ret tt)) ;;
         forEach (externalFiles fc) (SyncService.watchExternal (cfg (host w))))
          (withSvc (setLastEventTime ∅) w)
    end.
Proof.
  unfold SyncService.setupFileWatcher, config, bind at 1, gets.
  destruct (files (cfg (host w))); reflexivity.
Qed.

Lemma setupFileWatcher_spec w :
  fst (SyncService.setupFileWatcher w) = Ok tt /\
  forall fc, files (cfg (host w)) = Some fc ->
    (forall p, p ∈ patterns fc ->
       PatternWatcher p
         ∈ watchers (svc (snd (SyncService.setupFileWatcher w)))) /\
    (forall x, x ∈ externalFiles fc ->
       DirWatcher (expandHome (cfg (host w)) (source x))
         ∈ watchers (svc (snd (SyncService.setupFileWatcher w)))).
Proof.
  rewrite setupFileWatcher_unfold.
  destruct (files (cfg (host w))) as [fc|] eqn:Hf.
  2:{ split; [reflexivity | intros fc; discriminate]. }
  set (w0 := withSvc (setLastEventTime ∅) w).
  unfold bind.
  destruct (watchPatterns_spec (patterns fc) w0) as [Hok Hin].
  cbv zeta in Hok, Hin.
  destruct (forEach (patterns fc) _ w0) as [[[]|e] w1] eqn:Hpat; simpl in *;
    [|discriminate].
  split; [apply watchAll_ok|].
  intros fc' Hfc'. injection Hfc' as <-. split.
  - intros p Hp. apply watchAll_keeps. by apply Hin.
  - intros x Hx. by apply watchAll_adds.
Qed.

(** The last three steps of initialize. *)
Lemma setup_tail w :
  exists w',
    (SyncService.setupPeriodicSync ;;
     SyncService.setupExtensionWatcher ;;
     modify (withSvc (setIsEnabled true))) w = (Ok tt, w') /\
    isEnabled (svc w') = true /\
    extensionWatcher (svc w') = true /\
    watchers (svc w') = watchers (svc w) /\
    exists handle,
      syncTimer (svc w') = Some handle /\
      periodicTimer (cfg (host w)) (now (host w)) handle ∈ timers (host w').
Proof.
  unfold SyncService.setupPeriodicSync, SyncService.setupExtensionWatcher,
    config, bind, gets, modify, setTimeout, clearTimeout.
  cbn beta. destruct (syncTimer (svc w)) as [old|]; cbn.
  - eexists. split; [reflexivity|]. cbn. repeat split.
    eexists. split; [reflexivity|].
    apply elem_of_app. right. apply list_elem_of_here.
  - eexists. split; [reflexivity|]. cbn. repeat split.
    eexists. split; [reflexivity|].
    apply elem_of_app. right. apply list_elem_of_here.
Qed.

(** C7: when the start-up pull of [initialize] fails (at the pull, at the
    mirror to the live directory or at the extension pull), the error is
    swallowed: [initialize] returns normally, with the file watchers of
    every configured pattern and external file set up, the periodic timer
    armed, the extension watcher registered and the service enabled. *)
Theorem initialize_swallows_startup_failure (w w0 w1 : World) (e : string) :
  GitService.initialize w = (Ok tt, w0) ->
  pullOnLaunch (cfg (host w)) = true ->
  SyncService.initialPull w0 = (Err e, w1) ->
  exists w',
    SyncService.initialize w = (Ok tt, w') /\
    isEnabled (svc w') = true /\
    extensionWatcher (svc w') = true /\
    (exists handle,
       syncTimer (svc w') = Some handle /\
       periodicTimer (cfg (host w)) (now (host w)) handle ∈ timers (host w')) /\
    (forall fc, files (cfg (host w)) = Some fc ->
       (forall p, p ∈ patterns fc -> PatternWatcher p ∈ watchers (svc w')) /\
       (forall x, x ∈ externalFiles fc ->
          DirWatcher (expandHome (cfg (host w)) (source x))
            ∈ watchers (svc w'))).
Proof.
  intros Hinit Hlaunch Hpull.
  pose proof (quiet_git_initialize w) as Hq0. rewrite Hinit in Hq0.
  unfold quiet, control in Hq0; simpl in Hq0.
  injection Hq0 as _ _ _ Hnow0 Hcfg0 _ _ _.
  pose proof (calm_initialPull w0) as Hc1. rewrite Hpull in Hc1.
  destruct Hc1 as (_ & Hcfg1 & Hnow1 & _). simpl in Hcfg1, Hnow1.
  destruct (setupFileWatcher_spec w1) as [Hfw Hwatch].
  pose proof (svcOnly_setupFileWatcher w1) as [Hhost _].
  destruct (SyncService.setupFileWatcher w1) as [r2 w2] eqn:Hsetup.
  simpl in Hfw, Hwatch, Hhost. subst r2.
  destruct (setup_tail w2) as (w' & Htail & Hen & Hext & Hws & handle & Hst & Htimer).
  exists w'. split.
  - unfold SyncService.initialize. unfold bind at 1. rewrite Hinit.
    unfold bind at 1, config, gets. cbn beta iota.
    rewrite Hcfg0, Hlaunch.
    unfold bind at 1, tryCatch. rewrite Hpull. unfold ret at 1.
    unfold bind at 1. rewrite Hsetup. exact Htail.
  - split; [exact Hen|]. split; [exact Hext|]. split.
    + exists handle. split; [exact Hst|].
      rewrite Hhost, Hcfg1, Hnow1, Hcfg0, Hnow0 in Htimer. exact Htimer.
    + intros fc Hfc. rewrite Hws.
      rewrite <- Hcfg0, <- Hcfg1 in Hfc |- *. by apply Hwatch.
Qed.

Lemma initialize_swallows_startup_failure_witness :
  (exists w',
     SyncService.initialize (startWorld ∅ [(OGit PullRebase, [false])])
       = (Ok tt, w') /\ isEnabled (svc w') = true) /\
  (exists w',
     SyncService.initialize
       (startWorld (<["/home/u/settings-sync/settings.json" := Raw "{}"]> ∅)
          [(TreeDirty, [true]); (CopyIO, [false])])
       = (Ok tt, w') /\ isEnabled (svc w') = true) /\
  (exists w',
     SyncService.initialize
       (startWorld (<["/home/u/settings-sync/extensions.json" := Raw "<<<"]> ∅)
          [(TreeDirty, [true])])
       = (Ok tt, w') /\ isEnabled (svc w') = true).
Proof.
  split; [|split].
  - destruct (initialize_swallows_startup_failure
      (startWorld ∅ [(OGit PullRebase, [false])])
      (snd (GitService.initialize (startWorld ∅ [(OGit PullRebase, [false])])))
      (snd (SyncService.initialPull
         (snd (GitService.initialize
            (startWorld ∅ [(OGit PullRebase, [false])])))))
      "Failed to pull changes: git pull --rebase failed")
      as (w' & H & He & _); [vm_compute; reflexivity | reflexivity
                             | vm_compute; reflexivity |].
    exists w'. by split.
  - set (W := startWorld
      (<["/home/u/settings-sync/settings.json" := Raw "{}"]> ∅)
      [(TreeDirty, [true]); (CopyIO, [false])]).
    destruct (initialize_swallows_startup_failure W
      (snd (GitService.initialize W))
      (snd (SyncService.initialPull (snd (GitService.initialize W))))
      "Failed to copy file /home/u/settings-sync/settings.json to /home/u/.config/Code/User/settings.json: EACCES: permission denied")
      as (w' & H & He & _); [vm_compute; reflexivity | reflexivity
                             | vm_compute; reflexivity |].
    exists w'. by split.
  - set (W := startWorld
      (<["/home/u/settings-sync/extensions.json" := Raw "<<<"]> ∅)
      [(TreeDirty, [true])]).
    destruct (initialize_swallows_startup_failure W
      (snd (GitService.initialize W))
      (snd (SyncService.initialPull (snd (GitService.initialize W))))
      "SyntaxError: unexpected token in JSON")
      as (w' & H & He & _); [vm_compute; reflexivity | reflexivity
                             | vm_compute; reflexivity |].
    exists w'. by split.
Defined.

(** ** The remote-changes lock *)

#[global] Instance steady_preorder : PreOrder steady.
Proof.
  split.
  - intros w. by repeat split.
  - intros a b c (H1 & H2 & H3 & H4) (H5 & H6 & H7 & H8).
    repeat split; congruence.
Qed.

Lemma quiet_steady {A} (m : M A) : Steps quiet m -> Steps steady m.
Proof.
  intros H w. specialize (H w). unfold quiet, control in H.
  injection H as Hs Ht Hn Hnow _ _ _ _. by repeat split.
Qed.

Lemma steady_emit o : Steps steady (emit o).
Proof. intros w. by repeat split. Qed.

Ltac steady :=
  steps_with ltac:(first
    [ apply steady_emit
    | apply quiet_steady; solve [eauto with quiet] ]).

Lemma steady_mirrorToLive : Steps steady SyncService.mirrorToLive.
Proof.
  unfold SyncService.mirrorToLive, GitService.getWorkingDirectory,
    SyncService.getUserSettingsPath, config.
  steady.
Qed.

(** [copyFilesFromWorkingDir] takes the lock before the mirror and leaves it
    taken, whatever the mirror returns; the release is the last timer set,
    one second ahead. *)
Lemma copyFilesFromWorkingDir_locks w :
  let w' := snd (SyncService.copyFilesFromWorkingDir w) in
  isApplyingRemoteChanges (svc w') = true /\
  timers (host w') =
    timers (host w)
      ++ [releaseTimer ReleaseRemoteLock (now (host w)) (nextTimer (host w))].
Proof.
  unfold SyncService.copyFilesFromWorkingDir, bind, modify, tryFinally.
  cbn beta iota.
  pose proof (steady_mirrorToLive
                (withSvc (setIsApplyingRemoteChanges true) w)) as Hs.
  destruct (SyncService.mirrorToLive _) as [r w1].
  destruct Hs as (Hsvc & Htimers & Hnext & Hnow). simpl in *.
  unfold SyncService.releaseRemoteLockLater, setTimeout, releaseTimer. simpl.
  rewrite Hsvc, Htimers, Hnext, Hnow. by split.
Qed.

Lemma handleFileChange_guarded path w :
  negb (isEnabled (svc w)) || isSyncing (svc w)
    || isApplyingRemoteChanges (svc w) = true ->
  SyncService.handleFileChange path w = (Ok tt, w).
Proof.
  intros H. unfold SyncService.handleFileChange, bind, gets. cbn beta iota.
  rewrite H. reflexivity.
Qed.

Lemma handleFileEvent_guarded path w :
  negb (isEnabled (svc w)) || isSyncing (svc w)
    || isApplyingRemoteChanges (svc w) = true ->
  let w' := snd (SyncService.handleFileEvent path w) in
  host w' = host w /\ git w' = git w /\
  debounceTimer (svc w') = debounceTimer (svc w) /\
  syncTimer (svc w') = syncTimer (svc w).
Proof.
  intros H. unfold SyncService.handleFileEvent, bind, gets, modify.
  cbn beta iota.
  destruct (_ <? _); [by repeat split|].
  rewrite handleFileChange_guarded by exact H. by repeat split.
Qed.

Lemma earliest_In l t : earliest l = Some t -> t ∈ l.
Proof.
  revert t. induction l as [|u l IH]; intros t; simpl; [discriminate|].
  destruct (earliest l) as [v|].
  - destruct (due v <? due u); intros [= <-].
    + apply elem_of_cons. right. by apply IH.
    + apply list_elem_of_here.
  - intros [= <-]. apply list_elem_of_here.
Qed.

(** With no timer due, the event loop only moves the clock. *)
Lemma advance_idle fuel until w :
  (forall u, u ∈ timers (host w) -> until < due u) ->
  advance fuel until w = withHost (setNow (Z.max (now (host w)) until)) w.
Proof.
  intros H. destruct fuel; simpl.
  - destruct (earliest (timers (host w))) as [t|] eqn:He; [|reflexivity].
    apply earliest_In, H in He.
    destruct (due t <=? until) eqn:Hd; [lia | reflexivity].
  - destruct (earliest (timers (host w))) as [t|] eqn:He; [|reflexivity].
    apply earliest_In, H in He.
    destruct (due t <=? until) eqn:Hd; [lia | reflexivity].
Qed.

(** C2: while [isApplyingRemoteChanges] is set, the change handler drops
    the event: [handleFileChange] returns with the world as it was, so that
    no debounce timer is set and nothing runs; through [handleFileEvent]
    only the time of the last event may be noted.  The flag is set by
    [copyFilesFromWorkingDir] before it mirrors, is still set when it
    returns or throws, and is released by a timer one second later: an
    event that arrives before that timer expires leaves the timer table,
    the debounce handle and the trace as they were. *)
Theorem remote_lock_drops_events (w : World) (path : string) :
  (isApplyingRemoteChanges (svc w) = true ->
   SyncService.handleFileChange path w = (Ok tt, w) /\
   host (snd (SyncService.handleFileEvent path w)) = host w /\
   debounceTimer (svc (snd (SyncService.handleFileEvent path w)))
     = debounceTimer (svc w)) /\
  (let w1 := snd (SyncService.copyFilesFromWorkingDir w) in
   isApplyingRemoteChanges (svc w1) = true /\
   timers (host w1) =
     timers (host w)
       ++ [releaseTimer ReleaseRemoteLock (now (host w)) (nextTimer (host w))] /\
   forall fuel t,
     (forall u, u ∈ timers (host w) -> t < due u) ->
     t < now (host w) + 1000 ->
     let w2 := fileEventAt fuel path t w1 in
     timers (host w2) = timers (host w1) /\
     debounceTimer (svc w2) = debounceTimer (svc w1) /\
     trace (host w2) = trace (host w1)).
Proof.
  split.
  - intros Hflag.
    assert (Hg : negb (isEnabled (svc w)) || isSyncing (svc w)
                 || isApplyingRemoteChanges (svc w) = true).
    { rewrite Hflag. apply orb_true_r. }
    split; [by apply handleFileChange_guarded|].
    destruct (handleFileEvent_guarded path w Hg) as (Hh & _ & Hd & _).
    by split.
  - cbv zeta. destruct (copyFilesFromWorkingDir_locks w) as [Hflag Htimers].
    split; [exact Hflag|]. split; [exact Htimers|].
    intros fuel t Hdue Ht.
    set (w1 := snd (SyncService.copyFilesFromWorkingDir w)) in *.
    unfold fileEventAt. rewrite advance_idle.
    2:{ intros u Hu. rewrite Htimers in Hu.
        apply elem_of_app in Hu as [Hu|Hu]; [by apply Hdue|].
        apply list_elem_of_singleton in Hu as ->. simpl. lia. }
    set (w1' := withHost _ w1).
    assert (Hg : negb (isEnabled (svc w1')) || isSyncing (svc w1')
                 || isApplyingRemoteChanges (svc w1') = true).
    { subst w1'. simpl. rewrite Hflag. apply orb_true_r. }
    destruct (handleFileEvent_guarded path w1' Hg) as (Hh & _ & Hd & _).
    rewrite Hh, Hd. subst w1'. by repeat split.
Qed.

Lemma remote_lock_drops_events_witness :
  SyncService.handleFileChange "/home/u/.config/Code/User/settings.json"
    (withSvc (setIsApplyingRemoteChanges true) (idleWorld []))
  = (Ok tt, withSvc (setIsApplyingRemoteChanges true) (idleWorld [])) /\
  timers (host (fileEventAt 5 "/home/u/.config/Code/User/settings.json" 600
     (snd (SyncService.copyFilesFromWorkingDir (idleWorld [])))))
  = timers (host (snd (SyncService.copyFilesFromWorkingDir (idleWorld [])))).
Proof.
  split.
  - apply (proj1 (remote_lock_drops_events
      (withSvc (setIsApplyingRemoteChanges true) (idleWorld []))
      "/home/u/.config/Code/User/settings.json")).
    reflexivity.
  - apply (proj2 (remote_lock_drops_events (idleWorld [])
      "/home/u/.config/Code/User/settings.json")).
    + intros u Hu. simpl in Hu. by inversion Hu.
    + simpl. lia.
Defined.

(** ** Reconciling the extensions *)

Lemma installsOf_app l1 l2 : installsOf (l1 ++ l2) = installsOf l1 ++ installsOf l2.
Proof. unfold installsOf. apply omap_app. Qed.

Lemma uninstallsOf_app l1 l2 :
  uninstallsOf (l1 ++ l2) = uninstallsOf l1 ++ uninstallsOf l2.
Proof. unfold uninstallsOf. apply omap_app. Qed.

Lemma installsOf_installs (l : list string) : installsOf (map ObsInstall l) = l.
Proof. induction l as [|x l IH]; [reflexivity|]. cbn. by rewrite <- IH at 2. Qed.

Lemma uninstallsOf_installs (l : list string) :
  uninstallsOf (map ObsInstall l) = [].
Proof. induction l as [|x l IH]; [reflexivity|]. exact IH. Qed.

Lemma uninstallsOf_uninstalls (l : list string) :
  uninstallsOf (map ObsUninstall l) = l.
Proof. induction l as [|x l IH]; [reflexivity|]. cbn. by rewrite <- IH at 2. Qed.

Lemma installsOf_uninstalls (l : list string) :
  installsOf (map ObsUninstall l) = [].
Proof. induction l as [|x l IH]; [reflexivity|]. exact IH. Qed.

(** One turn of the install loop: the command is recorded, a failure is
    caught, and the host lists the extension when it did install it. *)
Lemma install_step x w :
  exists w1,
    tryCatch (ExtensionService.installExtension x) (fun _ => ret tt) w
      = (Ok tt, w1) /\
    trace (host w1) = trace (host w) ++ [ObsInstall x] /\
    cfg (host w1) = cfg (host w) /\
    fs (host w1) = fs (host w) /\
    (extensionsAll (host w1) = extensionsAll (host w) \/
     extensionsAll (host w1) =
       extensionsAll (host w)
         ++ [{| hx_id := x; hx_version := ""; isBuiltin := false |}]).
Proof.
  unfold tryCatch, ExtensionService.installExtension, bind, emit, modify, ask.
  cbn beta iota. cbn [host withHost setTrace answers].
  destruct (hd true (answers (host w) InstallCmd)); cbn;
    eexists; (split; [reflexivity|]); cbn; repeat split; auto.
Qed.

(** The install loop goes through the whole list, whatever the host
    answers. *)
Lemma install_loop l w :
  exists w',
    forEach l (fun ext : ExtensionInfo =>
      tryCatch (ExtensionService.installExtension (id ext))
               (fun _ => ret tt)) w = (Ok tt, w') /\
    trace (host w') = trace (host w) ++ map ObsInstall (map id l) /\
    cfg (host w') = cfg (host w) /\
    fs (host w') = fs (host w) /\
    exists added,
      extensionsAll (host w') = extensionsAll (host w) ++ added /\
      Forall (fun h => hx_id h ∈ map id l /\ isBuiltin h = false) added.
Proof.
  revert w. induction l as [|x l IH]; intros w.
  - exists w. simpl. rewrite !app_nil_r. repeat split. exists [].
    rewrite app_nil_r. by split.
  - destruct (install_step (id x) w) as (w1 & Hstep & Htr1 & Hcfg1 & Hfs1 & Hall1).
    destruct (IH w1) as (w' & Hloop & Htr & Hcfg & Hfs & added & Hall & Hadd).
    exists w'. simpl. unfold bind. rewrite Hstep. split; [exact Hloop|].
    rewrite Htr, Htr1, Hcfg, Hcfg1, Hfs, Hfs1, Hall, <- app_assoc.
    repeat split.
    assert (Hadd' : Forall (fun h => hx_id h ∈ id x :: map id l
                                     /\ isBuiltin h = false) added).
    { eapply Forall_impl; [exact Hadd|]. intros h [H1 H2]. split; [|exact H2].
      apply elem_of_cons. by right. }
    destruct Hall1 as [->| ->].
    + by exists added.
    + eexists. rewrite <- app_assoc. split; [reflexivity|].
      constructor; [|exact Hadd'].
      split; [apply list_elem_of_here | reflexivity].
Qed.

Lemma uninstall_step x w :
  exists w1,
    tryCatch (ExtensionService.uninstallExtension x) (fun _ => ret tt) w
      = (Ok tt, w1) /\
    trace (host w1) = trace (host w) ++ [ObsUninstall x].
Proof.
  unfold tryCatch, ExtensionService.uninstallExtension, bind, emit, modify, ask.
  cbn beta iota. cbn [host withHost setTrace answers].
  destruct (hd true (answers (host w) UninstallCmd)); cbn;
    eexists; (split; [reflexivity|]); reflexivity.
Qed.

(** So does the removal loop. *)
Lemma uninstall_loop (l : list HostExtension) w :
  exists w',
    forEach l (fun ext : HostExtension =>
      tryCatch (ExtensionService.uninstallExtension (hx_id ext))
               (fun _ => ret tt)) w = (Ok tt, w') /\
    trace (host w') = trace (host w) ++ map ObsUninstall (map hx_id l).
Proof.
  revert w. induction l as [|x l IH]; intros w.
  - exists w. simpl. rewrite app_nil_r. by split.
  - destruct (uninstall_step (hx_id x) w) as (w1 & Hstep & Htr1).
    destruct (IH w1) as (w' & Hloop & Htr).
    exists w'. simpl. unfold bind. rewrite Hstep. split; [exact Hloop|].
    rewrite Htr, Htr1, <- app_assoc. reflexivity.
Qed.

Lemma installMissingExtensions_spec synced w :
  exists w',
    ExtensionService.installMissingExtensions synced w = (Ok tt, w') /\
    trace (host w') =
      trace (host w)
        ++ map ObsInstall
             (map id (ExtensionService.extensionsToInstall
                        (extensionsAll (host w)) synced)) /\
    cfg (host w') = cfg (host w) /\
    fs (host w') = fs (host w) /\
    exists added,
      extensionsAll (host w') = extensionsAll (host w) ++ added /\
      Forall (fun h => hx_id h ∈ map id synced /\ isBuiltin h = false) added.
Proof.
  unfold ExtensionService.installMissingExtensions, bind at 1, gets.
  cbn beta iota zeta.
  set (todo := ExtensionService.extensionsToInstall _ synced).
  assert (Hsub : forall x, x ∈ map id todo -> x ∈ map id synced).
  { intros x Hx. apply list_elem_of_In, in_map_iff in Hx as (e & <- & He).
    apply filter_In in He as [He _].
    apply list_elem_of_In, in_map. exact He. }
  destruct (length todo =? 0)%nat eqn:Hlen.
  - apply Nat.eqb_eq in Hlen. destruct todo; [|discriminate].
    exists w. simpl. rewrite app_nil_r. repeat split.
    exists []. rewrite app_nil_r. by split.
  - destruct (install_loop todo w) as (w' & Hloop & Htr & Hcfg & Hfs & added & Hall & Hadd).
    exists w'. repeat split; try assumption.
    exists added. split; [exact Hall|].
    eapply Forall_impl; [exact Hadd|]. intros h [H1 H2]. split; [|exact H2].
    by apply Hsub.
Qed.

Lemma removeExtraExtensions_spec synced w :
  exists w',
    ExtensionService.removeExtraExtensions synced w = (Ok tt, w') /\
    trace (host w') =
      trace (host w)
        ++ map ObsUninstall
             (map hx_id (ExtensionService.extraExtensions
                           (extensionsAll (host w)) synced)).
Proof.
  unfold ExtensionService.removeExtraExtensions, bind at 1, gets.
  cbn beta iota zeta.
  set (extra := ExtensionService.extraExtensions _ synced).
  destruct (length extra =? 0)%nat eqn:Hlen.
  - apply Nat.eqb_eq in Hlen. destruct extra; [|discriminate].
    exists w. simpl. rewrite app_nil_r. by split.
  - apply uninstall_loop.
Qed.

(** What the two filters select. *)
Lemma extensionsToInstall_ids all synced x :
  x ∈ map id (ExtensionService.extensionsToInstall all synced) <->
  x ∈ map id synced /\ x ∉ map hx_id all.
Proof.
  unfold ExtensionService.extensionsToInstall, ExtensionService.includes.
  split.
  - intros Hx. apply list_elem_of_In, in_map_iff in Hx as (e & <- & He).
    apply filter_In in He as [He Hn].
    apply negb_true_iff, bool_decide_eq_false in Hn. split; [|exact Hn].
    apply list_elem_of_In, in_map. exact He.
  - intros [Hx Hn]. apply list_elem_of_In, in_map_iff in Hx as (e & <- & He).
    apply list_elem_of_In, in_map_iff. exists e. split; [reflexivity|].
    apply filter_In. split; [exact He|].
    by apply negb_true_iff, bool_decide_eq_false.
Qed.

Lemma extraExtensions_elem all synced e :
  e ∈ ExtensionService.extraExtensions all synced <->
  e ∈ all /\ isBuiltin e = false /\ hx_id e ∉ map id synced.
Proof.
  unfold ExtensionService.extraExtensions, ExtensionService.includes.
  rewrite !(list_elem_of_In _ e), filter_In, andb_true_iff, !negb_true_iff,
    bool_decide_eq_false.
  reflexivity.
Qed.

Lemma extraExtensions_ids all synced x :
  x ∈ map hx_id (ExtensionService.extraExtensions all synced) <->
  exists e, e ∈ all /\ hx_id e = x /\ isBuiltin e = false
            /\ x ∉ map id synced.
Proof.
  rewrite list_elem_of_In, in_map_iff. split.
  - intros (e & <- & He).
    apply list_elem_of_In, extraExtensions_elem in He as (H1 & H2 & H3).
    by exists e.
  - intros (e & H1 & <- & H2 & H3). exists e. split; [reflexivity|].
    apply list_elem_of_In, extraExtensions_elem. by repeat split.
Qed.

(** The extensions installed by the first loop are in the synced list, so
    they are not extra: the removal selects what it would have selected
    before the installations. *)
Lemma extraExtensions_after_install all added synced :
  Forall (fun h => hx_id h ∈ map id synced /\ isBuiltin h = false) added ->
  ExtensionService.extraExtensions (all ++ added) synced
    = ExtensionService.extraExtensions all synced.
Proof.
  intros Hadd. unfold ExtensionService.extraExtensions.
  rewrite List.filter_app.
  replace (List.filter _ added) with (@nil HostExtension);
    [by rewrite app_nil_r|].
  symmetry. induction Hadd as [|h added [Hin _] _ IH]; [reflexivity|].
  simpl. unfold ExtensionService.includes at 1.
  rewrite (bool_decide_eq_true_2 _ Hin), andb_false_r. exact IH.
Qed.

Lemma pullExtensions_unfold w :
  ExtensionService.pullExtensions w =
    let w0 := snd (emit (ObsCall CPullExtensions) w) in
    if negb (extensionsSync (cfg (host w))) then (Ok tt, w0)
    else
      match fs (host w) !! ExtensionService.extensionsFile (cfg (host w)) with
      | None => (Ok tt, w0)
      | Some (Raw _) => (Err "SyntaxError: unexpected token in JSON", w0)
      | Some (Json synced) =>
          (ExtensionService.installMissingExtensions synced ;;
           if extensionsAutoRemove (cfg (host w))
           then ExtensionService.removeExtraExtensions synced
           else ret tt) w0
      end.
Proof.
  unfold ExtensionService.pullExtensions, ExtensionService.readSyncedExtensions,
    config.
  unfold bind at 1, emit at 1, modify at 1. cbn beta iota zeta.
  unfold bind at 1, gets at 1. cbn beta iota.
  cbn [host withHost setTrace cfg snd].
  destruct (extensionsSync (cfg (host w))); cbn [negb]; [|reflexivity].
  rewrite tryCatch_rethrow.
  unfold bind at 1. unfold bind at 1, gets at 1. cbn beta iota.
  rewrite tryCatch_rethrow.
  unfold bind at 1, gets at 1. cbn beta iota.
  cbn [host withHost setTrace cfg fs snd].
  destruct (fs (host w) !! _) as [[text|synced]|]; reflexivity.
Qed.

(** C6: [pullExtensions] does nothing (beyond recording that it was entered)
    when extension sync is disabled or the extensions file is absent.
    Otherwise, for every synced list [synced] read from the file and every
    answer of the host to the install and uninstall commands (failures
    included), it returns normally; the ids it asks the host to install
    are exactly the ids of [synced] that are not among the ids of
    [vscode.extensions.all]; and it asks to uninstall, when
    [extensions.autoRemove] is set, exactly the ids of the installed
    extensions that are not built in and not in [synced], and nothing when
    it is not set. *)
Theorem pullExtensions_reconciles (w : World) :
  let c := cfg (host w) in
  let entered := snd (emit (ObsCall CPullExtensions) w) in
  let installed := map hx_id (extensionsAll (host w)) in
  (extensionsSync c = false ->
   ExtensionService.pullExtensions w = (Ok tt, entered)) /\
  (extensionsSync c = true ->
   fs (host w) !! ExtensionService.extensionsFile c = None ->
   ExtensionService.pullExtensions w = (Ok tt, entered)) /\
  (forall synced,
     extensionsSync c = true ->
     fs (host w) !! ExtensionService.extensionsFile c = Some (Json synced) ->
     exists w' l,
       ExtensionService.pullExtensions w = (Ok tt, w') /\
       trace (host w') = trace (host w) ++ l /\
       (forall x, x ∈ installsOf l <-> x ∈ map id synced /\ x ∉ installed) /\
       (if extensionsAutoRemove c
        then forall x, x ∈ uninstallsOf l <->
               exists e, e ∈ extensionsAll (host w) /\ hx_id e = x /\
                         isBuiltin e = false /\ x ∉ map id synced
        else uninstallsOf l = [])).
Proof.
  cbv zeta. rewrite pullExtensions_unfold. cbv zeta.
  split; [intros ->; reflexivity|].
  split; [intros -> ->; reflexivity|].
  intros synced -> ->. cbn [negb].
  set (w0 := snd (emit (ObsCall CPullExtensions) w)).
  destruct (installMissingExtensions_spec synced w0)
    as (w1 & Hinst & Htr1 & Hcfg1 & Hfs1 & added & Hall1 & Hadd).
  unfold bind. rewrite Hinst.
  assert (Htr0 : trace (host w0) = trace (host w) ++ [ObsCall CPullExtensions])
    by reflexivity.
  assert (Hall0 : extensionsAll (host w0) = extensionsAll (host w))
    by reflexivity.
  rewrite Hall0 in Htr1, Hall1.
  destruct (extensionsAutoRemove (cfg (host w))).
  - destruct (removeExtraExtensions_spec synced w1) as (w2 & Hrem & Htr2).
    rewrite Hall1, (extraExtensions_after_install _ _ _ Hadd) in Htr2.
    exists w2. eexists. split; [exact Hrem|]. split.
    + rewrite Htr2, Htr1, Htr0, <- !app_assoc. reflexivity.
    + rewrite !installsOf_app, !uninstallsOf_app, installsOf_installs,
        installsOf_uninstalls, uninstallsOf_installs, uninstallsOf_uninstalls.
      cbn. rewrite app_nil_r. split.
      * apply extensionsToInstall_ids.
      * apply extraExtensions_ids.
  - exists w1. eexists. split; [reflexivity|]. split.
    + rewrite Htr1, Htr0, <- !app_assoc. reflexivity.
    + rewrite !installsOf_app, !uninstallsOf_app, installsOf_installs,
        uninstallsOf_installs.
      cbn. split; [|reflexivity].
      apply extensionsToInstall_ids.
Qed.

Lemma pullExtensions_reconciles_witness :
  (exists w' l,
     ExtensionService.pullExtensions (extensionWorld true) = (Ok tt, w') /\
     trace (host w') = trace (host (extensionWorld true)) ++ l /\
     installsOf l = ["user.linter"; "user.spell"] /\
     uninstallsOf l = ["user.theme"]) /\
  ExtensionService.pullExtensions
    (withHost (setFs ∅) (extensionWorld false))
  = (Ok tt, snd (emit (ObsCall CPullExtensions)
                   (withHost (setFs ∅) (extensionWorld false)))).
Proof.
  split.
  - destruct (proj2 (proj2 (pullExtensions_reconciles (extensionWorld true)))
      [{| id := "vscode.git"; version := None |};
       {| id := "user.linter"; version := Some "0.3.0" |};
       {| id := "user.spell"; version := None |}] eq_refl eq_refl)
      as (w' & l & Hrun & Htr & _).
    exists w', l. split; [exact Hrun|]. split; [exact Htr|].
    assert (Hw : w' = snd (ExtensionService.pullExtensions (extensionWorld true)))
      by (rewrite Hrun; reflexivity).
    subst w'. vm_compute in Htr. subst l. by split.
  - apply (proj1 (proj2 (pullExtensions_reconciles
              (withHost (setFs ∅) (extensionWorld false))))); reflexivity.
Defined.

(** C10: an extension that [vscode.extensions.all] lists is not installed
    again, built in or not: its id is in the set the synced ids are compared
    with.  A built-in extension is never selected by the removal, whatever
    the synced list; when the ids of the installed extensions are distinct,
    no uninstall command carries its id. *)
Theorem builtins_left_alone (w : World) (synced : list ExtensionInfo)
    (e : HostExtension) :
  e ∈ extensionsAll (host w) ->
  isBuiltin e = true ->
  (forall l,
     trace (host (snd (ExtensionService.installMissingExtensions synced w)))
       = trace (host w) ++ l ->
     hx_id e ∉ installsOf l) /\
  (e ∉ ExtensionService.extraExtensions (extensionsAll (host w)) synced) /\
  (NoDup (map hx_id (extensionsAll (host w))) ->
   forall l,
     trace (host (snd (ExtensionService.removeExtraExtensions synced w)))
       = trace (host w) ++ l ->
     hx_id e ∉ uninstallsOf l).
Proof.
  intros He Hb. split; [|split].
  - intros l Hl.
    destruct (installMissingExtensions_spec synced w) as (w' & Hrun & Htr & _).
    rewrite Hrun in Hl. simpl in Hl. rewrite Htr in Hl.
    apply app_inv_head in Hl as <-. rewrite installsOf_installs.
    intros Hin. apply extensionsToInstall_ids in Hin as [_ Hn].
    apply Hn, list_elem_of_In, in_map, list_elem_of_In, He.
  - intros Hin. apply extraExtensions_elem in Hin as (_ & Hf & _). congruence.
  - intros Hnd l Hl.
    destruct (removeExtraExtensions_spec synced w) as (w' & Hrun & Htr).
    rewrite Hrun in Hl. simpl in Hl. rewrite Htr in Hl.
    apply app_inv_head in Hl as <-. rewrite uninstallsOf_uninstalls.
    intros Hin. apply extraExtensions_ids in Hin as (e' & He' & Hid & Hf & _).
    assert (e' = e); [|congruence].
    clear -Hnd He He' Hid.
    induction (extensionsAll (host w)) as [|h all IH]; [by inversion He|].
    simpl in Hnd. apply NoDup_cons in Hnd as [Hnotin Hnd].
    apply elem_of_cons in He as [->|He]; apply elem_of_cons in He' as [->|He'].
    + reflexivity.
    + exfalso. apply Hnotin. rewrite <- Hid.
      apply list_elem_of_In, in_map, list_elem_of_In, He'.
    + exfalso. apply Hnotin. rewrite Hid.
      apply list_elem_of_In, in_map, list_elem_of_In, He.
    + by apply IH.
Qed.

Lemma builtins_left_alone_witness :
  ({| hx_id := "vscode.git"; hx_version := "1.0.0"; isBuiltin := true |}
     ∉ ExtensionService.extraExtensions
         (extensionsAll (host (extensionWorld true)))
         [{| id := "user.linter"; version := None |}]) /\
  ("vscode.git" ∉ uninstallsOf [ObsUninstall "user.theme"]).
Proof.
  destruct (builtins_left_alone (extensionWorld true)
    [{| id := "user.linter"; version := None |}]
    {| hx_id := "vscode.git"; hx_version := "1.0.0"; isBuiltin := true |})
    as (_ & H2 & H3).
  - apply list_elem_of_here.
  - reflexivity.
  - split; [exact H2|].
    apply H3.
    + simpl. apply NoDup_cons. split.
      * intros Hin. apply elem_of_cons in Hin as [Hin|Hin]; [discriminate|].
        by inversion Hin.
      * apply NoDup_singleton.
    + vm_compute. reflexivity.
Defined.

(** ** Copying files *)

Lemma copiesOf_app l1 l2 : copiesOf (l1 ++ l2) = copiesOf l1 ++ copiesOf l2.
Proof. unfold copiesOf. apply omap_app. Qed.

(** A source that does not exist: nothing is copied, nothing is thrown,
    one line is logged. *)
Lemma copyFile_missing src tgt w :
  fs (host w) !! src = None ->
  SyncService.copyFile src tgt w
    = (Ok tt, withHost (fun h =>
         setTrace (trace h ++ [ObsCopyFile src tgt; missingNotice src]) h) w).
Proof.
  intros Hnone.
  unfold SyncService.copyFile, tryCatch, bind, gets, emit, modify, missingNotice.
  cbn beta iota. cbn [host withHost setTrace fs]. rewrite Hnone.
  destruct (str_includes "~" src || path_isAbsolute src); cbn;
    unfold withHost, setTrace; cbn; rewrite <- app_assoc; reflexivity.
Qed.

(** One copy, in an environment where no copy fails on I/O. *)
Lemma copyFile_step src tgt w :
  Forall (eq true) (answers (host w) CopyIO) ->
  exists w1,
    SyncService.copyFile src tgt w = (Ok tt, w1) /\
    copiesOf (trace (host w1)) = copiesOf (trace (host w)) ++ [(src, tgt)] /\
    Forall (eq true) (answers (host w1) CopyIO) /\
    cfg (host w1) = cfg (host w) /\ fg (host w1) = fg (host w).
Proof.
  intros Hio.
  destruct (fs (host w) !! src) as [content|] eqn:Hsrc.
  - unfold SyncService.copyFile, tryCatch, bind, gets, emit, modify, ask.
    cbn beta iota. cbn [host withHost setTrace fs answers]. rewrite Hsrc.
    cbn -[copiesOf].
    assert (Hhd : hd true (answers (host w) CopyIO) = true).
    { destruct Hio as [|b rest <- _]; reflexivity. }
    rewrite Hhd. eexists. split; [reflexivity|]. cbn -[copiesOf].
    rewrite copiesOf_app. repeat split.
    destruct Hio as [|b rest _ Hrest]; [constructor | exact Hrest].
  - rewrite (copyFile_missing _ _ _ Hsrc). eexists. split; [reflexivity|].
    cbn. rewrite copiesOf_app. unfold missingNotice.
    destruct (_ || _); by repeat split.
Qed.

Lemma copy_loop {A} (src tgt : A -> string) (l : list A) w :
  Forall (eq true) (answers (host w) CopyIO) ->
  exists w',
    forEach l (fun x => SyncService.copyFile (src x) (tgt x)) w = (Ok tt, w') /\
    copiesOf (trace (host w'))
      = copiesOf (trace (host w)) ++ map (fun x => (src x, tgt x)) l /\
    Forall (eq true) (answers (host w') CopyIO) /\
    cfg (host w') = cfg (host w) /\ fg (host w') = fg (host w).
Proof.
  revert w. induction l as [|x l IH]; intros w Hio.
  - exists w. simpl. rewrite app_nil_r. by repeat split.
  - destruct (copyFile_step (src x) (tgt x) w Hio)
      as (w1 & Hstep & Hc1 & Hio1 & Hcfg1 & Hfg1).
    destruct (IH w1 Hio1) as (w' & Hloop & Hc & Hio' & Hcfg & Hfg).
    exists w'. simpl. unfold bind. rewrite Hstep. split; [exact Hloop|].
    rewrite Hc, Hc1, <- app_assoc, Hcfg, Hcfg1, Hfg, Hfg1. by repeat split.
Qed.

Lemma copyFilesToWorkingDir_batch w :
  Forall (eq true) (answers (host w) CopyIO) ->
  exists w',
    SyncService.copyFilesToWorkingDir w = (Ok tt, w') /\
    copiesOf (trace (host w'))
      = copiesOf (trace (host w)) ++ batchToWorkingDir w.
Proof.
  intros Hio.
  unfold SyncService.copyFilesToWorkingDir, GitService.getWorkingDirectory,
    SyncService.getUserSettingsPath, config, batchToWorkingDir.
  unfold bind at 1, emit, modify. cbn beta iota zeta.
  unfold bind at 1, gets at 1. cbn beta iota.
  unfold bind at 1, gets at 1. cbn beta iota.
  unfold bind at 1, gets at 1. cbn beta iota.
  unfold bind at 1, gets at 1. cbn beta iota.
  cbn [host withHost setTrace cfg fg].
  set (w0 := withHost _ w).
  assert (Hio0 : Forall (eq true) (answers (host w0) CopyIO)) by exact Hio.
  unfold bind.
  match goal with |- context [forEach ?l ?f w0] =>
    destruct (copy_loop (fun file : string => file)
      (fun file => path_join (workingDirectory (cfg (host w)))
                     (path_relative (userSettingsPath (cfg (host w))) file))
      l w0 Hio0) as (w1 & Hl1 & Hc1 & Hio1 & Hcfg1 & Hfg1) end.
  cbv beta in Hl1. rewrite Hl1.
  match goal with |- context [forEach ?l ?f w1] =>
    destruct (copy_loop
      (fun x => expandHome (cfg (host w)) (source x))
      (fun x => path_join (workingDirectory (cfg (host w))) (target x))
      l w1 Hio1) as (w2 & Hl2 & Hc2 & _) end.
  cbv beta in Hl2. exists w2. split; [exact Hl2|].
  rewrite Hc2, Hc1. subst w0. cbn [host withHost setTrace trace].
  rewrite copiesOf_app. cbn. rewrite app_nil_r, <- app_assoc. reflexivity.
Qed.

Lemma mirrorToLive_batch w :
  Forall (eq true) (answers (host w) CopyIO) ->
  exists w',
    SyncService.mirrorToLive w = (Ok tt, w') /\
    copiesOf (trace (host w'))
      = copiesOf (trace (host w)) ++ batchFromWorkingDir w.
Proof.
  intros Hio.
  unfold SyncService.mirrorToLive, GitService.getWorkingDirectory,
    SyncService.getUserSettingsPath, config, batchFromWorkingDir.
  unfold bind at 1, emit, modify. cbn beta iota zeta.
  unfold bind at 1, gets at 1. cbn beta iota.
  unfold bind at 1, gets at 1. cbn beta iota.
  unfold bind at 1, gets at 1. cbn beta iota.
  unfold bind at 1, gets at 1. cbn beta iota.
  cbn [host withHost setTrace cfg fg].
  set (w0 := withHost _ w).
  assert (Hio0 : Forall (eq true) (answers (host w0) CopyIO)) by exact Hio.
  unfold bind.
  match goal with |- context [forEach ?l ?f w0] =>
    destruct (copy_loop (fun file : string => file)
      (fun file => path_join (userSettingsPath (cfg (host w)))
                     (path_relative (workingDirectory (cfg (host w))) file))
      l w0 Hio0) as (w1 & Hl1 & Hc1 & Hio1 & Hcfg1 & Hfg1) end.
  cbv beta in Hl1. rewrite Hl1.
  match goal with |- context [forEach ?l ?f w1] =>
    destruct (copy_loop
      (fun x => path_join (workingDirectory (cfg (host w))) (target x))
      (fun x => expandHome (cfg (host w)) (source x))
      l w1 Hio1) as (w2 & Hl2 & Hc2 & _) end.
  cbv beta in Hl2. exists w2. split; [exact Hl2|].
  rewrite Hc2, Hc1. subst w0. cbn [host withHost setTrace trace].
  rewrite copiesOf_app. cbn. rewrite app_nil_r, <- app_assoc. reflexivity.
Qed.

(** C8: [copyFile] returns normally whenever its source does not exist,
    for an external file as for a pattern-matched one: it copies nothing
    and logs one line (the warning 'Source file does not exist' for a
    relative path without '~', the note 'Optional external file not found'
    for any other path).  In a mirror, in either direction, as long as no
    copy of an existing source fails on I/O, the batch returns normally and
    every pair of the batch is gone through, whichever sources are
    missing: a missing source does not abort the copies that follow. *)
Theorem missing_sources_do_not_abort (w : World) :
  (forall src tgt,
     fs (host w) !! src = None ->
     exists w',
       SyncService.copyFile src tgt w = (Ok tt, w') /\
       fs (host w') = fs (host w) /\
       trace (host w')
         = trace (host w) ++ [ObsCopyFile src tgt; missingNotice src]) /\
  (Forall (eq true) (answers (host w) CopyIO) ->
   (exists w',
      SyncService.copyFilesToWorkingDir w = (Ok tt, w') /\
      copiesOf (trace (host w'))
        = copiesOf (trace (host w)) ++ batchToWorkingDir w) /\
   (exists w',
      SyncService.copyFilesFromWorkingDir w = (Ok tt, w') /\
      copiesOf (trace (host w'))
        = copiesOf (trace (host w)) ++ batchFromWorkingDir w)).
Proof.
  split.
  - intros src tgt Hnone. rewrite (copyFile_missing _ _ _ Hnone).
    eexists. split; [reflexivity|]. by split.
  - intros Hio. split; [by apply copyFilesToWorkingDir_batch|].
    unfold SyncService.copyFilesFromWorkingDir, bind, modify, tryFinally.
    cbn beta iota.
    destruct (mirrorToLive_batch
                (withSvc (setIsApplyingRemoteChanges true) w) Hio)
      as (w1 & Hrun & Hc).
    rewrite Hrun. eexists. split; [reflexivity|]. exact Hc.
Qed.

Lemma missing_sources_do_not_abort_witness :
  (exists w',
     SyncService.copyFile "/home/u/.bashrc" "/home/u/settings-sync/shell/bashrc"
       (idleWorld []) = (Ok tt, w') /\
     fs (host w') = fs (host (idleWorld []))) /\
  (exists w',
     SyncService.copyFilesToWorkingDir (withHost (setFs ∅) (idleWorld []))
       = (Ok tt, w') /\
     copiesOf (trace (host w'))
       = [("/home/u/.config/Code/User/settings.json",
           "/home/u/settings-sync/settings.json");
          ("/home/u/.bashrc", "/home/u/settings-sync/shell/bashrc")]).
Proof.
  split.
  - destruct (proj1 (missing_sources_do_not_abort (idleWorld []))
      "/home/u/.bashrc" "/home/u/settings-sync/shell/bashrc")
      as (w' & Hrun & Hfs & _); [vm_compute; reflexivity|].
    exists w'. by split.
  - destruct (proj2 (missing_sources_do_not_abort
      (withHost (setFs ∅) (idleWorld [])))) as [(w' & Hrun & Hc) _];
      [constructor|].
    exists w'. split; [exact Hrun|]. rewrite Hc. vm_compute. reflexivity.
Defined.

(** ** A push that is rejected twice *)

(** What a push that is rejected twice leaves behind: the terminal error,
    and as many unpushed commits as before, plus the commit of the retry
    when the retry recorded one.  The hard reset has undone the commit made
    before the first push; nothing undoes the commit of the retry. *)
Lemma push_failed_retry_ahead (w : World) :
  initialized (git w) = true ->
  (pullBeforePush (cfg (host w)) = true ->
   answerAt (OGit PullRebase) 0 w = true) ->
  answerAt (OGit Add) 0 w = true ->
  answerAt (OGit Commit) 0 w = true ->
  answerAt StagedChanges 0 w = true ->
  answerAt (OGit Push) 0 w = false ->
  answerAt (OGit ResetHardPrev) 0 w = true ->
  answerAt PullAndRetry 0 w = true ->
  retrySucceeds w = false ->
  fst (GitService.push w) = Err (terminalError (cfg (host w))) /\
  ahead (git (snd (GitService.push w)))
    = (ahead (git w) + (if retryCommits w then 1 else 0))%nat.
Proof.
  unfold retrySucceeds, retryCommits, answerAt.
  intros Hinit Hpull Hadd Hcommit Hstaged Hpush Hreset Hchoice Hretry.
  unfold GitService.push, GitService.isInitialized, GitService.onPushRejected,
    GitService.pullAndRetry, GitService.gitCmd, GitService.effect, config,
    terminalError.
  unfold tryCatch, bind, gets, emit, modify, ask, ret, throw.
  cbn beta iota. cbn [host git withHost withGit setTrace setAnswers answers
    initialized cfg fst snd]. rewrite Hinit. cbn [negb].
  destruct (pullBeforePush (cfg (host w))) eqn:Hpb.
  - cbn in Hpull, Hadd, Hcommit, Hstaged, Hpush, Hreset, Hchoice, Hretry |- *.
    rewrite Hpb. cbn. rewrite (Hpull eq_refl). cbn. rewrite Hadd. cbn. rewrite Hcommit. cbn.
    rewrite Hstaged. cbn. rewrite Hpush. cbn. rewrite Hreset. cbn.
    rewrite Hchoice. cbn.
    destruct (hd true (tl (answers (host w) (OGit PullRebase)))); cbn;
      [|split; [reflexivity | lia]].
    destruct (hd true (tl (answers (host w) (OGit Add)))); cbn;
      [|split; [reflexivity | lia]].
    destruct (hd true (tl (answers (host w) (OGit Commit)))); cbn;
      [|split; [reflexivity | lia]].
    cbn in Hretry.
    destruct (hd true (tl (answers (host w) StagedChanges))); cbn;
      rewrite Hretry; cbn; (split; [reflexivity | lia]).
  - cbn in Hadd, Hcommit, Hstaged, Hpush, Hreset, Hchoice, Hretry |- *.
    rewrite Hpb. cbn. rewrite Hadd. cbn. rewrite Hcommit. cbn.
    rewrite Hstaged. cbn. rewrite Hpush. cbn. rewrite Hreset. cbn.
    rewrite Hchoice. cbn.
    destruct (hd true (answers (host w) (OGit PullRebase))); cbn;
      [|split; [reflexivity | lia]].
    destruct (hd true (tl (answers (host w) (OGit Add)))); cbn;
      [|split; [reflexivity | lia]].
    destruct (hd true (tl (answers (host w) (OGit Commit)))); cbn;
      [|split; [reflexivity | lia]].
    cbn in Hretry.
    destruct (hd true (tl (answers (host w) StagedChanges))); cbn;
      rewrite Hretry; cbn; (split; [reflexivity | lia]).
Qed.


(** C1 (as amended): when the first push of [push] is rejected, after a
    commit that recorded the pending changes, the hard reset succeeds, the
    user picks 'Pull and Retry' and the retry fails as well without having
    recorded a commit of its own (it fails before its commit, or has
    nothing to commit), [push] throws the terminal error that names the
    repository location and the repository has no new unpushed commit: the
    commit made before the rejected push has been rolled back by the hard
    reset, which comes before the prompt. *)
Theorem push_rejected_twice (w : World) :
  initialized (git w) = true ->
  (pullBeforePush (cfg (host w)) = true ->
   answerAt (OGit PullRebase) 0 w = true) ->
  answerAt (OGit Add) 0 w = true ->
  answerAt (OGit Commit) 0 w = true ->
  answerAt StagedChanges 0 w = true ->
  answerAt (OGit Push) 0 w = false ->
  answerAt (OGit ResetHardPrev) 0 w = true ->
  answerAt PullAndRetry 0 w = true ->
  retrySucceeds w = false ->
  retryCommits w = false ->
  fst (GitService.push w) = Err (terminalError (cfg (host w))) /\
  ahead (git (snd (GitService.push w))) = ahead (git w).
Proof.
  intros Hinit Hpull Hadd Hcommit Hstaged Hpush Hreset Hchoice Hretry Hnone.
  destruct (push_failed_retry_ahead w Hinit Hpull Hadd Hcommit Hstaged Hpush
              Hreset Hchoice Hretry) as [Herr Hahead].
  split; [exact Herr|]. rewrite Hahead, Hnone. lia.
Qed.

Lemma push_rejected_twice_witness :
  fst (GitService.push
         (idleWorld [(OGit Push, [false]); (OGit PullRebase, [false])]))
    = Err (terminalError sampleConfig) /\
  ahead (git (snd (GitService.push
         (idleWorld [(OGit Push, [false]); (OGit PullRebase, [false])]))))
    = 0%nat.
Proof.
  apply (push_rejected_twice
    (idleWorld [(OGit Push, [false]); (OGit PullRebase, [false])]));
    solve [reflexivity | discriminate].
Defined.

(** At [conflictWorld] the first push is rejected, the user picks 'Pull and
    Retry', and the retry fails at its push after it has recorded a commit.
    [push] throws the terminal error, and the repository is not left with
    zero new unpushed commits: the hard reset is sent once, before the
    prompt, and nothing undoes the commit of the retry. *)
Lemma push_rejected_twice_leaves_commit :
  initialized (git conflictWorld) = true /\
  answerAt (OGit Push) 0 conflictWorld = false /\
  answerAt PullAndRetry 0 conflictWorld = true /\
  retrySucceeds conflictWorld = false /\
  fst (GitService.push conflictWorld) = Err (terminalError sampleConfig) /\
  gitCmdsOf (trace (host (snd (GitService.push conflictWorld))))
    = [Add; Commit; Push; ResetHardPrev; PullRebase; Add; Commit; Push] /\
  ahead (git conflictWorld) = 0%nat /\
  ahead (git (snd (GitService.push conflictWorld))) = 1%nat /\
  ~ (ahead (git (snd (GitService.push conflictWorld)))
     = ahead (git conflictWorld)).
Proof. vm_compute. repeat split; discriminate. Qed.

(** ** Debouncing *)

Lemma earliest_last others d :
  (forall u, u ∈ others -> due d < due u) ->
  earliest (others ++ [d]) = Some d.
Proof.
  induction others as [|u others IH]; intros H; simpl; [reflexivity|].
  rewrite IH.
  - assert (due d < due u) as Hlt by (apply H, list_elem_of_here).
    apply Z.ltb_lt in Hlt. rewrite Hlt. reflexivity.
  - intros v Hv. apply H. apply elem_of_cons. by right.
Qed.

Lemma filter_subset {A} (f : A -> bool) (l : list A) x :
  x ∈ List.filter f l -> x ∈ l.
Proof. rewrite !list_elem_of_In, filter_In. tauto. Qed.

(** Once only lock releases are due, letting time pass runs no debounce
    callback. *)
Lemma advance_settled fuel until v :
  settled until v ->
  triggersOf (trace (host (advance fuel until v)))
    = triggersOf (trace (host v)).
Proof.
  revert v. induction fuel as [|fuel IH]; intros v Hs; simpl.
  - destruct (earliest (timers (host v))) as [u|]; [|reflexivity].
    destruct (due u <=? until); reflexivity.
  - destruct (earliest (timers (host v))) as [u|] eqn:He; [|reflexivity].
    destruct (due u <=? until) eqn:Hd; [|reflexivity].
    apply earliest_In in He. apply Z.leb_le in Hd.
    assert (Hsame : trace (host (expire u v)) = trace (host v) /\
                    timers (host (expire u v))
                    = List.filter (fun x => negb (tid x =? tid u)%nat)
                                  (timers (host v))).
    { unfold expire. destruct (Hs u He Hd) as [Ha|Ha]; rewrite Ha; by split. }
    destruct Hsame as [Htr Htm].
    rewrite IH, Htr; [reflexivity|].
    intros x Hx Hxd. rewrite Htm in Hx. apply filter_subset in Hx.
    by apply Hs.
Qed.

(** An accepted change cancels the pending debounce timer and sets a new
    one, [debounceDelay] ahead. *)
Lemma handleFileChange_idle path v :
  isEnabled (svc v) = true -> isSyncing (svc v) = false ->
  isApplyingRemoteChanges (svc v) = false ->
  SyncService.handleFileChange path v =
    (Ok tt,
     withSvc (setDebounceTimer (Some (nextTimer (host v))))
       (withHost
          (setTimers
             (match debounceTimer (svc v) with
              | Some handle =>
                  List.filter (fun t => negb (tid t =? handle)%nat)
                              (timers (host v))
              | None => timers (host v)
              end
              ++ [debounceTimerAt v (now (host v)) (nextTimer (host v))])
             (S (nextTimer (host v))))
          v)).
Proof.
  intros He Hs Ha.
  unfold SyncService.handleFileChange, config, bind, gets, modify,
    setTimeout, clearTimeout.
  cbn beta iota. rewrite He, Hs, Ha. cbn [negb orb].
  destruct (debounceTimer (svc v)); reflexivity.
Qed.

(** Reduce the projections of a world that was updated field by field. *)
Ltac project :=
  cbn [svc host withSvc withHost setDebounceTimer setTimers setNow
       setLastEventTime isEnabled isSyncing isApplyingRemoteChanges cfg
       trace lastEventTime now timers debounceTimer].

Lemma lastRetained_ge delay prev last ts :
  inBurst delay prev last ts -> last <= prev -> last <= lastRetained last ts.
Proof.
  revert prev last. induction ts as [|t ts IH]; intros prev last; simpl.
  - lia.
  - intros (Hp & _ & Hrest) Hl.
    destruct (t - last <? SyncService.EVENT_THRESHOLD).
    + apply (IH t last Hrest). lia.
    + transitivity t; [lia|]. apply (IH t t Hrest). lia.
Qed.

(** One more event of the burst. *)
Lemma burst_step w0 path until last v fuel t :
  0 <= debounceMs w0 ->
  midBurst w0 path until last v ->
  now (host v) <= t -> t < last + debounceMs w0 ->
  last + debounceMs w0 <= until ->
  let last' := if t - last <? SyncService.EVENT_THRESHOLD then last else t in
  midBurst w0 path until last' (fileEventAt fuel path t v) /\
  now (host (fileEventAt fuel path t v)) = t.
Proof.
  intros Hdelay (He & Hs & Ha & Hcfg & Htr & Hlast & Hnow & others & handle
                 & Htimers & Hdeb & Hothers) Hprev Ht Huntil.
  unfold fileEventAt. rewrite advance_idle.
  2:{ intros u Hu. rewrite Htimers in Hu.
      apply elem_of_app in Hu as [Hu|Hu].
      - specialize (Hothers u Hu). lia.
      - apply list_elem_of_singleton in Hu as ->. simpl. lia. }
  replace (Z.max (now (host v)) t) with t by lia.
  set (v1 := withHost (setNow t) v).
  unfold SyncService.handleFileEvent, bind, gets, modify. cbn beta iota.
  change (now (host v1)) with t.
  change (lastEventTime (svc v1)) with (lastEventTime (svc v)).
  rewrite Hlast. cbn [from_option Datatypes.id].
  destruct (t - last <? SyncService.EVENT_THRESHOLD) eqn:Hdup; cbv zeta.
  - (* skipped *)
    unfold ret. cbn [snd].
    split; [|reflexivity]. unfold midBurst. subst v1.
    project.
    split; [exact He|]. split; [exact Hs|]. split; [exact Ha|].
    split; [exact Hcfg|]. split; [exact Htr|]. split; [exact Hlast|].
    split; [lia|].
    exists others, handle. by repeat split.
  - (* retained: the timer is restarted *)
    rewrite handleFileChange_idle by assumption.
    cbn [fst snd]. split; [|reflexivity].
    unfold midBurst. subst v1.
    project.
    rewrite He, Hs, Ha, Hcfg, Htr, Hdeb, Htimers.
    repeat split; try lia.
    + apply lookup_insert_eq.
    + exists (List.filter (fun x => negb (tid x =? handle)%nat) others),
             (nextTimer (host v)).
      split; [|split; [reflexivity|]].
      * rewrite List.filter_app. cbn. rewrite Nat.eqb_refl. cbn.
        rewrite app_nil_r. unfold debounceTimerAt, debounceMs. cbn.
        rewrite Hcfg. reflexivity.
      * intros u Hu. apply filter_subset in Hu. by apply Hothers.
Qed.

(** The first event of the burst, from an idle service. *)
Lemma burst_first w path until fuel t :
  0 <= debounceMs w ->
  isEnabled (svc w) = true -> isSyncing (svc w) = false ->
  isApplyingRemoteChanges (svc w) = false ->
  (forall u, u ∈ timers (host w) -> until < due u) ->
  now (host w) <= t -> t <= until ->
  SyncService.EVENT_THRESHOLD
    <= t - default 0 (lastEventTime (svc w) !! path) ->
  midBurst w path until t (fileEventAt fuel path t w) /\
  now (host (fileEventAt fuel path t w)) = t.
Proof.
  intros Hdelay He Hs Ha Hothers Hnow Ht Hfirst.
  unfold fileEventAt. rewrite advance_idle.
  2:{ intros u Hu. specialize (Hothers u Hu). lia. }
  replace (Z.max (now (host w)) t) with t by lia.
  set (v1 := withHost (setNow t) w).
  unfold SyncService.handleFileEvent, bind, gets, modify. cbn beta iota.
  change (now (host v1)) with t.
  change (lastEventTime (svc v1)) with (lastEventTime (svc w)).
  destruct (t - default 0 (lastEventTime (svc w) !! path)
            <? SyncService.EVENT_THRESHOLD) eqn:Hdup.
  { apply Z.ltb_lt in Hdup. lia. }
  rewrite handleFileChange_idle by assumption.
  cbn [fst snd]. split; [|reflexivity].
  unfold midBurst. subst v1.
  project.
  rewrite He, Hs, Ha.
  repeat split; try lia.
  - apply lookup_insert_eq.
  - destruct (debounceTimer (svc w)) as [old|].
    + exists (List.filter (fun x => negb (tid x =? old)%nat) (timers (host w))),
             (nextTimer (host w)).
      repeat split. intros u Hu. apply filter_subset in Hu. by apply Hothers.
    + exists (timers (host w)), (nextTimer (host w)). by repeat split.
Qed.

(** The rest of the burst. *)
Lemma burst_rest w0 path until fuel ts :
  0 <= debounceMs w0 ->
  forall last v,
    midBurst w0 path until last v ->
    inBurst (debounceMs w0) (now (host v)) last ts ->
    lastRetained last ts + debounceMs w0 <= until ->
    midBurst w0 path until (lastRetained last ts) (deliver fuel path ts v).
Proof.
  intros Hdelay. induction ts as [|t ts IH]; intros last v Hmid Hin Huntil.
  - exact Hmid.
  - simpl in Hin, Huntil |- *. destruct Hin as (Hprev & Ht & Hrest).
    assert (Hlast : last <= now (host v)).
    { destruct Hmid as (_ & _ & _ & _ & _ & _ & Hn & _). lia. }
    assert (Hmono := lastRetained_ge _ _ _ _ Hrest).
    destruct (burst_step w0 path until last v fuel t Hdelay Hmid Hprev Ht)
      as [Hmid' Hnow'].
    { destruct (t - last <? SyncService.EVENT_THRESHOLD); lia. }
    cbv zeta in Hmid'. unfold deliver in IH |- *. apply IH.
    + exact Hmid'.
    + rewrite Hnow'. exact Hrest.
    + exact Huntil.
Qed.

Lemma calm_debounce_body :
  Steps calm
    (tryCatch
       (SyncService.copyFilesToWorkingDir ;;
        changed <- GitService.hasChanges ;;
        if changed then SyncService.sync else ret tt)
       (fun error => throw error)).
Proof. calm. Qed.

(** When the clock reaches the deadline of the pending timer, the debounce
    callback runs once, at that deadline. *)
Lemma burst_fires w0 path until last v fuel :
  midBurst w0 path until last v ->
  last + debounceMs w0 <= until ->
  (0 < fuel)%nat ->
  triggersOf (trace (host (advance fuel until v)))
    = triggersOf (trace (host w0)) ++ [last + debounceMs w0].
Proof.
  intros (He & Hs & Ha & Hcfg & Htr & Hlast & Hnow & others & handle
          & Htimers & Hdeb & Hothers) Huntil Hfuel.
  destruct fuel as [|fuel]; [lia|]. simpl.
  rewrite Htimers, earliest_last.
  2:{ intros u Hu. specialize (Hothers u Hu). simpl. lia. }
  cbn [due debounceTimerAt].
  replace (last + debounceMs w0 <=? until) with true
    by (symmetry; apply Z.leb_le; lia).
  set (d := debounceTimerAt w0 last handle).
  set (v2 := withHost (fun h =>
                setTrace (trace h ++ [ObsTrigger (last + debounceMs w0)]) h)
              (withHost (fun h =>
                 setNow (last + debounceMs w0)
                   (setTimers
                      (List.filter (fun u => negb (tid u =? handle)%nat)
                                   (timers h))
                      (nextTimer h) h)) v)).
  assert (Hexp : expire d v =
            snd (tryCatch
                   (SyncService.copyFilesToWorkingDir ;;
                    changed <- GitService.hasChanges ;;
                    if changed then SyncService.sync else ret tt)
                   (fun error => throw error) v2)).
  { unfold expire, fire. cbn [act d debounceTimerAt].
    unfold SyncService.debounceCallback.
    unfold bind at 1, gets at 1. cbn beta iota.
    unfold bind at 1, emit at 1, modify at 1. cbn beta iota.
    cbn [host withHost setNow setTimers now due tid d debounceTimerAt].
    do 2 f_equal. subst v2. unfold withHost, setTrace, setNow, setTimers.
    cbn.
    replace (Z.max (now (host v)) (last + debounceMs w0))
      with (last + debounceMs w0) by lia.
    reflexivity. }
  rewrite Hexp.
  pose proof (calm_debounce_body v2) as (Hc1 & _ & _ & added & Hc2 & Hrel).
  destruct (tryCatch _ _ v2) as [r v3]. cbn [snd] in Hc1, Hc2 |- *.
  rewrite advance_settled.
  - rewrite Hc1. subst v2. cbn [host withHost setTrace setTimers setNow trace].
    rewrite triggersOf_app, Htr. reflexivity.
  - intros u Hu Hdue. rewrite Hc2 in Hu. subst v2.
    cbn [host withHost setTrace setTimers setNow timers] in Hu.
    apply elem_of_app in Hu as [Hu|Hu].
    + apply list_elem_of_In, filter_In in Hu as [Hu Hne].
      apply list_elem_of_In in Hu. rewrite Htimers in Hu.
      apply elem_of_app in Hu as [Hu|Hu].
      * specialize (Hothers u Hu). lia.
      * apply list_elem_of_singleton in Hu. subst u.
        cbn in Hne. rewrite Nat.eqb_refl in Hne. discriminate.
    + rewrite Forall_forall in Hrel. by apply Hrel.
Qed.

(** The delay of a timer is at least 1 ms, and the delay asked for when
    that lies between 1 ms and [TIMEOUT_MAX]. *)
Lemma timerDelay_ge delay : 1 <= timerDelay delay.
Proof.
  unfold timerDelay.
  destruct ((1 <=? delay) && (delay <=? TIMEOUT_MAX)) eqn:H; [|lia].
  apply andb_true_iff in H as [H _]. by apply Z.leb_le in H.
Qed.

Lemma timerDelay_in_range delay :
  1 <= delay <= TIMEOUT_MAX -> timerDelay delay = delay.
Proof.
  intros [H1 H2]. unfold timerDelay.
  apply Z.leb_le in H1, H2. by rewrite H1, H2.
Qed.

Lemma timerDelay_out_of_range delay :
  delay < 1 \/ TIMEOUT_MAX < delay -> timerDelay delay = 1.
Proof.
  intros H. unfold timerDelay.
  destruct ((1 <=? delay) && (delay <=? TIMEOUT_MAX)) eqn:Hin; [|reflexivity].
  apply andb_true_iff in Hin as [H1 H2]. apply Z.leb_le in H1, H2. lia.
Qed.



(** * More properties *)

(** ** Tools

    Observations that a method leaves unchanged are proved so by going
    through its statements. *)

Lemma prefix_append (p s : string) : String.prefix p (p +:+ s) = true.
Proof. induction p as [|c p IH]; simpl; [by destruct s|]. destruct (Ascii.ascii_dec c c); [exact IH | done]. Qed.

Lemma prefix_app (a b c : string) :
  String.prefix b c = true -> String.prefix (a +:+ b) (a +:+ c) = true.
Proof.
  intros H. induction a as [|x a IH]; simpl; [exact H|].
  destruct (Ascii.ascii_dec x x); [exact IH | done].
Qed.

Ltac ask_all :=
  repeat (match goal with
          | |- context [hd true (answers (host ?w) ?q)] =>
              destruct (hd true (answers (host w) q)) eqn:?; cbn
          end).

Lemma gitCmdsOf_app l1 l2 : gitCmdsOf (l1 ++ l2) = gitCmdsOf l1 ++ gitCmdsOf l2.
Proof. unfold gitCmdsOf. apply omap_app. Qed.

Ltac git_trace := rewrite ?gitCmdsOf_app; cbn; rewrite <- ?app_assoc; cbn.

Lemma errorsShownOf_app l1 l2 :
  errorsShownOf (l1 ++ l2) = errorsShownOf l1 ++ errorsShownOf l2.
Proof. unfold errorsShownOf. apply omap_app. Qed.

Ltac shown_trace := rewrite ?errorsShownOf_app; cbn; rewrite <- ?app_assoc; cbn.

#[global] Instance unchanged_preorder {A} (f : World -> A) :
  PreOrder (unchanged f).
Proof.
  split.
  - intros w. reflexivity.
  - intros a b c Hab Hbc. unfold unchanged in *. congruence.
Qed.

Create HintDb unchanged.

(** Break a method into its statements; a statement that does not touch
    the observation is discharged by computation. *)
Ltac unchanged :=
  steps_with ltac:(first
    [ solve [eauto with unchanged]
    | let w := fresh "w" in intros w; reflexivity
    | let w := fresh "w" in
      intros w;
      unfold unchanged, errorsShown, gitView, errorsShownOf, gitCmdsOf,
        callsOf, copiesOf;
      cbn; rewrite ?omap_app; cbn; rewrite ?app_nil_r; reflexivity
    | apply steps_tryFinally;
        [typeclasses eauto | | let w := fresh "w" in intros w; reflexivity] ]).

(** Unfold the methods down to the primitives of the monad. *)
Ltac unfold_methods :=
  unfold SyncService.initialPull, SyncService.syncBody,
    SyncService.setupFileWatcher, SyncService.watchExternal,
    SyncService.setupPeriodicSync, SyncService.setupExtensionWatcher,
    SyncService.copyFilesFromWorkingDir, SyncService.mirrorToLive,
    SyncService.copyFilesToWorkingDir, SyncService.copyFile,
    SyncService.getUserSettingsPath,
    ExtensionService.pullExtensions, ExtensionService.pushExtensions,
    ExtensionService.readSyncedExtensions,
    ExtensionService.saveExtensionsToFile,
    ExtensionService.getCurrentExtensions,
    ExtensionService.installMissingExtensions,
    ExtensionService.removeExtraExtensions,
    ExtensionService.installExtension, ExtensionService.uninstallExtension,
    GitService.pull, GitService.push, GitService.forcePush,
    GitService.forcePull, GitService.hasChanges, GitService.onPushRejected,
    GitService.pullAndRetry, GitService.isInitialized,
    GitService.getWorkingDirectory, GitService.gitCmd, GitService.effect,
    config, emit, setTimeout, clearTimeout.

Lemma swallow_snd (m : M unit) w :
  snd (tryCatch m (fun _ => ret tt) w) = snd (m w).
Proof. unfold tryCatch, ret. by destruct (m w) as [[[]|e] w1]. Qed.

Lemma filter_all {A} (l : list A) : List.filter (fun _ => true) l = l.
Proof. induction l as [|x l IH]; [reflexivity|]. cbn. by rewrite IH. Qed.

(** ** Error messages *)

Lemma silent_gitCmd c : Steps (unchanged errorsShown) (GitService.gitCmd c).
Proof.
  unfold GitService.gitCmd, emit. unchanged.
  destruct c; unfold GitService.effect; unchanged.
Qed.
#[global] Hint Resolve silent_gitCmd : unchanged.

Lemma silent_pull : Steps (unchanged errorsShown) GitService.pull.
Proof. unfold GitService.pull, emit. unchanged. Qed.

Lemma silent_git_forcePull : Steps (unchanged errorsShown) GitService.forcePull.
Proof. unfold GitService.forcePull, emit. unchanged. Qed.

Lemma silent_hasChanges : Steps (unchanged errorsShown) GitService.hasChanges.
Proof. unfold GitService.hasChanges, emit. unchanged. Qed.

Lemma silent_copyFile a b : Steps (unchanged errorsShown) (SyncService.copyFile a b).
Proof. unfold SyncService.copyFile, emit. unchanged. Qed.
#[global] Hint Resolve silent_copyFile : unchanged.

Lemma silent_copyFilesToWorkingDir :
  Steps (unchanged errorsShown) SyncService.copyFilesToWorkingDir.
Proof.
  unfold SyncService.copyFilesToWorkingDir, GitService.getWorkingDirectory,
    SyncService.getUserSettingsPath, config, emit.
  unchanged.
Qed.

Lemma silent_copyFilesFromWorkingDir :
  Steps (unchanged errorsShown) SyncService.copyFilesFromWorkingDir.
Proof.
  unfold SyncService.copyFilesFromWorkingDir, SyncService.mirrorToLive,
    GitService.getWorkingDirectory, SyncService.getUserSettingsPath, config,
    emit.
  unchanged.
Qed.

Lemma silent_pushExtensions :
  Steps (unchanged errorsShown) ExtensionService.pushExtensions.
Proof.
  unfold ExtensionService.pushExtensions,
    ExtensionService.saveExtensionsToFile,
    ExtensionService.getCurrentExtensions, config, emit.
  unchanged.
Qed.

Lemma silent_pullExtensions :
  Steps (unchanged errorsShown) ExtensionService.pullExtensions.
Proof.
  unfold ExtensionService.pullExtensions,
    ExtensionService.readSyncedExtensions,
    ExtensionService.installMissingExtensions,
    ExtensionService.removeExtraExtensions,
    ExtensionService.installExtension,
    ExtensionService.uninstallExtension, config, emit.
  unchanged.
Qed.

Lemma silent_git_initialize :
  Steps (unchanged errorsShown) GitService.initialize.
Proof. unfold GitService.initialize, config. unchanged. Qed.

Lemma reportAs_shown pfx m w e :
  fst (reportAs pfx m w) = Err e ->
  String.prefix pfx e = true /\
  last (trace (host (snd (reportAs pfx m w)))) = Some (ObsShowError e).
Proof.
  unfold reportAs, tryCatch, bind, emit, modify, throw.
  destruct (m w) as [[[]|e0] w1]; cbn; [discriminate|].
  intros [= <-]. split; [apply prefix_append | apply last_snoc].
Qed.

Lemma git_push_initialized w :
  initialized (git w) = true ->
  exists m,
    GitService.push w
      = reportAs "Failed to push changes: " m (snd (emit (ObsCall CGitPush) w)).
Proof.
  intros Hinit. eexists.
  unfold GitService.push, GitService.isInitialized.
  unfold bind at 1, emit at 1, modify at 1. cbn beta iota.
  unfold bind at 1, gets at 1. cbn beta iota.
  cbn [git withHost]. rewrite Hinit. cbn [negb]. reflexivity.
Qed.

Lemma git_forcePush_initialized w :
  initialized (git w) = true ->
  exists m,
    GitService.forcePush w
      = reportAs "Failed to force push changes: " m
          (snd (emit (ObsCall CGitForcePush) w)).
Proof.
  intros Hinit. eexists.
  unfold GitService.forcePush, GitService.isInitialized.
  unfold bind at 1, emit at 1, modify at 1. cbn beta iota.
  unfold bind at 1, gets at 1. cbn beta iota.
  cbn [git withHost]. rewrite Hinit. cbn [negb]. reflexivity.
Qed.

(** ** The initialisation of the git service *)

(** What one run of [GitService.initialize] does to the flag and to the
    file system. *)
Lemma git_initialize_result (w : World) :
  let w' := snd (GitService.initialize w) in
  (fst (GitService.initialize w) = Ok tt -> initialized (git w') = true) /\
  (forall e, fst (GitService.initialize w) = Err e ->
     initialized (git w') = initialized (git w) /\
     (repositoryUrl (cfg (host w)) <> "" ->
      String.prefix "Failed to initialize git: " e = true)) /\
  (fs (host w') = fs (host w) \/
   fs (host w') = <[gitDir w := Raw ""]> (fs (host w))) /\
  ahead (git w') = ahead (git w).
Proof.
  cbv zeta. unfold gitDir.
  unfold GitService.initialize, GitService.gitCmd, GitService.effect, config,
    tryCatch, bind, gets, emit, modify, ask, ret, throw.
  cbn beta iota.
  cbn [host git withHost withGit setTrace setAnswers answers cfg fst snd].
  destruct (String.eqb (repositoryUrl (cfg (host w))) "") eqn:Hurl.
  - split; [discriminate|]. split; [|split; [by left | reflexivity]].
    intros e _. split; [reflexivity|]. intros Hne.
    apply String.eqb_eq in Hurl. contradiction.
  - destruct (existsSync _ w); cbn; ask_all.
    all: split; [first [reflexivity | discriminate]|].
    all: split; [|split; [first [by left | by right] | reflexivity]].
    all: intros e He; try discriminate; injection He as <-.
    all: split; [reflexivity | intros _; apply prefix_append].
Qed.

(** X1: without a repository URL [GitService.initialize] throws 'Git
    repository URL is not configured' and touches nothing.  A run that
    returns normally leaves the service initialised.  A run that throws
    leaves the [initialized] flag and the unpushed commits as they were (a
    service that was initialised stays so), and with a URL configured its
    error starts with 'Failed to initialize git: '; the creation of the
    working directory, which comes before the [try] block, is taken to
    succeed. *)
Theorem git_initialize_outcome (w : World) :
  let w' := snd (GitService.initialize w) in
  (repositoryUrl (cfg (host w)) = "" ->
   GitService.initialize w = (Err "Git repository URL is not configured", w)) /\
  (fst (GitService.initialize w) = Ok tt -> initialized (git w') = true) /\
  (forall e, fst (GitService.initialize w) = Err e ->
     initialized (git w') = initialized (git w) /\
     ahead (git w') = ahead (git w) /\
     (repositoryUrl (cfg (host w)) <> "" ->
      String.prefix "Failed to initialize git: " e = true)).
Proof.
  cbv zeta. split.
  - intros Hurl. unfold GitService.initialize, config, bind, gets, throw.
    cbn beta iota. by rewrite Hurl.
  - destruct (git_initialize_result w) as (Hok & Herr & _ & Hahead).
    split; [exact Hok|]. intros e He. destruct (Herr e He) as [Hi Hp].
    by repeat split.
Qed.

Lemma git_initialize_outcome_witness :
  initialized (git (snd (GitService.initialize
     (idleWorld [(OGit Fetch, [false])])))) = true /\
  String.prefix "Failed to initialize git: "
    "Failed to initialize git: git fetch failed" = true /\
  initialized (git (snd (GitService.initialize
     (startWorld ∅ [(OGit Checkout, [false])])))) = true.
Proof.
  destruct (proj2 (proj2 (git_initialize_outcome
    (idleWorld [(OGit Fetch, [false])])))
    "Failed to initialize git: git fetch failed" eq_refl) as (Hkept & _ & Hp).
  split; [exact Hkept|]. split; [apply Hp; discriminate|].
  apply (proj1 (proj2 (git_initialize_outcome
    (startWorld ∅ [(OGit Checkout, [false])])))).
  reflexivity.
Defined.

(** X2: when the fetch succeeds and the checkout of the branch fails,
    [GitService.initialize] creates the branch and tries to pull it; it
    returns normally and marks the service initialised whatever that pull
    answers.  When the creation of the branch fails too, it throws after
    these three commands and leaves the flag as it was.  A missing
    repository is created first, with [init] and [addRemote]. *)
Theorem git_initialize_new_branch (w : World) :
  let w' := snd (GitService.initialize w) in
  let setup := if existsSync (gitDir w) w then [] else [Init; AddRemote] in
  repositoryUrl (cfg (host w)) <> "" ->
  (existsSync (gitDir w) w = false ->
   answerAt (OGit Init) 0 w = true /\ answerAt (OGit AddRemote) 0 w = true) ->
  answerAt (OGit Fetch) 0 w = true ->
  answerAt (OGit Checkout) 0 w = false ->
  (answerAt (OGit CheckoutLocalBranch) 0 w = true ->
   fst (GitService.initialize w) = Ok tt /\ initialized (git w') = true /\
   gitGrow (setup ++ [Fetch; Checkout; CheckoutLocalBranch; PullOrigin]) w w') /\
  (answerAt (OGit CheckoutLocalBranch) 0 w = false ->
   (exists e, fst (GitService.initialize w) = Err e) /\
   initialized (git w') = initialized (git w) /\
   gitGrow (setup ++ [Fetch; Checkout; CheckoutLocalBranch]) w w').
Proof.
  cbv zeta. intros Hurl Hsetup Hfetch Hco.
  apply String.eqb_neq in Hurl.
  unfold answerAt in *. cbn in Hsetup, Hfetch, Hco |- *.
  unfold gitGrow, gitDir in *.
  unfold GitService.initialize, GitService.gitCmd, GitService.effect, config,
    tryCatch, bind, gets, emit, modify, ask, ret, throw.
  cbn beta iota.
  cbn [host git withHost withGit setTrace setAnswers answers cfg fst snd].
  rewrite Hurl.
  destruct (existsSync _ w); cbn.
  - rewrite Hfetch. cbn. rewrite Hco. cbn.
    split; intros Hb; rewrite Hb; cbn.
    + destruct (hd true (answers (host w) (OGit PullOrigin))); cbn;
        git_trace; by repeat split.
    + split; [eauto|]. split; [reflexivity|]. git_trace. reflexivity.
  - destruct (Hsetup eq_refl) as [Hinit Hremote].
    rewrite Hinit. cbn. rewrite Hremote. cbn.
    rewrite Hfetch. cbn. rewrite Hco. cbn.
    split; intros Hb; rewrite Hb; cbn.
    + destruct (hd true (answers (host w) (OGit PullOrigin))); cbn;
        git_trace; by repeat split.
    + split; [eauto|]. split; [reflexivity|]. git_trace. reflexivity.
Qed.

Lemma git_initialize_new_branch_witness :
  fst (GitService.initialize
         (startWorld ∅ [(OGit Checkout, [false]); (OGit PullOrigin, [false])]))
    = Ok tt /\
  gitCmdsOf (trace (host (snd (GitService.initialize
         (startWorld ∅ [(OGit Checkout, [false]); (OGit PullOrigin, [false])])))))
    = [Init; AddRemote; Fetch; Checkout; CheckoutLocalBranch; PullOrigin].
Proof.
  destruct (proj1 (git_initialize_new_branch
    (startWorld ∅ [(OGit Checkout, [false]); (OGit PullOrigin, [false])])
    ltac:(discriminate) ltac:(intros _; split; reflexivity) eq_refl eq_refl)
    eq_refl) as (Hok & _ & Hcmds).
  split; [exact Hok | exact Hcmds].
Defined.

(** The commands of one run of [GitService.initialize]. *)
Lemma git_initialize_commands (w : World) :
  repositoryUrl (cfg (host w)) <> "" ->
  exists cmds,
    gitGrow cmds w (snd (GitService.initialize w)) /\
    (existsSync (gitDir w) w = true -> (Init ∉ cmds) /\ (AddRemote ∉ cmds)) /\
    (existsSync (gitDir w) w = false -> exists rest, cmds = Init :: rest) /\
    (fst (GitService.initialize w) = Ok tt ->
     existsSync (gitDir w) (snd (GitService.initialize w)) = true).
Proof.
  intros Hurl. apply String.eqb_neq in Hurl.
  unfold gitGrow, gitDir, existsSync.
  unfold GitService.initialize, GitService.gitCmd, GitService.effect, config,
    tryCatch, bind, gets, emit, modify, ask, ret, throw.
  cbn beta iota.
  cbn [host git withHost withGit setTrace setAnswers answers cfg fst snd].
  rewrite Hurl. unfold existsSync.
  destruct (bool_decide (is_Some (fs (host w) !! _))) eqn:Hrepo; cbn.
  - ask_all.
    all: eexists; split; [git_trace; reflexivity|].
    all: split; [intros _; split; intros Hin;
                 repeat (apply elem_of_cons in Hin as [Hin|Hin];
                         [discriminate|]); by inversion Hin|].
    all: split; [discriminate|].
    all: intros _; exact Hrepo.
  - ask_all.
    all: eexists; split; [git_trace; reflexivity|].
    all: split; [discriminate|].
    all: split; [eauto|].
    all: try discriminate.
    all: intros _; apply bool_decide_eq_true_2; rewrite lookup_insert_eq; eauto.
Qed.

(** X3: [GitService.initialize] sends [init] and [addRemote] exactly when
    the working directory holds no [.git]: with one it sends neither,
    without one [init] is its first command.  After a run that returns
    normally the [.git] entry exists, so that a second run sends neither
    [init] nor [addRemote]. *)
Theorem git_initialize_creates_repository_once (w : World) :
  let w' := snd (GitService.initialize w) in
  repositoryUrl (cfg (host w)) <> "" ->
  (exists cmds,
     gitGrow cmds w w' /\
     (existsSync (gitDir w) w = true -> (Init ∉ cmds) /\ (AddRemote ∉ cmds)) /\
     (existsSync (gitDir w) w = false -> exists rest, cmds = Init :: rest)) /\
  (fst (GitService.initialize w) = Ok tt ->
   existsSync (gitDir w) w' = true /\
   exists again,
     gitGrow again w' (snd (GitService.initialize w')) /\
     (Init ∉ again) /\ (AddRemote ∉ again)).
Proof.
  cbv zeta. intros Hurl.
  destruct (git_initialize_commands w Hurl) as (cmds & Hgrow & Hold & Hnew & Hdir).
  split; [exists cmds; split; [exact Hgrow | split; [exact Hold | exact Hnew]]|].
  intros Hok. specialize (Hdir Hok). split; [exact Hdir|].
  pose proof (quiet_git_initialize w) as Hq. unfold quiet, control in Hq.
  injection Hq as _ _ _ _ Hcfg _ _ _.
  set (w' := snd (GitService.initialize w)) in *.
  assert (Hsame : gitDir w' = gitDir w) by (unfold gitDir; by rewrite Hcfg).
  destruct (git_initialize_commands w') as (again & Hgrow2 & Hold2 & _).
  { by rewrite Hcfg. }
  exists again. split; [exact Hgrow2|]. apply Hold2. by rewrite Hsame.
Qed.

Lemma git_initialize_creates_repository_once_witness :
  gitCmdsOf (trace (host (snd (GitService.initialize (startWorld ∅ [])))))
    = [Init; AddRemote; Fetch; Checkout] /\
  existsSync "/home/u/settings-sync/.git"
    (snd (GitService.initialize (startWorld ∅ []))) = true.
Proof.
  destruct (git_initialize_creates_repository_once (startWorld ∅ []))
    as [_ Hagain]; [discriminate|].
  split; [reflexivity|]. apply (proj1 (Hagain eq_refl)).
Defined.

(** ** Pushes that fail *)

(** X4: when the push of [GitService.push] is rejected, the hard reset
    succeeds and the user does not pick 'Pull and Retry', [push] throws
    'Failed to push changes: Push failed to <url> (<branch>)' after the
    commands add, commit, push and [reset --hard HEAD~1] (behind the pull
    when [pullBeforePush] is set), and has shown two messages: the prompt
    and the final error.  The reset is sent whether or not the commit
    recorded anything: the number of unpushed commits is as before when it
    did, and one less when it did not. *)
Theorem push_cancelled (w : World) :
  let c := cfg (host w) in
  let w' := snd (GitService.push w) in
  initialized (git w) = true ->
  (pullBeforePush c = true -> answerAt (OGit PullRebase) 0 w = true) ->
  answerAt (OGit Add) 0 w = true ->
  answerAt (OGit Commit) 0 w = true ->
  answerAt (OGit Push) 0 w = false ->
  answerAt (OGit ResetHardPrev) 0 w = true ->
  answerAt PullAndRetry 0 w = false ->
  fst (GitService.push w)
    = Err ("Failed to push changes: " +:+ pushCancelledError c) /\
  gitGrow (pullFirst c ++ [Add; Commit; Push; ResetHardPrev]) w w' /\
  errorsShown w'
    = errorsShown w
        ++ [pushRejectedPrompt c;
            "Failed to push changes: " +:+ pushCancelledError c] /\
  ahead (git w')
    = (if answerAt StagedChanges 0 w then ahead (git w)
       else Nat.pred (ahead (git w))).
Proof.
  cbv zeta. unfold answerAt, gitGrow, errorsShown, pullFirst,
    pushRejectedPrompt, pushCancelledError.
  intros Hinit Hpull Hadd Hcommit Hpush Hreset Hchoice.
  unfold GitService.push, GitService.isInitialized, GitService.onPushRejected,
    GitService.pullAndRetry, GitService.gitCmd, GitService.effect, config.
  unfold tryCatch, bind, gets, emit, modify, ask, ret, throw.
  cbn beta iota. cbn [host git withHost withGit setTrace setAnswers answers
    initialized cfg fst snd]. rewrite Hinit. cbn [negb].
  cbn in Hpull, Hadd, Hcommit, Hpush, Hreset, Hchoice |- *.
  destruct (pullBeforePush (cfg (host w))) eqn:Hpb; cbn.
  - rewrite (Hpull eq_refl). cbn. rewrite Hadd. cbn. rewrite Hcommit. cbn.
    destruct (hd true (answers (host w) StagedChanges)); cbn;
      rewrite Hpush; cbn; rewrite Hreset; cbn; rewrite Hchoice; cbn;
      git_trace; shown_trace; by repeat split.
  - rewrite Hadd. cbn. rewrite Hcommit. cbn.
    destruct (hd true (answers (host w) StagedChanges)); cbn;
      rewrite Hpush; cbn; rewrite Hreset; cbn; rewrite Hchoice; cbn;
      git_trace; shown_trace; by repeat split.
Qed.

Lemma push_cancelled_witness :
  fst (GitService.push
         (idleWorld [(OGit Push, [false]); (PullAndRetry, [false])]))
    = Err "Failed to push changes: Push failed to https://github.com/user/settings.git (main)" /\
  ahead (git (snd (GitService.push
         (idleWorld [(OGit Push, [false]); (PullAndRetry, [false])]))))
    = 0%nat.
Proof.
  destruct (push_cancelled
    (idleWorld [(OGit Push, [false]); (PullAndRetry, [false])])
    eq_refl ltac:(discriminate) eq_refl eq_refl eq_refl eq_refl eq_refl)
    as (Herr & _ & _ & Hahead).
  split; [exact Herr | exact Hahead].
Defined.

(** X5: with [pullBeforePush] set, a pull that fails ends
    [GitService.push] at once: [pull --rebase] is the only command sent,
    nothing is staged or committed, the repository and the files are as
    before, and the error, behind 'Failed to push changes: ', is shown
    once. *)
Theorem push_aborts_before_commit (w : World) :
  let w' := snd (GitService.push w) in
  initialized (git w) = true ->
  pullBeforePush (cfg (host w)) = true ->
  answerAt (OGit PullRebase) 0 w = false ->
  (exists cause,
     fst (GitService.push w) = Err ("Failed to push changes: " +:+ cause) /\
     errorsShown w' = errorsShown w ++ ["Failed to push changes: " +:+ cause]) /\
  gitGrow [PullRebase] w w' /\
  git w' = git w /\
  fs (host w') = fs (host w).
Proof.
  cbv zeta. unfold answerAt, gitGrow, errorsShown.
  intros Hinit Hpb Hpull.
  unfold GitService.push, GitService.isInitialized, GitService.onPushRejected,
    GitService.pullAndRetry, GitService.gitCmd, GitService.effect, config.
  unfold tryCatch, bind, gets, emit, modify, ask, ret, throw.
  cbn beta iota. cbn [host git withHost withGit setTrace setAnswers answers
    initialized cfg fst snd]. rewrite Hinit. cbn [negb].
  cbn in Hpull |- *. rewrite Hpb. cbn. rewrite Hpull. cbn.
  split; [eexists; split; [reflexivity|]; shown_trace; reflexivity|].
  git_trace. by repeat split.
Qed.

Lemma push_aborts_before_commit_witness :
  gitCmdsOf (trace (host (snd (GitService.push
    (withHost (setCfg pullFirstConfig)
       (idleWorld [(OGit PullRebase, [false])]))))))
  = [PullRebase] /\
  ahead (git (snd (GitService.push
    (withHost (setCfg pullFirstConfig)
       (idleWorld [(OGit PullRebase, [false])])))))
  = 0%nat.
Proof.
  destruct (push_aborts_before_commit
    (withHost (setCfg pullFirstConfig) (idleWorld [(OGit PullRebase, [false])]))
    eq_refl eq_refl eq_refl) as (_ & Hcmds & Hgit & _).
  split; [exact Hcmds | by rewrite Hgit].
Defined.

(** X6: every error that [GitService.push] or [GitService.forcePush]
    throws on an initialised service, and every error that
    [SyncService.forcePush] or [SyncService.forcePull] throws, carries the
    prefix of its method and is the last thing the run did: the message
    thrown is the message shown with [showErrorMessage].  Before the git
    service is initialised [GitService.push] throws 'Git service not
    initialized' and shows nothing. *)
Theorem failures_are_shown (w : World) (e : string) :
  let reported (prefix : string) (w' : World) :=
    String.prefix prefix e = true /\
    last (trace (host w')) = Some (ObsShowError e) in
  (initialized (git w) = true -> fst (GitService.push w) = Err e ->
   reported "Failed to push changes: " (snd (GitService.push w))) /\
  (initialized (git w) = true -> fst (GitService.forcePush w) = Err e ->
   reported "Failed to force push changes: " (snd (GitService.forcePush w))) /\
  (fst (SyncService.forcePush w) = Err e ->
   reported "Force push failed: " (snd (SyncService.forcePush w))) /\
  (fst (SyncService.forcePull w) = Err e ->
   reported "Force pull failed: " (snd (SyncService.forcePull w))) /\
  (initialized (git w) = false ->
   GitService.push w
     = (Err "Git service not initialized", snd (emit (ObsCall CGitPush) w))).
Proof.
  cbv zeta.
  split; [|split; [|split; [|split]]].
  - intros Hinit. destruct (git_push_initialized w Hinit) as [m ->].
    apply reportAs_shown.
  - intros Hinit. destruct (git_forcePush_initialized w Hinit) as [m ->].
    apply reportAs_shown.
  - apply (reportAs_shown "Force push failed: ").
  - apply (reportAs_shown "Force pull failed: ").
  - intros Hinit. unfold GitService.push, GitService.isInitialized,
      bind, gets, emit, modify, throw. cbn. rewrite Hinit. reflexivity.
Qed.

Lemma failures_are_shown_witness :
  last (trace (host (snd (GitService.push
    (idleWorld [(OGit Commit, [false])])))))
  = Some (ObsShowError "Failed to push changes: git commit failed").
Proof.
  apply (proj1 (failures_are_shown (idleWorld [(OGit Commit, [false])])
    "Failed to push changes: git commit failed")); reflexivity.
Defined.

Lemma hasChanges_clean w :
  answerAt TreeDirty 0 w = false ->
  fst (GitService.hasChanges w) <> Ok true.
Proof.
  unfold answerAt. cbn. intros Hclean.
  unfold GitService.hasChanges, GitService.gitCmd, GitService.effect,
    bind, gets, emit, modify, ask, ret, throw.
  cbn beta iota. destruct (initialized (git w)); cbn; [|discriminate].
  destruct (hd true (answers (host w) (OGit Status))); cbn; [|discriminate].
  rewrite Hclean. discriminate.
Qed.

Lemma silent_syncBody_clean w :
  answerAt TreeDirty 0 w = false ->
  errorsShown (snd (SyncService.syncBody w)) = errorsShown w.
Proof.
  intros Hclean. unfold SyncService.syncBody, bind.
  pose proof (hasChanges_clean w Hclean) as Hne.
  pose proof (silent_hasChanges w) as H0.
  destruct (GitService.hasChanges w) as [[[]|e] w1]; cbn in *;
    [congruence| |exact H0].
  rewrite <- H0.
  assert (Hrest : Steps (unchanged errorsShown)
            (GitService.pull ;;
             hasRemoteChanges <- GitService.hasChanges ;;
             if hasRemoteChanges
             then SyncService.copyFilesFromWorkingDir ;;
                  ExtensionService.pullExtensions
             else ret tt)).
  { pose proof silent_pull. pose proof silent_hasChanges.
    pose proof silent_copyFilesFromWorkingDir.
    pose proof silent_pullExtensions. unchanged. }
  apply Hrest.
Qed.

(** X7: [GitService.pull] and [GitService.forcePull] never show an error
    message, nor does the start-up pull of [initialize].  When the working
    tree is clean at the start of [sync], so that [sync] pulls, no message
    is shown whatever fails on the way: the pull, the mirror to the live
    directory or the extension pull. *)
Theorem pull_failures_are_silent (w : World) :
  errorsShown (snd (GitService.pull w)) = errorsShown w /\
  errorsShown (snd (GitService.forcePull w)) = errorsShown w /\
  errorsShown (snd (SyncService.initialPull w)) = errorsShown w /\
  (answerAt TreeDirty 0 w = false ->
   errorsShown (snd (SyncService.sync w)) = errorsShown w).
Proof.
  split; [apply silent_pull|]. split; [apply silent_git_forcePull|].
  split.
  - pose proof silent_pull. pose proof silent_hasChanges.
    pose proof silent_copyFilesFromWorkingDir.
    pose proof silent_pullExtensions.
    assert (H' : Steps (unchanged errorsShown) SyncService.initialPull)
      by (unfold SyncService.initialPull; unchanged).
    apply H'.
  - intros Hclean.
    unfold SyncService.sync, GitService.isInitialized.
    unfold bind at 1, gets at 1. cbn beta iota.
    destruct (isEnabled (svc w)); cbn [negb]; [|reflexivity].
    unfold bind at 1, gets at 1. cbn beta iota.
    destruct (isSyncing (svc w)); [reflexivity|].
    unfold bind at 1, gets at 1. cbn beta iota.
    destruct (initialized (git w)); cbn [negb]; [|reflexivity].
    unfold tryFinally. rewrite tryCatch_rethrow.
    unfold bind at 1, modify at 1. cbn beta iota.
    pose proof (silent_syncBody_clean (withSvc (setIsSyncing true) w) Hclean)
      as Hb.
    destruct (SyncService.syncBody _) as [r w1]. cbn [snd] in *.
    exact Hb.
Qed.

Lemma pull_failures_are_silent_witness :
  errorsShown (snd (SyncService.sync
    (idleWorld [(TreeDirty, [false]); (OGit PullRebase, [false])]))) = [] /\
  fst (SyncService.sync
    (idleWorld [(TreeDirty, [false]); (OGit PullRebase, [false])]))
  = Err "Failed to pull changes: git pull --rebase failed".
Proof.
  split; [|reflexivity].
  apply (proj2 (proj2 (proj2 (pull_failures_are_silent
    (idleWorld [(TreeDirty, [false]); (OGit PullRebase, [false])]))))).
  reflexivity.
Defined.

(** ** Reinitialising the repository *)

Lemma underDir_gitDir w :
  workingDirectory (cfg (host w)) <> "" ->
  underDir (workingDirectory (cfg (host w))) (gitDir w) = true.
Proof.
  intros Hne. unfold underDir, gitDir, path_join.
  apply String.eqb_neq in Hne. rewrite Hne. cbn.
  rewrite prefix_app by reflexivity. apply orb_true_r.
Qed.

Lemma rmTree_under dir m p : underDir dir p = true -> rmTree dir m !! p = None.
Proof.
  intros Hu. unfold rmTree. apply map_lookup_filter_None. right.
  intros x _. cbn. congruence.
Qed.

Lemma rmTree_outside dir m p :
  underDir dir p = false -> rmTree dir m !! p = m !! p.
Proof.
  intros Hu. unfold rmTree.
  destruct (m !! p) as [x|] eqn:Hp.
  - apply map_lookup_filter_Some. by split.
  - apply map_lookup_filter_None. by left.
Qed.

Lemma dirExists_false dir w p :
  dirExists dir w = false -> underDir dir p = true -> fs (host w) !! p = None.
Proof.
  unfold dirExists. intros He Hu.
  destruct (fs (host w) !! p) as [x|] eqn:Hp; [|reflexivity].
  apply elem_of_map_to_list in Hp.
  assert (existsb (fun kv : string * Content => underDir dir kv.1)
            (map_to_list (fs (host w))) = true); [|congruence].
  apply existsb_exists. exists (p, x). split; [|exact Hu].
  by apply list_elem_of_In.
Qed.

(** [reinitialize] behind its [catch]: the removal, the reset of the flag
    and [initialize]. *)
Lemma reinitialize_unfold w :
  GitService.reinitialize w =
    reportAs "Failed to reinitialize repository: "
      (workingDir <- GitService.getWorkingDirectory ;;
       present <- gets (dirExists workingDir) ;;
       (if present
        then
          ok <- ask WriteIO ;;
          if ok
          then
            modify (withHost (fun h => setFs (rmTree workingDir (fs h)) h)) ;;
            modify (withGit (setAhead 0%nat))
          else throw "EACCES: permission denied"
        else ret tt) ;;
       modify (withGit (setInitialized false)) ;;
       GitService.initialize) w.
Proof. reflexivity. Qed.

Lemma reinitialize_cleared w :
  removalFails w = false ->
  GitService.reinitialize w
    = reportAs "Failed to reinitialize repository: " GitService.initialize
        (cleared w).
Proof.
  unfold removalFails, answerAt. cbn. intros Hrm.
  rewrite reinitialize_unfold.
  unfold reportAs, cleared, tryCatch, GitService.getWorkingDirectory.
  unfold bind at 1, gets at 1. cbn beta iota.
  unfold bind at 1, gets at 1. cbn beta iota.
  destruct (dirExists _ w); cbn in Hrm |- *.
  - apply negb_false_iff in Hrm.
    unfold bind at 1. unfold bind at 1, ask at 1. cbn beta iota.
    rewrite Hrm. unfold bind at 1, modify at 1. cbn beta iota.
    unfold modify at 1. cbn beta iota.
    unfold bind at 1, modify at 1. cbn beta iota. reflexivity.
  - unfold bind at 1, ret at 1. cbn beta iota.
    unfold bind at 1, modify at 1. cbn beta iota. reflexivity.
Qed.

Lemma reinitialize_refused w :
  removalFails w = true ->
  GitService.reinitialize w
    = (Err "Failed to reinitialize repository: EACCES: permission denied",
       snd (emit (ObsShowError
              "Failed to reinitialize repository: EACCES: permission denied")
              (snd (ask WriteIO w)))).
Proof.
  unfold removalFails, answerAt. cbn. intros Hrm.
  apply andb_true_iff in Hrm as [Hd Hio]. apply negb_true_iff in Hio.
  rewrite reinitialize_unfold.
  unfold reportAs, tryCatch, GitService.getWorkingDirectory.
  unfold bind at 1, gets at 1. cbn beta iota.
  unfold bind at 1, gets at 1. cbn beta iota.
  rewrite Hd.
  unfold bind at 1. unfold bind at 1, ask at 1. cbn beta iota.
  rewrite Hio. reflexivity.
Qed.

Lemma reinitialize_fs w :
  removalFails w = false ->
  fs (host (snd (GitService.reinitialize w)))
    = fs (host (snd (GitService.initialize (cleared w)))).
Proof.
  intros Hrm. rewrite (reinitialize_cleared w Hrm).
  unfold reportAs, tryCatch, bind, emit, modify, throw.
  destruct (GitService.initialize (cleared w)) as [[[]|e0] w1]; reflexivity.
Qed.

Lemma cleared_empty w p :
  underDir (workingDirectory (cfg (host w))) p = true ->
  fs (host (cleared w)) !! p = None.
Proof.
  intros Hu. unfold cleared. destruct (dirExists _ w) eqn:Hd; cbn.
  - by apply rmTree_under.
  - by apply (dirExists_false _ _ _ Hd).
Qed.

Lemma cleared_cfg w : cfg (host (cleared w)) = cfg (host w).
Proof. unfold cleared. destruct (dirExists _ w); reflexivity. Qed.

Lemma cleared_trace w : trace (host (cleared w)) = trace (host w).
Proof. unfold cleared. destruct (dirExists _ w); reflexivity. Qed.

Lemma silent_cleared w : errorsShown (cleared w) = errorsShown w.
Proof. unfold errorsShown. by rewrite cleared_trace. Qed.

Lemma quiet_reinitialize : Steps quiet GitService.reinitialize.
Proof.
  unfold GitService.reinitialize, GitService.getWorkingDirectory.
  pose proof quiet_git_initialize. quiet.
Qed.

Lemma reinitialize_shows w e :
  fst (GitService.reinitialize w) = Err e ->
  errorsShown (snd (GitService.reinitialize w)) = errorsShown w ++ [e].
Proof.
  destruct (removalFails w) eqn:Hrm.
  - rewrite (reinitialize_refused w Hrm). cbn. intros [= <-].
    unfold errorsShown. cbn. rewrite errorsShownOf_app. reflexivity.
  - rewrite (reinitialize_cleared w Hrm).
    pose proof (silent_git_initialize (cleared w)) as Hs.
    unfold unchanged in Hs. rewrite silent_cleared in Hs.
    unfold reportAs, tryCatch, bind, emit, modify, throw.
    destruct (GitService.initialize (cleared w)) as [[[]|e0] w1]; cbn in *;
      [discriminate|].
    intros [= <-]. unfold errorsShown in *. cbn.
    rewrite errorsShownOf_app, Hs. reflexivity.
Qed.

(** X8: [GitService.reinitialize] returns normally only with the service
    initialised.  When it throws, the error starts with 'Failed to
    reinitialize repository: ', it is the last message shown, and the
    service is left not initialised, unless the removal of the working
    directory was refused: then nothing was removed, and the flag and the
    repository are as before. *)
Theorem reinitialize_outcome (w : World) :
  let w' := snd (GitService.reinitialize w) in
  (fst (GitService.reinitialize w) = Ok tt -> initialized (git w') = true) /\
  (forall e, fst (GitService.reinitialize w) = Err e ->
     String.prefix "Failed to reinitialize repository: " e = true /\
     last (trace (host w')) = Some (ObsShowError e) /\
     initialized (git w')
       = (if removalFails w then initialized (git w) else false)) /\
  (removalFails w = true ->
   fst (GitService.reinitialize w)
     = Err "Failed to reinitialize repository: EACCES: permission denied" /\
   fs (host w') = fs (host w) /\ git w' = git w).
Proof.
  cbv zeta. destruct (removalFails w) eqn:Hrm.
  - rewrite (reinitialize_refused w Hrm). cbn.
    split; [discriminate|]. split; [|by repeat split].
    intros e [= <-]. split; [reflexivity|]. split; [apply last_snoc | reflexivity].
  - rewrite (reinitialize_cleared w Hrm).
    pose proof (git_initialize_result (cleared w)) as (Hok & Herr & _).
    cbv zeta in Hok, Herr.
    assert (Hc : initialized (git (cleared w)) = false) by reflexivity.
    split; [|split; [|discriminate]].
    + unfold reportAs, tryCatch in *.
      destruct (GitService.initialize (cleared w)) as [[[]|e0] w1]; cbn in *;
        [intros _; by apply Hok | discriminate].
    + intros e He. destruct (reportAs_shown _ _ _ _ He) as [Hp Hl].
      split; [exact Hp|]. split; [exact Hl|].
      unfold reportAs, tryCatch, bind, emit, modify, throw in *.
      destruct (GitService.initialize (cleared w)) as [[[]|e0] w1]; cbn in *;
        [discriminate|].
      destruct (Herr e0 eq_refl) as [Hi _]. congruence.
Qed.

Lemma reinitialize_outcome_witness :
  initialized (git (snd (GitService.reinitialize
         (repositoryWorld [(OGit Fetch, [false])])))) = false /\
  fs (host (snd (GitService.reinitialize
         (repositoryWorld [(WriteIO, [false])]))))
    = fs (host (repositoryWorld [(WriteIO, [false])])).
Proof.
  split.
  - destruct (proj1 (proj2 (reinitialize_outcome
      (repositoryWorld [(OGit Fetch, [false])])))
      "Failed to reinitialize repository: Failed to initialize git: git fetch failed"
      ltac:(vm_compute; reflexivity)) as (_ & _ & Hflag).
    rewrite Hflag. vm_compute. reflexivity.
  - apply (proj2 (proj2 (reinitialize_outcome
      (repositoryWorld [(WriteIO, [false])])))).
    vm_compute. reflexivity.
Defined.

(** X9: when the removal of the working directory is not refused,
    [GitService.reinitialize] runs [initialize] over an empty working
    directory and a git service that is not initialised: no file of the old
    working directory is left when [initialize] starts, and the local
    commits went with it.  What [fetch] and [checkout] then bring into the
    working directory is the remote's and is not described here.  The
    files outside the working directory are as before when the run ends,
    and with a working directory and a repository URL configured the first
    git command of the run is [init], whatever repository the directory
    held. *)
Theorem reinitialize_starts_from_scratch (w : World) :
  let w' := snd (GitService.reinitialize w) in
  let workingDir := workingDirectory (cfg (host w)) in
  removalFails w = false ->
  GitService.reinitialize w
    = reportAs "Failed to reinitialize repository: " GitService.initialize
        (cleared w) /\
  (forall p, underDir workingDir p = true ->
             fs (host (cleared w)) !! p = None) /\
  initialized (git (cleared w)) = false /\
  (dirExists workingDir w = true -> ahead (git (cleared w)) = 0%nat) /\
  (forall p, underDir workingDir p = false -> p <> gitDir w ->
             fs (host w') !! p = fs (host w) !! p) /\
  (workingDir <> "" -> repositoryUrl (cfg (host w)) <> "" ->
   exists rest, gitGrow (Init :: rest) w w').
Proof.
  cbv zeta. intros Hrm.
  pose proof (git_initialize_result (cleared w)) as (_ & _ & Hfs & _).
  cbv zeta in Hfs.
  assert (Hdir : gitDir (cleared w) = gitDir w)
    by (unfold gitDir; by rewrite cleared_cfg).
  split; [exact (reinitialize_cleared w Hrm)|].
  split; [intros p Hu; by apply cleared_empty|].
  split; [reflexivity|].
  split; [intros Hd; unfold cleared; by rewrite Hd|].
  split.
  - intros p Hu Hne. rewrite (reinitialize_fs w Hrm).
    assert (Hsame : fs (host (cleared w)) !! p = fs (host w) !! p).
    { unfold cleared. destruct (dirExists _ w); cbn; [|reflexivity].
      by apply rmTree_outside. }
    destruct Hfs as [-> | ->]; [exact Hsame|].
    rewrite lookup_insert_ne; [exact Hsame|].
    intros Heq. apply Hne. by rewrite <- Heq.
  - intros Hwd Hurl.
    destruct (git_initialize_commands (cleared w)) as (cmds & Hgrow & _ & Hnew & _).
    { by rewrite cleared_cfg. }
    destruct Hnew as [rest ->].
    { unfold existsSync. apply bool_decide_eq_false_2.
      rewrite cleared_empty; [by intros [x Hx]|].
      rewrite Hdir. by apply underDir_gitDir. }
    exists rest. unfold gitGrow in *. rewrite cleared_trace in Hgrow.
    rewrite (reinitialize_cleared w Hrm).
    unfold reportAs, tryCatch, bind, emit, modify, throw.
    destruct (GitService.initialize (cleared w)) as [[[]|e0] w1];
      cbn [fst snd host withHost setTrace trace] in *.
    + exact Hgrow.
    + rewrite gitCmdsOf_app, Hgrow. cbn. by rewrite app_nil_r.
Qed.

Lemma reinitialize_starts_from_scratch_witness :
  fs (host (cleared (repositoryWorld [])))
    !! "/home/u/settings-sync/settings.json" = None /\
  fs (host (snd (GitService.reinitialize (repositoryWorld []))))
    !! "/home/u/.config/Code/User/settings.json" = Some (Raw "{}") /\
  exists rest,
    gitGrow (Init :: rest) (repositoryWorld [])
      (snd (GitService.reinitialize (repositoryWorld []))).
Proof.
  destruct (reinitialize_starts_from_scratch (repositoryWorld []) eq_refl)
    as (_ & Hgone & _ & _ & Hkept & Hinit).
  split; [apply Hgone; reflexivity|].
  split; [rewrite Hkept; [reflexivity | reflexivity | discriminate]|].
  apply Hinit; discriminate.
Defined.

(** X10: a [reinitialize] that fails after the removal leaves the fields
    of the sync service and the timer table as they were (the service stays
    enabled, its timers stay armed) over a git service that is not
    initialised: from then on [sync] throws 'Git service not initialized'
    when the service is enabled and idle, [hasChanges] answers [false]
    without asking git, and [push] throws 'Git service not initialized'. *)
Theorem failed_reinitialize_blocks_sync (w : World) (e : string) :
  let w' := snd (GitService.reinitialize w) in
  fst (GitService.reinitialize w) = Err e ->
  removalFails w = false ->
  svc w' = svc w /\ timers (host w') = timers (host w) /\
  initialized (git w') = false /\
  (isEnabled (svc w) = true -> isSyncing (svc w) = false ->
   SyncService.sync w' = (Err "Git service not initialized", w')) /\
  GitService.hasChanges w'
    = (Ok false, snd (emit (ObsCall (CHasChanges false)) w')) /\
  fst (GitService.push w') = Err "Git service not initialized".
Proof.
  cbv zeta. intros He Hrm.
  pose proof (quiet_reinitialize w) as Hq. unfold quiet, control in Hq.
  injection Hq as Hsvc Htimers _ _ _ _ _ _.
  assert (Hinit : initialized (git (snd (GitService.reinitialize w))) = false).
  { rewrite (reinitialize_cleared w Hrm) in He |- *.
    pose proof (git_initialize_result (cleared w)) as (_ & Herr & _).
    cbv zeta in Herr.
    unfold reportAs, tryCatch, bind, emit, modify, throw in *.
    destruct (GitService.initialize (cleared w)) as [[[]|e0] w1]; cbn in *;
      [discriminate|].
    destruct (Herr e0 eq_refl) as [Hi _]. rewrite Hi. reflexivity. }
  clear He Hrm.
  destruct (GitService.reinitialize w) as [r w']. cbn [snd] in *.
  split; [exact Hsvc|]. split; [exact Htimers|]. split; [exact Hinit|].
  split; [|split].
  - intros Hen Hs. rewrite <- Hsvc in Hen, Hs.
    unfold SyncService.sync, GitService.isInitialized, bind, gets.
    cbn beta iota. rewrite Hen. cbn. rewrite Hs. cbn.
    rewrite Hinit. reflexivity.
  - unfold GitService.hasChanges, bind, gets. cbn beta iota.
    rewrite Hinit. reflexivity.
  - unfold GitService.push, GitService.isInitialized, bind, gets, emit, modify.
    cbn. rewrite Hinit. reflexivity.
Qed.

Lemma failed_reinitialize_blocks_sync_witness :
  fst (SyncService.sync (snd (GitService.reinitialize
         (idleWorld [(OGit Fetch, [false])]))))
    = Err "Git service not initialized".
Proof.
  destruct (failed_reinitialize_blocks_sync
    (idleWorld [(OGit Fetch, [false])])
    "Failed to reinitialize repository: Failed to initialize git: git fetch failed"
    eq_refl eq_refl) as (_ & _ & _ & Hsync & _).
  rewrite (Hsync eq_refl eq_refl). reflexivity.
Defined.

(** ** The entry points of the extension *)

(** X11: the 'reinitialize' command never throws.  Answering anything but
    'Yes' leaves the world as it was; after 'Yes' a [reinitialize] that
    returns normally is all that changed the world, and one that throws [e]
    has shown two error messages: [e] itself, then 'Failed to
    reinitialize: ' followed by [e]. *)
Theorem reinitialize_command_never_throws (yes : bool) (w : World) :
  let w' := snd (Extension.reinitializeCommand yes w) in
  fst (Extension.reinitializeCommand yes w) = Ok tt /\
  (yes = false -> w' = w) /\
  (yes = true -> fst (GitService.reinitialize w) = Ok tt ->
   w' = snd (GitService.reinitialize w)) /\
  (yes = true -> forall e, fst (GitService.reinitialize w) = Err e ->
   errorsShown w' = errorsShown w ++ [e; "Failed to reinitialize: " +:+ e]).
Proof.
  cbv zeta. unfold Extension.reinitializeCommand. destruct yes.
  - unfold tryCatch, emit, modify.
    pose proof (reinitialize_shows w) as Hshow.
    destruct (GitService.reinitialize w) as [[[]|e0] w1]; cbn in *.
    + split; [reflexivity|]. split; [discriminate|].
      split; [reflexivity | discriminate].
    + split; [reflexivity|]. split; [discriminate|].
      split; [discriminate|]. intros _ e [= <-].
      unfold errorsShown in *. cbn. rewrite errorsShownOf_app.
      rewrite (Hshow e0 eq_refl), <- app_assoc. reflexivity.
  - split; [reflexivity|]. split; [reflexivity|]. split; discriminate.
Qed.

Lemma reinitialize_command_never_throws_witness :
  errorsShown (snd (Extension.reinitializeCommand true
    (idleWorld [(OGit Fetch, [false])])))
  = ["Failed to reinitialize repository: Failed to initialize git: git fetch failed";
     "Failed to reinitialize: Failed to reinitialize repository: Failed to initialize git: git fetch failed"].
Proof.
  apply (proj2 (proj2 (proj2 (reinitialize_command_never_throws true
    (idleWorld [(OGit Fetch, [false])])))) eq_refl
    "Failed to reinitialize repository: Failed to initialize git: git fetch failed"
    eq_refl).
Defined.

(** Past [GitService.initialize], [SyncService.initialize] cannot fail. *)
Lemma sync_initialize_rest w :
  exists w',
    ((c <- config ;;
      (if pullOnLaunch c
       then tryCatch SyncService.initialPull (fun _ => ret tt)
       else ret tt) ;;
      SyncService.setupFileWatcher ;;
      SyncService.setupPeriodicSync ;;
      SyncService.setupExtensionWatcher ;;
      modify (withSvc (setIsEnabled true))) w) = (Ok tt, w') /\
    isEnabled (svc w') = true.
Proof.
  unfold config. unfold bind at 1, gets at 1. cbn beta iota.
  assert (H1 : exists w1,
            (if pullOnLaunch (cfg (host w))
             then tryCatch SyncService.initialPull (fun _ => ret tt)
             else ret tt) w = (Ok tt, w1)).
  { destruct (pullOnLaunch (cfg (host w))).
    - pose proof (swallow_ok SyncService.initialPull w) as H.
      destruct (tryCatch _ _ w) as [r w1]. cbn in H. subst r. by exists w1.
    - by exists w. }
  destruct H1 as [w1 H1]. unfold bind at 1. rewrite H1.
  destruct (setupFileWatcher_spec w1) as [Hfw _].
  unfold bind at 1.
  destruct (SyncService.setupFileWatcher w1) as [r2 w2]. cbn in Hfw. subst r2.
  destruct (setup_tail w2) as (w' & Htail & Hen & _).
  exists w'. by split.
Qed.

Lemma sync_initialize_result w :
  (forall w0, GitService.initialize w = (Ok tt, w0) ->
     exists w', SyncService.initialize w = (Ok tt, w') /\
                isEnabled (svc w') = true) /\
  (forall e w0, GitService.initialize w = (Err e, w0) ->
     SyncService.initialize w = (Err e, w0)).
Proof.
  split.
  - intros w0 H0. unfold SyncService.initialize. unfold bind at 1. rewrite H0.
    apply sync_initialize_rest.
  - intros e w0 H0. unfold SyncService.initialize. unfold bind at 1.
    by rewrite H0.
Qed.

Lemma initFlag_rest :
  Steps (unchanged initFlag)
    (c <- config ;;
     (if pullOnLaunch c
      then tryCatch SyncService.initialPull (fun _ => ret tt)
      else ret tt) ;;
     SyncService.setupFileWatcher ;;
     SyncService.setupPeriodicSync ;;
     SyncService.setupExtensionWatcher ;;
     modify (withSvc (setIsEnabled true))).
Proof. unfold_methods. unchanged. Qed.

(** X12: the start-up initialisation of [activate] never throws.  The
    status bar item is shown exactly when [GitService.initialize] returns
    normally, and then the sync service is enabled over an initialised git
    service: past [GitService.initialize], [SyncService.initialize] does
    not fail.  Otherwise (no repository URL, or a failure of the git
    initialisation) the fields of the sync service, the timer table and
    the [initialized] flag are as they were: no watcher, no timer. *)
Theorem activate_never_throws (w : World) :
  exists shown w',
    Extension.activate w = (Ok shown, w') /\
    (shown = true <-> fst (GitService.initialize w) = Ok tt) /\
    (shown = true -> isEnabled (svc w') = true /\ initialized (git w') = true) /\
    (shown = false ->
     svc w' = svc w /\ timers (host w') = timers (host w) /\
     initialized (git w') = initialized (git w)).
Proof.
  unfold Extension.activate, config. unfold bind at 1, gets at 1.
  cbn beta iota.
  destruct (String.eqb (repositoryUrl (cfg (host w))) "") eqn:Hurl.
  - exists false, w. split; [reflexivity|].
    split; [|split; [discriminate | by repeat split]].
    split; [discriminate|].
    unfold GitService.initialize, config, bind, gets. cbn beta iota.
    rewrite Hurl. discriminate.
  - pose proof (sync_initialize_result w) as [Hok Herr].
    pose proof (git_initialize_result w) as (Hflag & Hkeep & _).
    pose proof (quiet_git_initialize w) as Hq.
    cbv zeta in Hflag, Hkeep.
    destruct (GitService.initialize w) as [[[]|e] w0] eqn:Hgit.
    + destruct (Hok w0 eq_refl) as (w' & Hrun & Hen).
      exists true, w'. unfold tryCatch, bind. rewrite Hrun.
      split; [reflexivity|]. split; [done|]. split; [|discriminate].
      intros _. split; [exact Hen|].
      pose proof (initFlag_rest w0) as Hrest. unfold unchanged, initFlag in Hrest.
      unfold SyncService.initialize in Hrun. unfold bind at 1 in Hrun.
      rewrite Hgit in Hrun. rewrite Hrun in Hrest. cbn in Hrest.
      rewrite Hrest. by apply Hflag.
    + exists false, w0. unfold tryCatch, bind. rewrite (Herr e w0 eq_refl).
      split; [reflexivity|]. split; [split; discriminate|].
      split; [discriminate|]. intros _.
      unfold quiet, control in Hq. cbn in Hq.
      injection Hq as Hsvc Htimers _ _ _ _ _ _.
      split; [exact Hsvc|]. split; [exact Htimers|].
      by destruct (Hkeep e eq_refl).
Qed.

Lemma activate_never_throws_witness :
  exists w', Extension.activate (startWorld ∅ [(OGit Fetch, [false])])
             = (Ok false, w') /\ isEnabled (svc w') = false.
Proof.
  destruct (activate_never_throws (startWorld ∅ [(OGit Fetch, [false])]))
    as (shown & w' & Hrun & Hiff & _ & Hoff).
  assert (Hs : shown = false).
  { destruct shown; [|reflexivity].
    destruct Hiff as [Hiff _]. specialize (Hiff eq_refl). discriminate. }
  subst shown. exists w'. split; [exact Hrun|].
  destruct (Hoff eq_refl) as (Hsvc & _). by rewrite Hsvc.
Defined.

(** ** Timer discipline *)

#[global] Instance keepsTimers_preorder : PreOrder keepsTimers.
Proof.
  split.
  - intros w H. exact H.
  - intros a b c Hab Hbc H. apply Hbc, Hab, H.
Qed.

Lemma tracked_view w w' :
  timerView w' = timerView w -> keepsTimers w w'.
Proof.
  unfold timerView, keepsTimers, timersTracked.
  intros [= Hs Hd Ht Hn]. rewrite Hs, Hd, Ht, Hn. tauto.
Qed.

Lemma keeps_unchanged {A} (m : M A) :
  Steps (unchanged timerView) m -> Steps keepsTimers m.
Proof. intros H w. apply tracked_view, H. Qed.

(** A timer that is neither periodic nor a debounce timer may be set at
    any time. *)
Lemma tracked_setTimeout a delay w :
  isPeriodic {| tid := 0; due := 0; act := a |} = false ->
  isDebounce {| tid := 0; due := 0; act := a |} = false ->
  keepsTimers w (snd (setTimeout a delay w)).
Proof.
  intros Hp Hd (Hfresh & Hnodup & Hsync & Hdeb).
  unfold setTimeout, timersTracked. cbn.
  split; [|split; [|split]].
  - intros t Ht. apply elem_of_app in Ht as [Ht|Ht].
    + specialize (Hfresh t Ht). lia.
    + apply list_elem_of_singleton in Ht as ->. cbn. lia.
  - rewrite map_app. apply NoDup_app. split; [exact Hnodup|]. split.
    + intros x Hx Hx'. cbn in Hx'. apply list_elem_of_singleton in Hx' as ->.
      apply list_elem_of_In, in_map_iff in Hx as (t & Htid & Ht).
      apply list_elem_of_In in Ht. specialize (Hfresh t Ht). lia.
    + cbn. apply NoDup_singleton.
  - intros t Ht Hper. apply elem_of_app in Ht as [Ht|Ht]; [by apply Hsync|].
    apply list_elem_of_singleton in Ht as ->.
    unfold isPeriodic in *. cbn in *. congruence.
  - intros t Ht Hdb. apply elem_of_app in Ht as [Ht|Ht]; [by apply Hdeb|].
    apply list_elem_of_singleton in Ht as ->.
    unfold isDebounce in *. cbn in *. congruence.
Qed.

(** Removing timers keeps the discipline. *)
Lemma tracked_filter (f : Timer -> bool) w :
  keepsTimers w
    (withHost (fun h => setTimers (List.filter f (timers h)) (nextTimer h) h) w).
Proof.
  intros (Hfresh & Hnodup & Hsync & Hdeb). unfold timersTracked. cbn.
  split; [|split; [|split]].
  - intros t Ht. apply filter_subset in Ht. by apply Hfresh.
  - clear -Hnodup. induction (timers (host w)) as [|t l IH]; [constructor|].
    cbn in Hnodup. apply NoDup_cons in Hnodup as [Hnotin Hnodup].
    cbn. destruct (f t); [|by apply IH]. cbn. apply NoDup_cons.
    split; [|by apply IH].
    intros Hin. apply Hnotin.
    apply list_elem_of_In, in_map_iff in Hin as (u & Hu & Hin).
    apply list_elem_of_In, in_map_iff. exists u. split; [exact Hu|].
    apply filter_In in Hin. tauto.
  - intros t Ht Hper. apply filter_subset in Ht. by apply Hsync.
  - intros t Ht Hdb. apply filter_subset in Ht. by apply Hdeb.
Qed.

Lemma keeps_clearTimeout handle : Steps keepsTimers (clearTimeout handle).
Proof. intros w. apply tracked_filter. Qed.

Lemma keeps_releaseRemote w :
  keepsTimers w (SyncService.releaseRemoteLockLater w).
Proof. by apply tracked_setTimeout. Qed.

Lemma keeps_releaseSync w : keepsTimers w (SyncService.releaseSyncLockLater w).
Proof. by apply tracked_setTimeout. Qed.

(** Setting a timer whose handle goes into the field that tracks its
    kind, once the timers of that kind are gone from the table. *)
Lemma tracked_replace (periodic : bool) (f : Timer -> bool) (d : Z) w :
  let kind := if periodic then isPeriodic else isDebounce in
  let a := if periodic then FirePeriodic else FireDebounce in
  let store := if periodic then setSyncTimer else setDebounceTimer in
  timersTracked w ->
  (forall t, t ∈ timers (host w) -> f t = true -> kind t = false) ->
  timersTracked
    (withSvc (store (Some (nextTimer (host w))))
       (withHost
          (setTimers
             (List.filter f (timers (host w))
              ++ [{| tid := nextTimer (host w); due := d; act := a |}])
             (S (nextTimer (host w)))) w)).
Proof.
  cbv zeta. intros Htr Hgone.
  pose proof (tracked_filter f w Htr) as (Hfresh & Hnodup & Hsync & Hdeb).
  cbn in Hfresh, Hnodup, Hsync, Hdeb.
  unfold timersTracked. cbn [host svc withSvc withHost setTimers timers nextTimer].
  split; [|split; [|split]].
  - intros t Ht. apply elem_of_app in Ht as [Ht|Ht].
    + specialize (Hfresh t Ht). lia.
    + apply list_elem_of_singleton in Ht as ->. cbn. lia.
  - rewrite map_app. apply NoDup_app. split; [exact Hnodup|]. split.
    + intros x Hx Hx'. cbn in Hx'. apply list_elem_of_singleton in Hx' as ->.
      apply list_elem_of_In, in_map_iff in Hx as (t & Htid & Ht).
      apply list_elem_of_In in Ht. specialize (Hfresh t Ht). lia.
    + cbn. apply NoDup_singleton.
  - intros t Ht Hper. apply elem_of_app in Ht as [Ht|Ht].
    + destruct periodic; cbn.
      * apply list_elem_of_In, filter_In in Ht as [Ht Hf].
        apply list_elem_of_In in Ht. specialize (Hgone t Ht Hf). congruence.
      * by apply Hsync.
    + apply list_elem_of_singleton in Ht as ->.
      destruct periodic; [reflexivity|]. discriminate.
  - intros t Ht Hdb. apply elem_of_app in Ht as [Ht|Ht].
    + destruct periodic; cbn.
      * by apply Hdeb.
      * apply list_elem_of_In, filter_In in Ht as [Ht Hf].
        apply list_elem_of_In in Ht. specialize (Hgone t Ht Hf). congruence.
    + apply list_elem_of_singleton in Ht as ->.
      destruct periodic; [discriminate | reflexivity].
Qed.

Lemma keeps_setupPeriodicSync : Steps keepsTimers SyncService.setupPeriodicSync.
Proof.
  intros w. unfold SyncService.setupPeriodicSync, config.
  intros Htr.
  unfold bind, gets, modify, setTimeout, clearTimeout. cbn beta iota.
  destruct (syncTimer (svc w)) as [h|] eqn:Hf; cbn.
  - apply (tracked_replace true (fun t => negb (tid t =? h)%nat) _ w Htr).
    intros t Ht Hne. destruct (isPeriodic t) eqn:Hp; [|reflexivity].
    destruct Htr as (_ & _ & Hsync & _). specialize (Hsync t Ht Hp).
    rewrite Hf in Hsync. injection Hsync as ->.
    rewrite Nat.eqb_refl in Hne. discriminate.
  - rewrite <- (filter_all (timers (host w))).
    apply (tracked_replace true (fun _ => true) _ w Htr).
    intros t Ht _. destruct (isPeriodic t) eqn:Hp; [|reflexivity].
    destruct Htr as (_ & _ & Hsync & _). specialize (Hsync t Ht Hp).
    congruence.
Qed.

Lemma keeps_handleFileChange path :
  Steps keepsTimers (SyncService.handleFileChange path).
Proof.
  intros w. unfold SyncService.handleFileChange, config.
  intros Htr.
  unfold bind, gets, modify, setTimeout, clearTimeout. cbn beta iota.
  destruct (_ || _); [exact Htr|].
  destruct (debounceTimer (svc w)) as [h|] eqn:Hf; cbn.
  - apply (tracked_replace false (fun t => negb (tid t =? h)%nat) _ w Htr).
    intros t Ht Hne. destruct (isDebounce t) eqn:Hp; [|reflexivity].
    destruct Htr as (_ & _ & _ & Hdeb). specialize (Hdeb t Ht Hp).
    rewrite Hf in Hdeb. injection Hdeb as ->.
    rewrite Nat.eqb_refl in Hne. discriminate.
  - rewrite <- (filter_all (timers (host w))).
    apply (tracked_replace false (fun _ => true) _ w Htr).
    intros t Ht _. destruct (isDebounce t) eqn:Hp; [|reflexivity].
    destruct Htr as (_ & _ & _ & Hdeb). specialize (Hdeb t Ht Hp).
    congruence.
Qed.

Create HintDb keeps.
#[global] Hint Resolve keeps_clearTimeout keeps_setupPeriodicSync
  keeps_handleFileChange : keeps.

(** Break a method into its statements; a statement that does not touch
    the timers is discharged by computation. *)
Ltac keeps :=
  steps_with ltac:(first
    [ solve [eauto with keeps]
    | apply keeps_unchanged; unfold_methods; solve [unchanged]
    | apply steps_tryFinally;
        [typeclasses eauto | | first [apply keeps_releaseRemote
                                     | apply keeps_releaseSync]] ]).

Lemma keeps_copyFilesFromWorkingDir :
  Steps keepsTimers SyncService.copyFilesFromWorkingDir.
Proof. unfold SyncService.copyFilesFromWorkingDir. keeps. Qed.
#[global] Hint Resolve keeps_copyFilesFromWorkingDir : keeps.

Lemma keeps_syncBody : Steps keepsTimers SyncService.syncBody.
Proof. unfold SyncService.syncBody. keeps. Qed.
#[global] Hint Resolve keeps_syncBody : keeps.

Lemma keeps_sync : Steps keepsTimers SyncService.sync.
Proof. unfold SyncService.sync. keeps. Qed.
#[global] Hint Resolve keeps_sync : keeps.

Lemma keeps_git_initialize : Steps keepsTimers GitService.initialize.
Proof. apply keeps_unchanged. unfold GitService.initialize. unfold_methods. unchanged. Qed.
#[global] Hint Resolve keeps_git_initialize : keeps.

Lemma keeps_setupFileWatcher : Steps keepsTimers SyncService.setupFileWatcher.
Proof. apply keeps_unchanged. unfold_methods. unchanged. Qed.
#[global] Hint Resolve keeps_setupFileWatcher : keeps.

Lemma keeps_initialize : Steps keepsTimers SyncService.initialize.
Proof. unfold SyncService.initialize, SyncService.initialPull. keeps. Qed.

Lemma keeps_forcePush : Steps keepsTimers SyncService.forcePush.
Proof. unfold SyncService.forcePush. keeps. Qed.

Lemma keeps_forcePull : Steps keepsTimers SyncService.forcePull.
Proof. unfold SyncService.forcePull. keeps. Qed.

Lemma keeps_enable : Steps keepsTimers SyncService.enable.
Proof. unfold SyncService.enable. keeps. Qed.
#[global] Hint Resolve keeps_enable : keeps.

Lemma keeps_disable : Steps keepsTimers SyncService.disable.
Proof. unfold SyncService.disable. keeps. Qed.
#[global] Hint Resolve keeps_disable : keeps.

Lemma keeps_toggleEnabled : Steps keepsTimers SyncService.toggleEnabled.
Proof. unfold SyncService.toggleEnabled. keeps. Qed.

Lemma keeps_dispose : Steps keepsTimers SyncService.dispose.
Proof. unfold SyncService.dispose. keeps. Qed.

Lemma keeps_handleExtensionChange :
  Steps keepsTimers SyncService.handleExtensionChange.
Proof. unfold SyncService.handleExtensionChange. keeps. Qed.

Lemma keeps_handleConfigurationChange :
  Steps keepsTimers SyncService.handleConfigurationChange.
Proof. unfold SyncService.handleConfigurationChange. keeps. Qed.

Lemma keeps_reinitialize : Steps keepsTimers GitService.reinitialize.
Proof. unfold GitService.reinitialize. keeps. Qed.
#[global] Hint Resolve keeps_reinitialize keeps_initialize : keeps.

Lemma keeps_activate : Steps keepsTimers Extension.activate.
Proof. unfold Extension.activate. keeps. Qed.

Lemma keeps_reinitializeCommand yes :
  Steps keepsTimers (Extension.reinitializeCommand yes).
Proof. unfold Extension.reinitializeCommand. keeps. Qed.

Lemma keeps_nativeEvent path : Steps keepsTimers (SyncService.nativeEvent path).
Proof. unfold SyncService.nativeEvent. keeps. Qed.
#[global] Hint Resolve keeps_nativeEvent : keeps.

Lemma keeps_handleFileEvent path :
  Steps keepsTimers (SyncService.handleFileEvent path).
Proof. unfold SyncService.handleFileEvent. keeps. Qed.

Lemma keeps_handleDirEvent path name :
  Steps keepsTimers (SyncService.handleDirEvent path name).
Proof. unfold SyncService.handleDirEvent. keeps. Qed.

Lemma keeps_fire a : Steps keepsTimers (fire a).
Proof.
  destruct a; unfold fire, SyncService.debounceCallback,
    SyncService.periodicCallback; keeps.
Qed.

Lemma keeps_expire t w : keepsTimers w (expire t w).
Proof.
  intros Htr. unfold expire. apply keeps_fire.
  apply (tracked_view
    (withHost (fun h => setTimers
       (List.filter (fun u => negb (tid u =? tid t)%nat) (timers h))
       (nextTimer h) h) w)); [reflexivity|].
  by apply tracked_filter.
Qed.

Lemma keeps_step w w' : step w w' -> keepsTimers w w'.
Proof.
  intros [m w0 Hin|w0|yes w0|path w0|path w0|path name w0|path w0|t w0 Ht
         |w0 w1 Hs Ht Hn].
  - cbn in Hin.
    repeat (destruct Hin as [<-|Hin];
      [first [apply keeps_initialize | apply keeps_sync | apply keeps_forcePush
             | apply keeps_forcePull | apply keeps_toggleEnabled
             | apply keeps_enable | apply keeps_disable | apply keeps_dispose
             | apply keeps_handleExtensionChange
             | apply keeps_handleConfigurationChange
             | apply keeps_reinitialize]|]).
    contradiction.
  - apply keeps_activate.
  - apply keeps_reinitializeCommand.
  - apply keeps_handleFileEvent.
  - apply keeps_handleFileChange.
  - apply keeps_handleDirEvent.
  - apply keeps_nativeEvent.
  - apply keeps_expire.
  - apply tracked_view. unfold timerView. by rewrite Hs, Ht, Hn.
Qed.

Lemma at_most_one (kind : Timer -> bool) (l : list Timer) (h : nat) :
  NoDup (map tid l) ->
  (forall t, t ∈ l -> kind t = true -> tid t = h) ->
  (length (List.filter kind l) <= 1)%nat.
Proof.
  intros Hnd Hall.
  assert (Hsub : forall t, t ∈ List.filter kind l -> tid t = h).
  { intros t Ht. apply list_elem_of_In, filter_In in Ht as [Ht Hk].
    apply Hall; [by apply list_elem_of_In | exact Hk]. }
  assert (Hnd' : NoDup (map tid (List.filter kind l))).
  { clear -Hnd. induction l as [|t l IH]; [constructor|].
    cbn in Hnd. apply NoDup_cons in Hnd as [Hnotin Hnd].
    cbn. destruct (kind t); [|by apply IH]. cbn. apply NoDup_cons.
    split; [|by apply IH].
    intros Hin. apply Hnotin.
    apply list_elem_of_In, in_map_iff in Hin as (u & Hu & Hin).
    apply list_elem_of_In, in_map_iff. exists u. split; [exact Hu|].
    apply filter_In in Hin. tauto. }
  destruct (List.filter kind l) as [|a [|b rest]]; cbn; [lia | lia |].
  exfalso. cbn in Hnd'. apply NoDup_cons in Hnd' as [Hnotin _].
  apply Hnotin. rewrite (Hsub a), <- (Hsub b).
  - apply list_elem_of_here.
  - apply elem_of_cons. right. apply list_elem_of_here.
  - apply list_elem_of_here.
Qed.

Lemma tracked_start files script : timersTracked (startWorld files script).
Proof.
  split; [|split; [|split]]; cbn; try (intros t Ht; by inversion Ht).
  constructor.
Qed.

Lemma tracked_idle script : timersTracked (idleWorld script).
Proof.
  split; [|split; [|split]]; cbn; try (intros t Ht; by inversion Ht).
  constructor.
Qed.

Lemma tracked_started : timersTracked startedWorld.
Proof. apply keeps_initialize, tracked_start. Qed.

(** X13: along every sequence of commands, listener runs, file events,
    timer expiries and changes of the environment, the service holds the
    handle of every pending periodic and debounce timer, and so there is at
    any time at most one pending periodic timer and at most one pending
    debounce timer. *)
Theorem timers_stay_unique (w w' : World) :
  timersTracked w -> rtc step w w' ->
  timersTracked w' /\
  (length (List.filter isPeriodic (timers (host w'))) <= 1)%nat /\
  (length (List.filter isDebounce (timers (host w'))) <= 1)%nat.
Proof.
  intros Htr Hsteps.
  assert (Htr' : timersTracked w').
  { induction Hsteps as [|x y z Hxy _ IH]; [exact Htr|].
    apply IH. by apply (keeps_step x y). }
  split; [exact Htr'|].
  destruct Htr' as (_ & Hnd & Hsync & Hdeb). split.
  - destruct (syncTimer (svc w')) as [h|] eqn:Hf.
    + apply (at_most_one _ _ h Hnd). intros t Ht Hk.
      specialize (Hsync t Ht Hk). congruence.
    + apply (at_most_one _ _ 0%nat Hnd). intros t Ht Hk.
      specialize (Hsync t Ht Hk). congruence.
  - destruct (debounceTimer (svc w')) as [h|] eqn:Hf.
    + apply (at_most_one _ _ h Hnd). intros t Ht Hk.
      specialize (Hdeb t Ht Hk). congruence.
    + apply (at_most_one _ _ 0%nat Hnd). intros t Ht Hk.
      specialize (Hdeb t Ht Hk). congruence.
Qed.

Lemma timers_stay_unique_witness :
  (length (List.filter isDebounce (timers (host
     (snd (SyncService.handleFileEvent "/home/u/.bashrc"
        (withHost (setNow 2000)
           (snd (SyncService.handleFileEvent
              "/home/u/.config/Code/User/settings.json"
              (lateWorld []))))))))) <= 1)%nat.
Proof.
  apply (timers_stay_unique (idleWorld [])
    (snd (SyncService.handleFileEvent "/home/u/.bashrc"
        (withHost (setNow 2000)
           (snd (SyncService.handleFileEvent
              "/home/u/.config/Code/User/settings.json"
              (lateWorld []))))))).
  - split; [|split; [|split]]; cbn; try (intros t Ht; by inversion Ht).
    constructor.
  - apply (rtc_l step _ (lateWorld [])).
    { by apply step_environment. }
    apply (rtc_l step _
      (snd (SyncService.handleFileEvent
              "/home/u/.config/Code/User/settings.json" (lateWorld [])))).
    { apply step_fileEvent. }
    apply (rtc_l step _
      (withHost (setNow 2000)
         (snd (SyncService.handleFileEvent
                 "/home/u/.config/Code/User/settings.json" (lateWorld []))))).
    { by apply step_environment. }
    apply rtc_once. apply step_fileEvent.
Defined.

Lemma expire_tick t w : expire t w = snd (fire (act t) (tick t w)).
Proof. reflexivity. Qed.

Lemma isRelease_not_periodic t : isRelease t -> isPeriodic t = false.
Proof. unfold isPeriodic. by intros [-> | ->]. Qed.

(** Once the periodic timer [t] is off the table, no periodic timer is
    left. *)
Lemma tick_no_periodic t w u :
  timersTracked w -> t ∈ timers (host w) -> isPeriodic t = true ->
  u ∈ timers (host (tick t w)) -> isPeriodic u = false.
Proof.
  intros (_ & _ & Hsync & _) Ht Hp Hu. cbn in Hu.
  apply list_elem_of_In, filter_In in Hu as [Hu Hne].
  apply list_elem_of_In in Hu.
  destruct (isPeriodic u) eqn:Hpu; [|reflexivity].
  pose proof (Hsync t Ht Hp) as H1. pose proof (Hsync u Hu Hpu) as H2.
  rewrite H1 in H2. injection H2 as H2. rewrite H2, Nat.eqb_refl in Hne.
  discriminate.
Qed.

Lemma periodic_expiry t w :
  act t = FirePeriodic ->
  expire t w =
    if isEnabled (svc w)
    then snd ((SyncService.sync ;; SyncService.setupPeriodicSync) (tick t w))
    else tick t w.
Proof.
  intros Hact. rewrite expire_tick, Hact.
  unfold fire, SyncService.periodicCallback.
  unfold bind at 1, gets at 1. cbn beta iota.
  assert (Hsame : isEnabled (svc (tick t w)) = isEnabled (svc w))
    by reflexivity.
  rewrite Hsame. by destruct (isEnabled (svc w)).
Qed.

(** X14: when the periodic timer expires on a disabled service nothing
    runs and no timer is set.  On an enabled service [sync] runs; when it
    throws, [setupPeriodicSync] is not reached and no periodic timer is
    pending afterwards: periodic syncing has stopped.  When it returns
    normally the periodic timer is set again once [sync] has returned: it
    is due one timer delay after the clock of the world [sync] returned
    in. *)
Theorem periodic_sync_stops_after_failure (w : World) (t : Timer) :
  let w1 := tick t w in
  let synced := snd (SyncService.sync w1) in
  timersTracked w -> t ∈ timers (host w) -> act t = FirePeriodic ->
  (isEnabled (svc w) = false -> expire t w = w1) /\
  (isEnabled (svc w) = true ->
   (forall e, fst (SyncService.sync w1) = Err e ->
      expire t w = synced /\
      forall u, u ∈ timers (host (expire t w)) -> isPeriodic u = false) /\
   (fst (SyncService.sync w1) = Ok tt ->
      exists handle,
        syncTimer (svc (expire t w)) = Some handle /\
        periodicTimer (cfg (host w)) (now (host synced)) handle
          ∈ timers (host (expire t w)))).
Proof.
  cbv zeta. intros Htr Ht Hact.
  assert (Hp : isPeriodic t = true) by (unfold isPeriodic; by rewrite Hact).
  rewrite (periodic_expiry t w Hact).
  destruct (isEnabled (svc w)).
  2:{ split; [reflexivity | discriminate]. }
  split; [discriminate|]. intros _.
  unfold bind.
  pose proof (calm_sync (tick t w)) as (_ & Hcfg & Hnow & added & Htimers & Hrel).
  destruct (SyncService.sync (tick t w)) as [[[]|e] w2]; cbn [fst snd] in *.
  - split; [discriminate|]. intros _.
    unfold SyncService.setupPeriodicSync, config, bind, gets, modify,
      setTimeout, clearTimeout.
    cbn beta iota.
    destruct (syncTimer (svc w2)) as [old|]; cbn;
      (eexists; split; [reflexivity|]);
      apply elem_of_app; right; apply list_elem_of_singleton;
      unfold periodicTimer; cbn in Hcfg; rewrite Hcfg;
      reflexivity.
  - split; [|discriminate]. intros e0 _. split; [reflexivity|].
    intros u Hu. rewrite Htimers in Hu. apply elem_of_app in Hu as [Hu|Hu].
    + by apply (tick_no_periodic t w u).
    + apply isRelease_not_periodic. rewrite Forall_forall in Hrel.
      by apply Hrel.
Qed.

Lemma periodic_sync_stops_after_failure_witness :
  Forall (fun u => isPeriodic u = false)
    (timers (host
       (expire {| tid := 0; due := 300000; act := FirePeriodic |}
          startedWorld))).
Proof.
  apply Forall_forall.
  refine (proj2 (proj1 (proj2 (periodic_sync_stops_after_failure startedWorld
    {| tid := 0; due := 300000; act := FirePeriodic |}
    tracked_started _ eq_refl) _)
    "Failed to pull changes: git pull --rebase failed" _)).
  - vm_compute. apply list_elem_of_here.
  - vm_compute. reflexivity.
  - vm_compute. reflexivity.
Defined.

(** ** Locks and switches *)

Lemma flags_syncBody : Steps (unchanged flagsView) SyncService.syncBody.
Proof. unfold_methods. unchanged. Qed.

Lemma sync_in_flight w :
  isSyncing (svc w) = true -> SyncService.sync w = (Ok tt, w).
Proof.
  intros Hs. unfold SyncService.sync, bind, gets. cbn beta iota.
  destruct (isEnabled (svc w)); cbn; [|reflexivity]. by rewrite Hs.
Qed.

Lemma sync_disabled w :
  isEnabled (svc w) = false -> SyncService.sync w = (Ok tt, w).
Proof.
  intros He. unfold SyncService.sync, bind, gets. cbn beta iota.
  by rewrite He.
Qed.

Lemma handleExtensionChange_guarded w :
  negb (isEnabled (svc w)) || isSyncing (svc w)
    || isApplyingRemoteChanges (svc w) = true ->
  SyncService.handleExtensionChange w = (Ok tt, w).
Proof.
  intros H. unfold SyncService.handleExtensionChange, bind, gets.
  cbn beta iota. by rewrite H.
Qed.

(** X15: a [sync] that passes its guards returns, normally or not, with
    [isSyncing] still set; the release is the last timer of the table, set
    when the run has ended: it is due one second after the clock of the
    world [sync] returns in, and its expiry clears [isSyncing].  Until then
    a second [sync] returns at once without doing anything, and the
    file-change and extension-change listeners drop their events. *)
Theorem sync_holds_lock_for_a_second (w : World) :
  let w' := snd (SyncService.sync w) in
  let release :=
    releaseTimer ReleaseSyncLock (now (host w'))
      (Nat.pred (nextTimer (host w'))) in
  isEnabled (svc w) = true -> isSyncing (svc w) = false ->
  initialized (git w) = true ->
  isSyncing (svc w') = true /\
  (exists earlier, timers (host w') = earlier ++ [release]) /\
  isSyncing (svc (expire release w')) = false /\
  SyncService.sync w' = (Ok tt, w') /\
  (forall path, SyncService.handleFileChange path w' = (Ok tt, w')) /\
  SyncService.handleExtensionChange w' = (Ok tt, w').
Proof.
  cbv zeta. intros He Hs Hi. rewrite (sync_unfold w He Hs Hi). cbn [snd].
  pose proof (flags_syncBody (withSvc (setIsSyncing true) w)) as Hf.
  unfold unchanged, flagsView in Hf. cbn in Hf.
  destruct (SyncService.syncBody _) as [r w1]. cbn [snd] in *.
  injection Hf as Hen Hsy Hnow. rewrite He in Hen.
  unfold SyncService.releaseSyncLockLater, setTimeout, releaseTimer.
  cbn [snd host svc withHost setTimers timers nextTimer Nat.pred].
  split; [exact Hsy|]. split; [by exists (timers (host w1))|].
  split; [reflexivity|].
  split; [|split].
  - by apply sync_in_flight.
  - intros path. apply handleFileChange_guarded. cbn.
    rewrite Hsy. apply orb_true_iff. left. apply orb_true_r.
  - apply handleExtensionChange_guarded. cbn.
    rewrite Hsy. apply orb_true_iff. left. apply orb_true_r.
Qed.

Lemma sync_holds_lock_for_a_second_witness :
  fst (SyncService.sync (idleWorld [(OGit Push, [false]); (PullAndRetry, [false])]))
    = Err "Failed to push changes: Push failed to https://github.com/user/settings.git (main)" /\
  isSyncing (svc (snd (SyncService.sync
    (idleWorld [(OGit Push, [false]); (PullAndRetry, [false])])))) = true /\
  SyncService.sync (snd (SyncService.sync
    (idleWorld [(OGit Push, [false]); (PullAndRetry, [false])])))
  = (Ok tt, snd (SyncService.sync
    (idleWorld [(OGit Push, [false]); (PullAndRetry, [false])]))).
Proof.
  split; [reflexivity|].
  destruct (sync_holds_lock_for_a_second
    (idleWorld [(OGit Push, [false]); (PullAndRetry, [false])])
    eq_refl eq_refl eq_refl) as (Hlock & _ & _ & Hagain & _).
  split; [exact Hlock | exact Hagain].
Defined.

Lemma gitView_copyFilesToWorkingDir :
  Steps (unchanged gitView) SyncService.copyFilesToWorkingDir.
Proof. unfold_methods. unchanged. Qed.

Lemma serviceView_copyFilesToWorkingDir :
  Steps (unchanged serviceView) SyncService.copyFilesToWorkingDir.
Proof. unfold_methods. unchanged. Qed.

Lemma serviceView_hasChanges :
  Steps (unchanged serviceView) GitService.hasChanges.
Proof. unfold_methods. unchanged. Qed.

(** [hasChanges] sends at most [git status] and changes nothing in the
    repository. *)
Lemma git_hasChanges w :
  git (snd (GitService.hasChanges w)) = git w /\
  (gitGrow [] w (snd (GitService.hasChanges w)) \/
   gitGrow [Status] w (snd (GitService.hasChanges w))).
Proof.
  unfold gitGrow.
  unfold GitService.hasChanges, GitService.gitCmd, GitService.effect,
    bind, gets, emit, modify, ask, ret, throw.
  cbn beta iota. destruct (initialized (git w)); cbn.
  - destruct (hd true (answers (host w) (OGit Status))); cbn;
      (split; [reflexivity|]); right; git_trace; reflexivity.
  - split; [reflexivity|]. left. git_trace. by rewrite app_nil_r.
Qed.

Lemma debounceCallback_unfold w :
  SyncService.debounceCallback w =
    (SyncService.copyFilesToWorkingDir ;;
     changed <- GitService.hasChanges ;;
     if changed then SyncService.sync else ret tt)
      (snd (emit (ObsTrigger (now (host w))) w)).
Proof.
  unfold SyncService.debounceCallback.
  unfold bind at 1, gets at 1. cbn beta iota.
  unfold bind at 1, emit at 1, modify at 1. cbn beta iota.
  by rewrite tryCatch_rethrow.
Qed.

(** X16: the debounce callback does not look at [isEnabled].  On a
    disabled service it still mirrors the live files into the working
    directory (the whole batch, when no copy fails on I/O) and asks
    [hasChanges]; the [sync] it may call returns at its guard.  It sends
    git at most [status], and leaves the repository, the fields of the
    service and the timer table as they were. *)
Theorem debounce_after_disable (w : World) :
  let w' := snd (SyncService.debounceCallback w) in
  isEnabled (svc w) = false ->
  (exists cs, callsGrow cs w w' /\
     (cs = [CCopyToWorking] \/
      exists b, cs = [CCopyToWorking; CHasChanges b])) /\
  (gitGrow [] w w' \/ gitGrow [Status] w w') /\
  git w' = git w /\ svc w' = svc w /\
  timers (host w') = timers (host w) /\
  (Forall (eq true) (answers (host w) CopyIO) ->
   copiesOf (trace (host w'))
     = copiesOf (trace (host w)) ++ batchToWorkingDir w).
Proof.
  cbv zeta. intros He. rewrite debounceCallback_unfold.
  set (w0 := snd (emit _ w)).
  assert (H0c : callsOf (trace (host w0)) = callsOf (trace (host w))).
  { subst w0. cbn. rewrite callsOf_app. cbn. by rewrite app_nil_r. }
  assert (H0g : gitCmdsOf (trace (host w0)) = gitCmdsOf (trace (host w))).
  { subst w0. cbn. rewrite gitCmdsOf_app. cbn. by rewrite app_nil_r. }
  assert (H0p : copiesOf (trace (host w0)) = copiesOf (trace (host w))).
  { subst w0. cbn. rewrite copiesOf_app. cbn. by rewrite app_nil_r. }
  pose proof (calls_copyFilesToWorkingDir w0) as Hc1.
  pose proof (gitView_copyFilesToWorkingDir w0) as Hg1.
  pose proof (serviceView_copyFilesToWorkingDir w0) as Hs1.
  pose proof (copyFilesToWorkingDir_batch w0) as Hb1.
  unfold bind.
  destruct (SyncService.copyFilesToWorkingDir w0) as [[[]|e1] w1];
    cbn [fst snd] in *; unfold unchanged, gitView, serviceView in Hg1, Hs1;
    assert (Hg1' : gitCmdsOf (trace (host w1)) = gitCmdsOf (trace (host w0)))
      by congruence;
    assert (Hgit1 : git w1 = git w) by (change (git w) with (git w0); congruence);
    assert (Hsvc1 : svc w1 = svc w) by (change (svc w) with (svc w0); congruence);
    assert (Htm1 : timers (host w1) = timers (host w))
      by (change (timers (host w)) with (timers (host w0)); congruence);
    clear Hg1 Hs1; rename Hg1' into Hg1.
  2:{ split; [exists [CCopyToWorking]; split; [|by left];
               unfold callsGrow in *; by rewrite Hc1, H0c|].
      split; [left; unfold gitGrow; by rewrite Hg1, H0g, app_nil_r|].
      split; [exact Hgit1|]. split; [exact Hsvc1|]. split; [exact Htm1|].
      intros Hio. destruct (Hb1 Hio) as (w'' & Hrun & _). discriminate. }
  pose proof (calls_hasChanges w1) as Hc2.
  pose proof (git_hasChanges w1) as [Hgit2 Hg2].
  pose proof (serviceView_hasChanges w1) as Hs2.
  assert (Hcopies : forall w2, copiesOf (trace (host w2)) = copiesOf (trace (host w1)) ->
            Forall (eq true) (answers (host w) CopyIO) ->
            copiesOf (trace (host w2))
              = copiesOf (trace (host w)) ++ batchToWorkingDir w).
  { intros w2 Hsame Hio. destruct (Hb1 Hio) as (w'' & Hrun & Hbatch).
    injection Hrun as <-. rewrite Hsame, Hbatch, H0p. reflexivity. }
  assert (Hp2 : copiesOf (trace (host (snd (GitService.hasChanges w1))))
                = copiesOf (trace (host w1))).
  { assert (H : Steps (unchanged (fun w => copiesOf (trace (host w))))
                  GitService.hasChanges) by (unfold_methods; unchanged).
    apply H. }
  destruct (GitService.hasChanges w1) as [[b|e2] w2];
    cbn [fst snd] in *; unfold unchanged, serviceView in Hs2;
    assert (Hsvc2 : svc w2 = svc w1) by congruence;
    assert (Htm2 : timers (host w2) = timers (host w1)) by congruence;
    clear Hs2.
  - assert (Hrest : (if b then SyncService.sync else ret tt) w2 = (Ok tt, w2)).
    { destruct b; [|reflexivity]. apply sync_disabled.
      by rewrite Hsvc2, Hsvc1. }
    rewrite Hrest. cbn [snd].
    split; [exists [CCopyToWorking; CHasChanges b]; split; [|right; by exists b];
            unfold callsGrow in *; rewrite Hc2, Hc1, H0c, <- app_assoc;
            reflexivity|].
    split; [unfold gitGrow in *; rewrite Hg1, H0g in Hg2; exact Hg2|].
    split; [congruence|]. split; [congruence|]. split; [congruence|].
    by apply Hcopies.
  - split; [exists [CCopyToWorking]; split; [|by left];
            unfold callsGrow in *; rewrite Hc2, Hc1, H0c, app_nil_r;
            reflexivity|].
    split; [unfold gitGrow in *; rewrite Hg1, H0g in Hg2; exact Hg2|].
    split; [congruence|]. split; [congruence|]. split; [congruence|].
    by apply Hcopies.
Qed.

Lemma debounce_after_disable_witness :
  gitCmdsOf (trace (host (snd (SyncService.debounceCallback
     (snd (SyncService.disable (idleWorld [])))))))
    = [Status] /\
  copiesOf (trace (host (snd (SyncService.debounceCallback
     (snd (SyncService.disable (idleWorld [])))))))
    = [("/home/u/.config/Code/User/settings.json",
        "/home/u/settings-sync/settings.json");
       ("/home/u/.bashrc", "/home/u/settings-sync/shell/bashrc")].
Proof.
  destruct (debounce_after_disable (snd (SyncService.disable (idleWorld [])))
    eq_refl) as (_ & _ & _ & _ & _ & Hcopies).
  split; [vm_compute; reflexivity|].
  rewrite Hcopies; [vm_compute; reflexivity | constructor].
Defined.

Lemma dispose_unfold w :
  SyncService.dispose w =
    (Ok tt,
     withSvc (fun s => setExtensionWatcher false
                         (setWatchers [] (setIsEnabled false s)))
       (withHost (fun h =>
          setTimers
            (List.filter
               (fun t =>
                  match debounceTimer (svc w) with
                  | Some handle => negb (tid t =? handle)%nat
                  | None => true
                  end)
               (List.filter
                  (fun t =>
                     match syncTimer (svc w) with
                     | Some handle => negb (tid t =? handle)%nat
                     | None => true
                     end)
                  (timers h)))
            (nextTimer h) h) w)).
Proof.
  destruct w as [s g h]. destruct h.
  unfold SyncService.dispose, clearTimeout, bind, gets, modify, ret.
  cbn beta iota. cbn [svc withSvc setIsEnabled syncTimer].
  destruct (syncTimer s) as [h1|];
    cbn [svc withSvc withHost setIsEnabled debounceTimer];
    destruct (debounceTimer s) as [h2|];
    unfold withSvc, withHost, setTimers; cbn;
    rewrite ?filter_all; reflexivity.
Qed.

Lemma release_or_tracked t :
  isPeriodic t = false -> isDebounce t = false -> isRelease t.
Proof.
  unfold isPeriodic, isDebounce, isRelease.
  destruct (act t); try discriminate; auto.
Qed.

Lemma dispose_timers w u :
  timersTracked w ->
  u ∈ timers (host (snd (SyncService.dispose w))) -> isRelease u.
Proof.
  intros (_ & _ & Hsync & Hdeb). rewrite dispose_unfold. cbn.
  intros Hu. apply list_elem_of_In, filter_In in Hu as [Hu Hd].
  apply filter_In in Hu as [Hu Hs]. apply list_elem_of_In in Hu.
  apply release_or_tracked.
  - destruct (isPeriodic u) eqn:Hp; [|reflexivity].
    rewrite (Hsync u Hu Hp), Nat.eqb_refl in Hs. discriminate.
  - destruct (isDebounce u) eqn:Hp; [|reflexivity].
    rewrite (Hdeb u Hu Hp), Nat.eqb_refl in Hd. discriminate.
Qed.

(** With only lock releases on the table, letting time pass changes the
    two locks and nothing else. *)
Lemma advance_releases fuel until v :
  (forall u, u ∈ timers (host v) -> isRelease u) ->
  outsideView (advance fuel until v) = outsideView v /\
  (forall u, u ∈ timers (host (advance fuel until v)) -> isRelease u).
Proof.
  revert v. induction fuel as [|fuel IH]; intros v Hrel; simpl.
  - destruct (earliest (timers (host v))) as [u|]; [|by split].
    destruct (due u <=? until); by split.
  - destruct (earliest (timers (host v))) as [u|] eqn:He; [|by split].
    destruct (due u <=? until); [|by split].
    apply earliest_In in He.
    assert (Hstep : outsideView (expire u v) = outsideView v /\
                    timers (host (expire u v))
                    = List.filter (fun x => negb (tid x =? tid u)%nat)
                                  (timers (host v))).
    { unfold expire. destruct (Hrel u He) as [Ha|Ha]; rewrite Ha; by split. }
    destruct Hstep as [Hout Htm].
    destruct (IH (expire u v)) as [Hout' Hrel'].
    + intros x Hx. rewrite Htm in Hx. apply filter_subset in Hx. by apply Hrel.
    + split; [by rewrite Hout', Hout | exact Hrel'].
Qed.

(** X17: [dispose] returns normally with the service disabled, every
    watcher closed and the periodic and debounce timers cleared: only lock
    releases can be pending.  From then on, however long the clock runs,
    nothing is recorded and nothing is written; a file change sets no
    timer, [sync] and the extension-change listener return at once. *)
Theorem nothing_runs_after_dispose (w : World) :
  let w' := snd (SyncService.dispose w) in
  timersTracked w ->
  fst (SyncService.dispose w) = Ok tt /\
  isEnabled (svc w') = false /\ watchers (svc w') = [] /\
  extensionWatcher (svc w') = false /\
  (forall u, u ∈ timers (host w') -> isRelease u) /\
  (forall fuel until path,
     let v := advance fuel until w' in
     outsideView v = outsideView w' /\
     outsideView (snd (SyncService.handleFileChange path v)) = outsideView w' /\
     timers (host (snd (SyncService.handleFileChange path v)))
       = timers (host v) /\
     SyncService.sync v = (Ok tt, v) /\
     SyncService.handleExtensionChange v = (Ok tt, v)).
Proof.
  cbv zeta. intros Htr.
  pose proof (dispose_timers w) as Hrel. specialize (fun u => Hrel u Htr).
  rewrite dispose_unfold in *. cbn [fst snd] in *.
  set (w' := withSvc _ _) in *.
  split; [reflexivity|]. split; [reflexivity|]. split; [reflexivity|].
  split; [reflexivity|]. split; [exact Hrel|].
  intros fuel until path.
  destruct (advance_releases fuel until w' Hrel) as [Hout _].
  assert (Hoff : isEnabled (svc (advance fuel until w')) = false).
  { unfold outsideView in Hout. injection Hout as _ _ _ _ He _. exact He. }
  assert (Hg : negb (isEnabled (svc (advance fuel until w')))
               || isSyncing (svc (advance fuel until w'))
               || isApplyingRemoteChanges (svc (advance fuel until w')) = true)
    by (by rewrite Hoff).
  rewrite (handleFileChange_guarded path _ Hg). cbn [snd].
  split; [exact Hout|]. split; [exact Hout|]. split; [reflexivity|].
  split; [by apply sync_disabled | by apply handleExtensionChange_guarded].
Qed.

Lemma nothing_runs_after_dispose_witness :
  trace (host (advance 10 1000000
     (snd (SyncService.dispose
        (snd (SyncService.handleFileEvent
           "/home/u/.config/Code/User/settings.json" (lateWorld [])))))))
  = [].
Proof.
  destruct (nothing_runs_after_dispose
    (snd (SyncService.handleFileEvent
       "/home/u/.config/Code/User/settings.json" (lateWorld []))))
    as (_ & _ & _ & _ & _ & Hquiet).
  - apply keeps_handleFileEvent.
    split; [|split; [|split]]; cbn; try (intros t Ht; by inversion Ht).
    constructor.
  - destruct (Hquiet 10%nat 1000000 "") as [Hout _].
    pose proof (f_equal (fun v => fst (fst (fst (fst (fst v))))) Hout)
      as Htrace.
    cbn [fst outsideView] in Htrace. rewrite Htrace. vm_compute. reflexivity.
Defined.

Lemma toggleEnabled_unfold w :
  SyncService.toggleEnabled w =
    if isEnabled (svc w)
    then (Ok tt, withSvc (setIsEnabled false)
                   (withSvc (fun s => setIsEnabled false s) w))
    else
      tryCatch SyncService.setupPeriodicSync (fun _ => ret tt)
        (withSvc (setIsEnabled true)
           (withSvc (fun s => setIsEnabled true s) w)).
Proof.
  unfold SyncService.toggleEnabled, SyncService.enable, SyncService.disable,
    bind, gets, modify.
  cbn beta iota. cbn [svc withSvc setIsEnabled isEnabled].
  by destruct (isEnabled (svc w)).
Qed.

(** X18: [toggleEnabled] flips [isEnabled] and returns normally.
    Switching off clears no timer.  Switching on replaces the pending
    periodic timer, if any: afterwards the one periodic timer of the table
    is the new one, one timer delay ahead: a full [syncInterval] when that
    lies between 1 ms and 2^31 - 1 ms, and 1 ms otherwise. *)
Theorem toggle_rearms_the_periodic_sync (w : World) :
  let w' := snd (SyncService.toggleEnabled w) in
  fst (SyncService.toggleEnabled w) = Ok tt /\
  isEnabled (svc w') = negb (isEnabled (svc w)) /\
  (isEnabled (svc w) = true ->
   timers (host w') = timers (host w) /\
   syncTimer (svc w') = syncTimer (svc w)) /\
  (isEnabled (svc w) = false -> timersTracked w ->
   exists handle,
     syncTimer (svc w') = Some handle /\
     periodicTimer (cfg (host w)) (now (host w)) handle ∈ timers (host w') /\
     (forall u, u ∈ timers (host w') -> isPeriodic u = true ->
        u = periodicTimer (cfg (host w)) (now (host w)) handle)) /\
  (forall handle,
     (1 <= syncInterval (cfg (host w)) * 1000 <= TIMEOUT_MAX ->
      due (periodicTimer (cfg (host w)) (now (host w)) handle)
        = now (host w) + syncInterval (cfg (host w)) * 1000) /\
     (syncInterval (cfg (host w)) * 1000 < 1
      \/ TIMEOUT_MAX < syncInterval (cfg (host w)) * 1000 ->
      due (periodicTimer (cfg (host w)) (now (host w)) handle)
        = now (host w) + 1)).
Proof.
  cbv zeta.
  assert (Hdue : forall handle,
     (1 <= syncInterval (cfg (host w)) * 1000 <= TIMEOUT_MAX ->
      due (periodicTimer (cfg (host w)) (now (host w)) handle)
        = now (host w) + syncInterval (cfg (host w)) * 1000) /\
     (syncInterval (cfg (host w)) * 1000 < 1
      \/ TIMEOUT_MAX < syncInterval (cfg (host w)) * 1000 ->
      due (periodicTimer (cfg (host w)) (now (host w)) handle)
        = now (host w) + 1)).
  { intros handle. unfold periodicTimer. cbn [due]. split; intros H.
    - by rewrite timerDelay_in_range.
    - by rewrite timerDelay_out_of_range. }
  rewrite toggleEnabled_unfold.
  destruct (isEnabled (svc w)) eqn:He.
  { split; [reflexivity|]. split; [reflexivity|].
    split; [by split|]. split; [discriminate | exact Hdue]. }
  unfold SyncService.setupPeriodicSync, config, tryCatch, bind, gets, modify,
    setTimeout, clearTimeout, ret.
  cbn beta iota. cbn [svc withSvc setIsEnabled syncTimer].
  destruct (syncTimer (svc w)) as [old|] eqn:Hf; cbn.
  - split; [reflexivity|]. split; [reflexivity|]. split; [discriminate|].
    split; [|exact Hdue].
    intros _ (_ & _ & Hsync & _).
    eexists. split; [reflexivity|].
    split; [apply elem_of_app; right; apply list_elem_of_here|].
    intros u Hu Hp. apply elem_of_app in Hu as [Hu|Hu].
    + exfalso. apply list_elem_of_In, filter_In in Hu as [Hu Hne].
      apply list_elem_of_In in Hu. specialize (Hsync u Hu Hp).
      rewrite Hf in Hsync. injection Hsync as ->.
      rewrite Nat.eqb_refl in Hne. discriminate.
    + by apply list_elem_of_singleton in Hu.
  - split; [reflexivity|]. split; [reflexivity|]. split; [discriminate|].
    split; [|exact Hdue].
    intros _ (_ & _ & Hsync & _).
    eexists. split; [reflexivity|].
    split; [apply elem_of_app; right; apply list_elem_of_here|].
    intros u Hu Hp. apply elem_of_app in Hu as [Hu|Hu].
    + exfalso. specialize (Hsync u Hu Hp). congruence.
    + by apply list_elem_of_singleton in Hu.
Qed.

Lemma tracked_longDelayWorld : timersTracked longDelayWorld.
Proof.
  split; [|split; [|split]]; cbn; try (intros t Ht; by inversion Ht).
  constructor.
Qed.

Lemma toggle_rearms_the_periodic_sync_witness :
  (exists handle,
     periodicTimer sampleConfig 0 handle
       ∈ timers (host (snd (SyncService.toggleEnabled
           (snd (SyncService.toggleEnabled startedWorld))))) /\
     due (periodicTimer sampleConfig 0 handle) = 300000) /\
  (exists handle,
     periodicTimer longDelayConfig 1000 handle
       ∈ timers (host (snd (SyncService.toggleEnabled longDelayWorld))) /\
     due (periodicTimer longDelayConfig 1000 handle) = 1001).
Proof.
  split.
  - destruct (toggle_rearms_the_periodic_sync
      (snd (SyncService.toggleEnabled startedWorld)))
      as (_ & _ & _ & Hon & Hdue).
    destruct Hon as (handle & _ & Hin & _).
    + vm_compute. reflexivity.
    + apply keeps_toggleEnabled, tracked_started.
    + exists handle. split; [exact Hin|].
      apply (proj1 (Hdue handle)). vm_compute. split; discriminate.
  - destruct (toggle_rearms_the_periodic_sync longDelayWorld)
      as (_ & _ & _ & Hon & Hdue).
    destruct (Hon eq_refl tracked_longDelayWorld) as (handle & _ & Hin & _).
    exists handle. split; [exact Hin|].
    apply (proj2 (Hdue handle)). right. vm_compute. reflexivity.
Defined.

(** ** Listeners *)

Lemma serviceView_pushExtensions :
  Steps (unchanged serviceView) ExtensionService.pushExtensions.
Proof. unfold_methods. unchanged. Qed.

Lemma serviceView_push : Steps (unchanged serviceView) GitService.push.
Proof. unfold_methods. unchanged. Qed.

(** What follows the mirror or the snapshot in both listeners: the test
    for changes and the push. *)
Lemma push_if_changed w :
  let m := (changed <- GitService.hasChanges ;;
            if changed then GitService.push else ret tt) in
  serviceView (snd (m w)) = serviceView w /\
  (callsGrow [] w (snd (m w)) \/
   callsGrow [CHasChanges false] w (snd (m w)) \/
   callsGrow [CHasChanges true; CGitPush] w (snd (m w))).
Proof.
  cbv zeta. unfold bind.
  pose proof (calls_hasChanges w) as Hc. pose proof (serviceView_hasChanges w) as Hs.
  destruct (GitService.hasChanges w) as [[[]|e] w1]; cbn [fst snd] in *.
  - pose proof (calls_push w1) as Hc2. pose proof (serviceView_push w1) as Hs2.
    split; [unfold unchanged in *; congruence|].
    right. right. apply (callsGrow_trans _ _ _ _ _ Hc Hc2).
  - split; [exact Hs|]. right. by left.
  - split; [exact Hs|]. by left.
Qed.

Lemma handleExtensionChange_unfold w :
  SyncService.handleExtensionChange w =
    if negb (isEnabled (svc w)) || isSyncing (svc w)
       || isApplyingRemoteChanges (svc w)
    then (Ok tt, w)
    else
      tryCatch
        (ExtensionService.pushExtensions ;;
         changed <- GitService.hasChanges ;;
         if changed then GitService.push else ret tt)
        (fun _ => ret tt) w.
Proof.
  unfold SyncService.handleExtensionChange. unfold bind at 1, gets at 1.
  cbn beta iota. by destruct (_ || _).
Qed.

(** X19: the extension-change listener never throws.  With one of the
    three guards up it leaves the world as it was.  Otherwise it calls
    [pushExtensions], then [hasChanges], then [GitService.push] when there
    are changes, stopping at a step that throws; it takes no lock and
    sets no timer: the fields of the service and the timer table are as
    before. *)
Theorem extension_change_pushes_without_lock (w : World) :
  let w' := snd (SyncService.handleExtensionChange w) in
  let guard := negb (isEnabled (svc w)) || isSyncing (svc w)
               || isApplyingRemoteChanges (svc w) in
  fst (SyncService.handleExtensionChange w) = Ok tt /\
  (guard = true -> w' = w) /\
  (guard = false ->
   svc w' = svc w /\ timers (host w') = timers (host w) /\
   (callsGrow [CPushExtensions] w w' \/
    callsGrow [CPushExtensions; CHasChanges false] w w' \/
    callsGrow extensionPushRun w w')).
Proof.
  cbv zeta. rewrite handleExtensionChange_unfold.
  destruct (negb (isEnabled (svc w)) || isSyncing (svc w)
            || isApplyingRemoteChanges (svc w)).
  { split; [reflexivity|]. split; [reflexivity | discriminate]. }
  split; [apply swallow_ok|]. split; [discriminate|]. intros _.
  rewrite swallow_snd. unfold bind.
  pose proof (calls_pushExtensions w) as Hc.
  pose proof (serviceView_pushExtensions w) as Hs.
  destruct (ExtensionService.pushExtensions w) as [[[]|e] w1]; cbn [fst snd] in *.
  - pose proof (push_if_changed w1) as [Hs2 Hc2]. cbv zeta in Hs2, Hc2.
    unfold bind in Hs2, Hc2.
    destruct (GitService.hasChanges w1) as [[b|e2] w2];
      cbn [fst snd ret] in *; unfold unchanged, serviceView in *.
    all: split; [congruence|]; split; [congruence|].
    all: destruct Hc2 as [Hc2|[Hc2|Hc2]];
      [left | right; left | right; right];
      apply (callsGrow_trans _ _ _ _ _ Hc Hc2).
  - unfold unchanged, serviceView in *. cbn.
    split; [congruence|]. split; [congruence|]. by left.
Qed.

Lemma extension_change_pushes_without_lock_witness :
  callsOf (trace (host (snd (SyncService.handleExtensionChange
     (idleWorld [(OGit Push, [false]); (PullAndRetry, [false])])))))
    = extensionPushRun /\
  isSyncing (svc (snd (SyncService.handleExtensionChange
     (idleWorld [(OGit Push, [false]); (PullAndRetry, [false])])))) = false.
Proof.
  destruct (extension_change_pushes_without_lock
    (idleWorld [(OGit Push, [false]); (PullAndRetry, [false])]))
    as (_ & _ & Hrun).
  destruct (Hrun eq_refl) as (Hsvc & _ & _).
  split; [vm_compute; reflexivity | by rewrite Hsvc].
Defined.

Lemma patternWatchersOf_app l1 l2 :
  patternWatchersOf (l1 ++ l2) = patternWatchersOf l1 ++ patternWatchersOf l2.
Proof. unfold patternWatchersOf. apply omap_app. Qed.

Lemma patternWatchersOf_close sp l :
  patternWatchersOf
    (List.filter (fun x => negb (bool_decide (x = DirWatcher sp))) l)
  = patternWatchersOf l.
Proof.
  unfold patternWatchersOf.
  induction l as [|x l IH]; [reflexivity|]. cbn.
  destruct (bool_decide (x = DirWatcher sp)) eqn:Hx; cbn.
  - apply bool_decide_eq_true in Hx. subst x. exact IH.
  - destruct x; cbn; by rewrite ?IH.
Qed.

Lemma patterns_watchExternal c x w :
  patternWatchersOf (watchers (svc (snd (SyncService.watchExternal c x w))))
  = patternWatchersOf (watchers (svc w)).
Proof.
  unfold SyncService.watchExternal, tryCatch, bind, gets, modify. cbn.
  rewrite patternWatchersOf_app, patternWatchersOf_close.
  destruct (existsSync _ w); cbn; by rewrite app_nil_r.
Qed.

Lemma patterns_watchAll c l w :
  patternWatchersOf
    (watchers (svc (snd (forEach l (SyncService.watchExternal c) w))))
  = patternWatchersOf (watchers (svc w)).
Proof.
  revert w. induction l as [|x l IH]; intros w; [reflexivity|].
  cbn [forEach]. unfold bind. pose proof (watchExternal_ok c x w) as Hok.
  pose proof (patterns_watchExternal c x w) as Hp.
  destruct (SyncService.watchExternal c x w) as [[[]|e] w1];
    cbn [fst snd] in *; [|discriminate].
  by rewrite IH.
Qed.

Lemma patterns_watchPatterns l w :
  patternWatchersOf
    (watchers (svc (snd (forEach l (fun pattern : string =>
       tryCatch
         (modify (withSvc (fun s =>
            setWatchers (watchers s ++ [PatternWatcher pattern]) s)))
         (fun _ => ret tt)) w))))
  = patternWatchersOf (watchers (svc w)) ++ l.
Proof.
  revert w. induction l as [|p l IH]; intros w; cbn [forEach].
  - cbn. by rewrite app_nil_r.
  - unfold bind at 1, tryCatch at 1, modify at 1. cbn beta iota.
    rewrite IH. cbn [svc withSvc setWatchers watchers].
    rewrite patternWatchersOf_app. cbn.
    by rewrite <- app_assoc.
Qed.

(** [setupFileWatcher] adds a watcher for each configured pattern and
    closes no pattern watcher. *)
Lemma patterns_setupFileWatcher w :
  patternWatchersOf (watchers (svc (snd (SyncService.setupFileWatcher w))))
  = patternWatchersOf (watchers (svc w))
      ++ match files (cfg (host w)) with
         | Some fc => patterns fc
         | None => []
         end.
Proof.
  rewrite setupFileWatcher_unfold.
  destruct (files (cfg (host w))) as [fc|]; [|cbn; by rewrite app_nil_r].
  unfold bind.
  pose proof (patterns_watchPatterns (patterns fc)
                (withSvc (setLastEventTime ∅) w)) as Hp.
  destruct (watchPatterns_spec (patterns fc) (withSvc (setLastEventTime ∅) w))
    as [Hok _]. cbv zeta in Hok.
  destruct (forEach (patterns fc) _ _) as [[[]|e] w1]; cbn in *;
    [|discriminate].
  by rewrite patterns_watchAll.
Qed.

Lemma blind_handleConfigurationChange e s :
  Blind (overrideFlags e s) SyncService.handleConfigurationChange.
Proof.
  unfold SyncService.handleConfigurationChange, SyncService.setupFileWatcher,
    SyncService.watchExternal, GitService.hasChanges, GitService.push,
    GitService.onPushRejected, GitService.pullAndRetry,
    GitService.isInitialized, config.
  pose proof (blind_copyFilesToWorkingDir e s).
  pose proof (blind_gitCmd e s).
  blind.
Qed.

(** The fields of the service after the listener ran: those the mirror
    left, with the watchers that [setupFileWatcher] added when it was
    reached. *)
Lemma configurationChange_svc w :
  svc (snd (SyncService.handleConfigurationChange w)) =
    match SyncService.copyFilesToWorkingDir w with
    | (Ok _, w1) => svc (snd (SyncService.setupFileWatcher w1))
    | (Err _, w1) => svc w1
    end.
Proof.
  unfold SyncService.handleConfigurationChange, tryCatch, bind.
  destruct (SyncService.copyFilesToWorkingDir w) as [[[]|e1] w1];
    [|reflexivity].
  destruct (setupFileWatcher_spec w1) as [Hfw _].
  destruct (SyncService.setupFileWatcher w1) as [r2 w2]. cbn in Hfw. subst r2.
  pose proof (push_if_changed w2) as [Hs3 _]. cbv zeta in Hs3.
  unfold bind in Hs3. unfold serviceView in Hs3.
  destruct (GitService.hasChanges w2) as [[b|e3] w3]; cbn [fst snd] in *.
  - destruct ((if b then GitService.push else ret tt) w3) as [[[]|e4] w4];
      cbn [fst snd] in *; cbn; congruence.
  - cbn. congruence.
Qed.

(** X20: the [try] block of the configuration-change listener never
    throws, and it consults neither [isEnabled] nor [isSyncing]:
    overwriting the two flags changes nothing but the flags.  When its
    mirror to the working directory throws, the error is shown behind
    'Failed to handle configuration change: Error: ' and no pattern watcher
    is added.  Otherwise one pattern watcher per configured pattern is
    added to the pattern watchers there were, none of which is closed: the
    pattern watchers pile up with every change of the configuration. *)
Theorem configuration_change_ignores_guards (enabled syncing : bool)
    (w : World) :
  let w' := snd (SyncService.handleConfigurationChange w) in
  fst (SyncService.handleConfigurationChange w) = Ok tt /\
  SyncService.handleConfigurationChange (overrideFlags enabled syncing w)
    = (Ok tt, overrideFlags enabled syncing w') /\
  (forall e, fst (SyncService.copyFilesToWorkingDir w) = Err e ->
     patternWatchersOf (watchers (svc w'))
       = patternWatchersOf (watchers (svc w)) /\
     errorsShown w'
       = errorsShown w
           ++ ["Failed to handle configuration change: Error: " +:+ e]) /\
  (fst (SyncService.copyFilesToWorkingDir w) = Ok tt ->
   patternWatchersOf (watchers (svc w'))
     = patternWatchersOf (watchers (svc w))
         ++ match files (cfg (host w)) with
            | Some fc => patterns fc
            | None => []
            end).
Proof.
  cbv zeta.
  assert (Hok : fst (SyncService.handleConfigurationChange w) = Ok tt).
  { unfold SyncService.handleConfigurationChange, tryCatch, emit, modify.
    by destruct ((_ ;; _) w) as [[[]|e] w1]. }
  split; [exact Hok|]. split.
  { rewrite blind_handleConfigurationChange, Hok. reflexivity. }
  rewrite configurationChange_svc.
  pose proof (serviceView_copyFilesToWorkingDir w) as Hs1.
  pose proof (silent_copyFilesToWorkingDir w) as He1.
  assert (Hc1 : cfg (host (snd (SyncService.copyFilesToWorkingDir w)))
                = cfg (host w)).
  { pose proof (calm_copyFilesToWorkingDir w) as (_ & Hc & _). exact Hc. }
  unfold SyncService.handleConfigurationChange, tryCatch, bind.
  destruct (SyncService.copyFilesToWorkingDir w) as [[[]|e1] w1];
    cbn [fst snd] in *; unfold unchanged, serviceView in Hs1.
  - split; [discriminate|]. intros _.
    rewrite patterns_setupFileWatcher, Hc1.
    by replace (svc w1) with (svc w) by congruence.
  - split; [|discriminate]. intros e [= <-].
    split; [by replace (svc w1) with (svc w) by congruence|].
    unfold errorsShown in *. cbn. rewrite errorsShownOf_app.
    unfold unchanged in He1. by rewrite He1.
Qed.

Lemma configuration_change_ignores_guards_witness :
  patternWatchersOf (watchers (svc (snd (SyncService.handleConfigurationChange
     (snd (SyncService.handleConfigurationChange
        (overrideFlags false true (idleWorld []))))))))
  = ["settings.json"; "settings.json"].
Proof.
  destruct (configuration_change_ignores_guards false true
    (snd (SyncService.handleConfigurationChange
            (overrideFlags false true (idleWorld [])))))
    as (_ & _ & _ & Hadd).
  rewrite Hadd; [|vm_compute; reflexivity].
  vm_compute. reflexivity.
Defined.

(** ** The extension list *)

(** The records [pushExtensions] writes: the extensions of the host that
    are not built in, with their versions. *)
Lemma pushExtensions_unfold w :
  ExtensionService.pushExtensions w =
    let w0 := snd (emit (ObsCall CPushExtensions) w) in
    if negb (extensionsSync (cfg (host w))) then (Ok tt, w0)
    else if hd true (answers (host w) WriteIO)
    then (Ok tt,
          withHost (fun h =>
            setFs (<[ExtensionService.extensionsFile (cfg (host w))
                     := Json (currentExtensions w)]> (fs h)) h)
            (snd (ask WriteIO w0)))
    else (Err "EIO: write failed", snd (ask WriteIO w0)).
Proof.
  unfold ExtensionService.pushExtensions,
    ExtensionService.saveExtensionsToFile,
    ExtensionService.getCurrentExtensions, currentExtensions, config.
  unfold tryCatch, bind, gets, emit, modify, ask, ret, throw.
  cbn.
  destruct (extensionsSync (cfg (host w))); cbn; [|reflexivity].
  destruct (hd true (answers (host w) WriteIO)); reflexivity.
Qed.

Lemma toInstall_current all :
  ExtensionService.extensionsToInstall all
    (map (fun e => {| id := hx_id e; version := Some (hx_version e) |})
         (List.filter (fun e => negb (isBuiltin e)) all))
  = [].
Proof.
  unfold ExtensionService.extensionsToInstall.
  assert (H : forall l : list HostExtension,
            (forall e, e ∈ l -> e ∈ all) ->
            List.filter
              (fun ext => negb (ExtensionService.includes (map hx_id all)
                                  (id ext)))
              (map (fun e => {| id := hx_id e;
                                version := Some (hx_version e) |}) l) = []).
  { induction l as [|e l IH]; intros Hsub; [reflexivity|]. cbn.
    unfold ExtensionService.includes at 1.
    rewrite bool_decide_eq_true_2.
    - cbn. apply IH. intros x Hx. apply Hsub. apply elem_of_cons. by right.
    - apply list_elem_of_In, in_map, list_elem_of_In, Hsub, list_elem_of_here. }
  apply H. intros e He. by apply filter_subset in He.
Qed.

Lemma extra_current all :
  ExtensionService.extraExtensions all
    (map (fun e => {| id := hx_id e; version := Some (hx_version e) |})
         (List.filter (fun e => negb (isBuiltin e)) all))
  = [].
Proof.
  unfold ExtensionService.extraExtensions.
  set (synced := map id _).
  assert (Hin : forall e, e ∈ all -> isBuiltin e = false -> hx_id e ∈ synced).
  { intros e He Hb. subst synced. rewrite map_map. cbn.
    apply list_elem_of_In, in_map_iff. exists e. split; [reflexivity|].
    apply filter_In. split; [by apply list_elem_of_In | by rewrite Hb]. }
  clearbody synced.
  induction all as [|e all IH]; [reflexivity|]. cbn.
  destruct (isBuiltin e) eqn:Hb; cbn.
  - apply IH. intros x Hx. apply Hin. apply elem_of_cons. by right.
  - unfold ExtensionService.includes at 1.
    rewrite bool_decide_eq_true_2 by (apply Hin; [apply list_elem_of_here | done]).
    cbn. apply IH. intros x Hx. apply Hin. apply elem_of_cons. by right.
Qed.

(** After a successful [pushExtensions] the file holds the current
    extensions; the configuration and the host's list are as before. *)
Lemma pushExtensions_ok w :
  let w1 := snd (ExtensionService.pushExtensions w) in
  extensionsSync (cfg (host w)) = true ->
  fst (ExtensionService.pushExtensions w) = Ok tt ->
  cfg (host w1) = cfg (host w) /\
  extensionsAll (host w1) = extensionsAll (host w) /\
  fs (host w1) !! ExtensionService.extensionsFile (cfg (host w))
    = Some (Json (currentExtensions w)).
Proof.
  cbv zeta. intros Hsync. rewrite pushExtensions_unfold. cbv zeta.
  rewrite Hsync. cbn [negb].
  destruct (hd true (answers (host w) WriteIO)); cbn [fst snd]; [|discriminate].
  intros _. split; [reflexivity|]. split; [reflexivity|].
  cbn [host withHost setFs fs]. by rewrite lookup_insert_eq.
Qed.

(** X21: after a [pushExtensions] that returns normally with extension
    sync enabled, [readSyncedExtensions] returns the list that was written:
    one record, id and version, for each extension of the host that is not
    built in, in the order of the host. *)
Theorem pushed_extensions_read_back (w : World) :
  let w1 := snd (ExtensionService.pushExtensions w) in
  extensionsSync (cfg (host w)) = true ->
  fst (ExtensionService.pushExtensions w) = Ok tt ->
  ExtensionService.readSyncedExtensions w1
    = (Ok (Some (currentExtensions w)), w1) /\
  (forall x, x ∈ currentExtensions w <->
     exists e, e ∈ extensionsAll (host w) /\ isBuiltin e = false /\
               x = {| id := hx_id e; version := Some (hx_version e) |}).
Proof.
  cbv zeta. intros Hsync Hok.
  destruct (pushExtensions_ok w Hsync Hok) as (Hcfg & _ & Hfile).
  cbv zeta in Hcfg, Hfile. split.
  - unfold ExtensionService.readSyncedExtensions, config, tryCatch, bind, gets,
      ret, throw.
    cbn beta iota. by rewrite Hcfg, Hfile.
  - intros x. unfold currentExtensions. rewrite list_elem_of_In, in_map_iff.
    split.
    + intros (e & <- & He). apply filter_In in He as [He Hb].
      exists e. split; [by apply list_elem_of_In|].
      split; [by apply negb_true_iff | reflexivity].
    + intros (e & He & Hb & ->). exists e. split; [reflexivity|].
      apply filter_In. split; [by apply list_elem_of_In | by rewrite Hb].
Qed.

Lemma pushed_extensions_read_back_witness :
  fst (ExtensionService.readSyncedExtensions
         (snd (ExtensionService.pushExtensions (extensionWorld false))))
  = Ok (Some [{| id := "user.theme"; version := Some "2.1.0" |}]).
Proof.
  destruct (pushed_extensions_read_back (extensionWorld false) eq_refl eq_refl)
    as [Hread _].
  rewrite Hread. reflexivity.
Defined.

(** X22: a [pullExtensions] that follows a successful [pushExtensions] on
    the same host returns normally and sends no install and no uninstall
    command, with [extensions.autoRemove] set or not: it records its entry
    and nothing else, and leaves the extensions and the files alone. *)
Theorem own_extensions_pull_back_unchanged (w : World) :
  let w1 := snd (ExtensionService.pushExtensions w) in
  let w2 := snd (ExtensionService.pullExtensions w1) in
  extensionsSync (cfg (host w)) = true ->
  fst (ExtensionService.pushExtensions w) = Ok tt ->
  fst (ExtensionService.pullExtensions w1) = Ok tt /\
  trace (host w2) = trace (host w1) ++ [ObsCall CPullExtensions] /\
  extensionsAll (host w2) = extensionsAll (host w) /\
  fs (host w2) = fs (host w1).
Proof.
  cbv zeta. intros Hsync Hok.
  destruct (pushExtensions_ok w Hsync Hok) as (Hcfg & Hall & Hfile).
  cbv zeta in Hcfg, Hall, Hfile.
  rewrite pullExtensions_unfold. cbv zeta.
  rewrite Hcfg, Hsync, Hfile. cbn [negb].
  set (w1 := snd (ExtensionService.pushExtensions w)) in *.
  unfold ExtensionService.installMissingExtensions,
    ExtensionService.removeExtraExtensions, bind, gets, emit, modify.
  cbn beta iota. cbn [host withHost setTrace extensionsAll snd].
  rewrite Hall. unfold currentExtensions.
  rewrite toInstall_current. cbn [length Nat.eqb ret].
  destruct (extensionsAutoRemove (cfg (host w))).
  - cbn [host withHost setTrace extensionsAll]. rewrite Hall, extra_current.
    cbn. by repeat split.
  - cbn. by repeat split.
Qed.

Lemma own_extensions_pull_back_unchanged_witness :
  installsOf (trace (host (snd (ExtensionService.pullExtensions
     (snd (ExtensionService.pushExtensions (extensionWorld true)))))))
    = [] /\
  uninstallsOf (trace (host (snd (ExtensionService.pullExtensions
     (snd (ExtensionService.pushExtensions (extensionWorld true)))))))
    = [].
Proof.
  destruct (own_extensions_pull_back_unchanged (extensionWorld true)
    eq_refl eq_refl) as (_ & Htrace & _).
  rewrite Htrace. split; vm_compute; reflexivity.
Defined.

(** ** The mirrors and the files *)

#[global] Instance keepsFiles_preorder : PreOrder keepsFiles.
Proof.
  split.
  - intros w p H. exact H.
  - intros a b c Hab Hbc p H. apply Hbc, Hab, H.
Qed.

Lemma keepsFiles_same w w' : fs (host w') = fs (host w) -> keepsFiles w w'.
Proof. intros H p. by rewrite H. Qed.

Lemma keepsFiles_insert w k v :
  keepsFiles w (withHost (fun h => setFs (<[k := v]> (fs h)) h) w).
Proof.
  intros p Hp. cbn. destruct (decide (k = p)) as [->|Hne].
  - rewrite lookup_insert_eq. eauto.
  - by rewrite lookup_insert_ne.
Qed.

Ltac keepsFiles :=
  steps_with ltac:(first
    [ let w := fresh "w" in intros w; apply keepsFiles_same; reflexivity
    | let w := fresh "w" in intros w; apply keepsFiles_insert
    | apply steps_tryFinally;
        [typeclasses eauto | |
         let w := fresh "w" in intros w; apply keepsFiles_same; reflexivity] ]).

Lemma keepsFiles_copyFilesToWorkingDir :
  Steps keepsFiles SyncService.copyFilesToWorkingDir.
Proof. unfold_methods. keepsFiles. Qed.

Lemma keepsFiles_copyFilesFromWorkingDir :
  Steps keepsFiles SyncService.copyFilesFromWorkingDir.
Proof. unfold_methods. keepsFiles. Qed.

Lemma keepsFiles_pushExtensions :
  Steps keepsFiles ExtensionService.pushExtensions.
Proof. unfold_methods. keepsFiles. Qed.

(** X23: the two mirrors and [pushExtensions] never delete: a file that
    exists before [copyFilesToWorkingDir], [copyFilesFromWorkingDir] or
    [pushExtensions] exists afterwards, whatever fails. *)
Theorem mirrors_never_delete (w : World) (p : string) :
  is_Some (fs (host w) !! p) ->
  is_Some (fs (host (snd (SyncService.copyFilesToWorkingDir w))) !! p) /\
  is_Some (fs (host (snd (SyncService.copyFilesFromWorkingDir w))) !! p) /\
  is_Some (fs (host (snd (ExtensionService.pushExtensions w))) !! p).
Proof.
  intros Hp. split; [|split].
  - by apply keepsFiles_copyFilesToWorkingDir.
  - by apply keepsFiles_copyFilesFromWorkingDir.
  - by apply keepsFiles_pushExtensions.
Qed.

Lemma mirrors_never_delete_witness :
  is_Some (fs (host (snd (SyncService.copyFilesFromWorkingDir
     (repositoryWorld [(CopyIO, [false])]))))
     !! "/home/u/.config/Code/User/settings.json").
Proof.
  apply (mirrors_never_delete (repositoryWorld [(CopyIO, [false])])
    "/home/u/.config/Code/User/settings.json").
  vm_compute. eauto.
Defined.

(** One copy, in an environment where no copy fails on I/O. *)
Lemma copyFile_fs src tgt w :
  Forall (eq true) (answers (host w) CopyIO) ->
  exists w1,
    SyncService.copyFile src tgt w = (Ok tt, w1) /\
    fs (host w1) = applyCopy (fs (host w)) (src, tgt) /\
    Forall (eq true) (answers (host w1) CopyIO).
Proof.
  intros Hio. unfold applyCopy. cbn [fst snd].
  destruct (fs (host w) !! src) as [content|] eqn:Hsrc.
  - unfold SyncService.copyFile, tryCatch, bind, gets, emit, modify, ask.
    cbn beta iota. cbn [host withHost setTrace fs answers]. rewrite Hsrc.
    cbn.
    assert (Hhd : hd true (answers (host w) CopyIO) = true).
    { destruct Hio as [|b rest <- _]; reflexivity. }
    rewrite Hhd. eexists. split; [reflexivity|]. cbn. split; [reflexivity|].
    destruct Hio as [|b rest _ Hrest]; [constructor | exact Hrest].
  - rewrite (copyFile_missing _ _ _ Hsrc). eexists. split; [reflexivity|].
    by split.
Qed.

Lemma copy_loop_fs {A} (src tgt : A -> string) (l : list A) w :
  Forall (eq true) (answers (host w) CopyIO) ->
  exists w',
    forEach l (fun x => SyncService.copyFile (src x) (tgt x)) w = (Ok tt, w') /\
    fs (host w')
      = applyBatch (map (fun x => (src x, tgt x)) l) (fs (host w)) /\
    Forall (eq true) (answers (host w') CopyIO).
Proof.
  revert w. induction l as [|x l IH]; intros w Hio.
  - exists w. by repeat split.
  - destruct (copyFile_fs (src x) (tgt x) w Hio) as (w1 & Hstep & Hfs1 & Hio1).
    destruct (IH w1 Hio1) as (w' & Hloop & Hfs & Hio').
    exists w'. cbn [forEach]. unfold bind. rewrite Hstep.
    split; [exact Hloop|]. split; [|exact Hio'].
    rewrite Hfs, Hfs1. reflexivity.
Qed.

Lemma copyFilesToWorkingDir_fs w :
  Forall (eq true) (answers (host w) CopyIO) ->
  fs (host (snd (SyncService.copyFilesToWorkingDir w)))
    = applyBatch (batchToWorkingDir w) (fs (host w)).
Proof.
  intros Hio.
  unfold SyncService.copyFilesToWorkingDir, GitService.getWorkingDirectory,
    SyncService.getUserSettingsPath, config, batchToWorkingDir.
  unfold bind at 1, emit, modify. cbn beta iota zeta.
  unfold bind at 1, gets at 1. cbn beta iota.
  unfold bind at 1, gets at 1. cbn beta iota.
  unfold bind at 1, gets at 1. cbn beta iota.
  unfold bind at 1, gets at 1. cbn beta iota.
  cbn [host withHost setTrace cfg fg].
  set (w0 := withHost _ w).
  assert (Hio0 : Forall (eq true) (answers (host w0) CopyIO)) by exact Hio.
  unfold bind.
  match goal with |- context [forEach ?l ?f w0] =>
    destruct (copy_loop_fs (fun file : string => file)
      (fun file => path_join (workingDirectory (cfg (host w)))
                     (path_relative (userSettingsPath (cfg (host w))) file))
      l w0 Hio0) as (w1 & Hl1 & Hfs1 & Hio1) end.
  cbv beta in Hl1. rewrite Hl1.
  match goal with |- context [forEach ?l ?f w1] =>
    destruct (copy_loop_fs
      (fun x => expandHome (cfg (host w)) (source x))
      (fun x => path_join (workingDirectory (cfg (host w))) (target x))
      l w1 Hio1) as (w2 & Hl2 & Hfs2 & _) end.
  cbv beta in Hl2. rewrite Hl2. cbn [snd].
  rewrite Hfs2, Hfs1. unfold applyBatch. by rewrite fold_left_app.
Qed.

Lemma mirrorToLive_fs w :
  Forall (eq true) (answers (host w) CopyIO) ->
  fs (host (snd (SyncService.mirrorToLive w)))
    = applyBatch (batchFromWorkingDir w) (fs (host w)).
Proof.
  intros Hio.
  unfold SyncService.mirrorToLive, GitService.getWorkingDirectory,
    SyncService.getUserSettingsPath, config, batchFromWorkingDir.
  unfold bind at 1, emit, modify. cbn beta iota zeta.
  unfold bind at 1, gets at 1. cbn beta iota.
  unfold bind at 1, gets at 1. cbn beta iota.
  unfold bind at 1, gets at 1. cbn beta iota.
  unfold bind at 1, gets at 1. cbn beta iota.
  cbn [host withHost setTrace cfg fg].
  set (w0 := withHost _ w).
  assert (Hio0 : Forall (eq true) (answers (host w0) CopyIO)) by exact Hio.
  unfold bind.
  match goal with |- context [forEach ?l ?f w0] =>
    destruct (copy_loop_fs (fun file : string => file)
      (fun file => path_join (userSettingsPath (cfg (host w)))
                     (path_relative (workingDirectory (cfg (host w))) file))
      l w0 Hio0) as (w1 & Hl1 & Hfs1 & Hio1) end.
  cbv beta in Hl1. rewrite Hl1.
  match goal with |- context [forEach ?l ?f w1] =>
    destruct (copy_loop_fs
      (fun x => path_join (workingDirectory (cfg (host w))) (target x))
      (fun x => expandHome (cfg (host w)) (source x))
      l w1 Hio1) as (w2 & Hl2 & Hfs2 & _) end.
  cbv beta in Hl2. rewrite Hl2. cbn [snd].
  rewrite Hfs2, Hfs1. unfold applyBatch. by rewrite fold_left_app.
Qed.

Lemma copyFilesFromWorkingDir_fs w :
  Forall (eq true) (answers (host w) CopyIO) ->
  fs (host (snd (SyncService.copyFilesFromWorkingDir w)))
    = applyBatch (batchFromWorkingDir w) (fs (host w)).
Proof.
  intros Hio.
  unfold SyncService.copyFilesFromWorkingDir, tryFinally.
  unfold bind at 1, modify at 1. cbn beta iota.
  pose proof (mirrorToLive_fs (withSvc (setIsApplyingRemoteChanges true) w)
                Hio) as Hgoal.
  destruct (SyncService.mirrorToLive _) as [r w1]. exact Hgoal.
Qed.

(** A copy leaves alone every path but its target. *)
Lemma applyCopy_other m p k : k <> p.2 -> applyCopy m p !! k = m !! k.
Proof.
  intros Hne. unfold applyCopy. destruct (m !! p.1); [|reflexivity].
  by rewrite lookup_insert_ne.
Qed.

Lemma applyBatch_other batch m k :
  k ∉ map snd batch -> applyBatch batch m !! k = m !! k.
Proof.
  revert m. induction batch as [|p batch IH]; intros m Hk; [reflexivity|].
  cbn. unfold applyBatch in IH. rewrite IH.
  - apply applyCopy_other. intros ->. apply Hk. cbn. apply list_elem_of_here.
  - intros Hin. apply Hk. cbn. apply elem_of_cons. by right.
Qed.

(** In a separate batch every copy finds its source as it was at the start,
    and its target keeps what the copy put there. *)
Lemma applyBatch_separate batch m p :
  separate batch -> p ∈ batch ->
  applyBatch batch m !! p.2
    = match m !! p.1 with
      | Some content => Some content
      | None => m !! p.2
      end.
Proof.
  intros [Hnd Hsep]. revert m. induction batch as [|q batch IH]; intros m Hp.
  - by inversion Hp.
  - cbn in Hnd. apply NoDup_cons in Hnd as [Hnotin Hnd]. cbn.
    assert (Hsrc : forall r, r ∈ q :: batch -> applyCopy m q !! r.1 = m !! r.1).
    { intros r Hr. apply applyCopy_other. intros Heq.
      apply (Hsep q r); [apply list_elem_of_here | exact Hr | by symmetry]. }
    apply elem_of_cons in Hp as [->|Hp].
    + unfold applyBatch in *. rewrite applyBatch_other by exact Hnotin.
      unfold applyCopy. destruct (m !! q.1); [|reflexivity].
      by rewrite lookup_insert_eq.
    + unfold applyBatch in IH. rewrite IH.
      * rewrite (Hsrc p) by (apply elem_of_cons; by right).
        rewrite applyCopy_other; [reflexivity|].
        intros Heq. apply Hnotin. rewrite <- Heq.
        apply list_elem_of_In, in_map, list_elem_of_In, Hp.
      * exact Hnd.
      * intros a b Ha Hb. apply Hsep; apply elem_of_cons; by right.
      * exact Hp.
Qed.

Lemma separate_sample :
  separate (batchToWorkingDir
    (withHost (setFs
       (<["/home/u/.config/Code/User/settings.json" := Raw "{ }"]>
          (<["/home/u/settings-sync/settings.json" := Raw "old"]> ∅)))
       (idleWorld []))).
Proof.
  split.
  - vm_compute. apply NoDup_cons. split.
    + intros Hin. apply elem_of_cons in Hin as [Hin|Hin]; [discriminate|].
      by inversion Hin.
    + apply NoDup_singleton.
  - intros p q Hp Hq. vm_compute in Hp, Hq.
    apply elem_of_cons in Hp as [->|Hp];
      [|apply list_elem_of_singleton in Hp as ->];
      (apply elem_of_cons in Hq as [->|Hq];
        [|apply list_elem_of_singleton in Hq as ->]); discriminate.
Qed.



(** ** Events for several paths and from several watchers *)

Lemma handleFileEvent_retained path v :
  SyncService.EVENT_THRESHOLD
    <= now (host v) - default 0 (lastEventTime (svc v) !! path) ->
  SyncService.handleFileEvent path v
    = SyncService.handleFileChange path
        (withSvc (fun s =>
           setLastEventTime (<[path := now (host v)]> (lastEventTime s)) s) v).
Proof.
  intros Hold. unfold SyncService.handleFileEvent, bind, gets, modify.
  cbn beta iota.
  destruct (_ <? _) eqn:Hlt; [apply Z.ltb_lt in Hlt; lia | reflexivity].
Qed.

Lemma handleDirEvent_named sourcePath w :
  path_basename sourcePath <> "" ->
  SyncService.handleDirEvent sourcePath (Some (path_basename sourcePath)) w
    = SyncService.handleFileEvent sourcePath w.
Proof.
  intros Hne. unfold SyncService.handleDirEvent.
  apply String.eqb_neq in Hne. rewrite Hne, String.eqb_refl. reflexivity.
Qed.

(** X25: the 100 ms deduplication is kept per path, the debounce timer is
    one for all paths.  An event for a second path, however soon after a
    retained event for a first one, is retained; it cancels the debounce
    timer of the first event and sets its own: both times are noted, and
    the one debounce timer of the table is the one of the second event. *)
Theorem debounce_is_shared_across_paths (w : World) (p q : string) (t2 : Z)
    (fuel : nat) :
  let w1 := snd (SyncService.handleFileEvent p w) in
  let w2 := snd (SyncService.handleDirectEvent q (advance fuel t2 w1)) in
  let handle := S (nextTimer (host w)) in
  timersTracked w ->
  isEnabled (svc w) = true -> isSyncing (svc w) = false ->
  isApplyingRemoteChanges (svc w) = false ->
  p <> q ->
  SyncService.EVENT_THRESHOLD
    <= now (host w) - default 0 (lastEventTime (svc w) !! p) ->
  SyncService.EVENT_THRESHOLD
    <= t2 - default 0 (lastEventTime (svc w) !! q) ->
  now (host w) <= t2 < now (host w) + debounceMs w ->
  (forall u, u ∈ timers (host w) -> t2 < due u) ->
  lastEventTime (svc w2) !! p = Some (now (host w)) /\
  lastEventTime (svc w2) !! q = Some t2 /\
  debounceTimer (svc w2) = Some handle /\
  debounceTimerAt w t2 handle ∈ timers (host w2) /\
  (forall u, u ∈ timers (host w2) -> isDebounce u = true ->
             u = debounceTimerAt w t2 handle).
Proof.
  cbv zeta. intros Htr He Hs Ha Hpq Hp Hq Ht2 Hdue.
  change (SyncService.handleDirectEvent q) with (SyncService.handleFileEvent q).
  rewrite (handleFileEvent_retained p w Hp).
  rewrite handleFileChange_idle by assumption. cbn [snd].
  set (w1 := withSvc _ (withHost _ _)).
  rewrite advance_idle.
  2:{ intros u Hu. subst w1. cbn in Hu. apply elem_of_app in Hu as [Hu|Hu].
      - apply Hdue. destruct (debounceTimer (svc w)); [|exact Hu].
        by apply filter_subset in Hu.
      - apply list_elem_of_singleton in Hu as ->. cbn. unfold debounceMs in *.
        cbn. lia. }
  replace (Z.max (now (host w1)) t2) with t2 by (subst w1; cbn; lia).
  rewrite (handleFileEvent_retained q).
  2:{ subst w1. cbn. by rewrite lookup_insert_ne. }
  rewrite handleFileChange_idle by assumption. cbn [snd].
  subst w1. cbn.
  split; [by rewrite lookup_insert_ne, lookup_insert_eq|].
  split; [by rewrite lookup_insert_eq|]. split; [reflexivity|].
  split; [apply elem_of_app; right; apply list_elem_of_here|].
  intros u Hu Hdeb. apply elem_of_app in Hu as [Hu|Hu].
  2:{ by apply list_elem_of_singleton in Hu. }
  exfalso. apply list_elem_of_In, filter_In in Hu as [Hu Hne].
  apply list_elem_of_In, elem_of_app in Hu as [Hu|Hu].
  - destruct Htr as (_ & _ & _ & Hd).
    destruct (debounceTimer (svc w)) as [h0|] eqn:Hf.
    + apply list_elem_of_In, filter_In in Hu as [Hu Hne0].
      apply list_elem_of_In in Hu. specialize (Hd u Hu Hdeb).
      injection Hd as ->. rewrite Nat.eqb_refl in Hne0. discriminate.
    + specialize (Hd u Hu Hdeb). discriminate.
  - apply list_elem_of_singleton in Hu as ->. cbn in Hne.
    rewrite Nat.eqb_refl in Hne. discriminate.
Qed.

Lemma debounce_is_shared_across_paths_witness :
  List.filter isDebounce (timers (host
    (snd (SyncService.handleDirectEvent "/home/u/.bashrc"
       (advance 5 1050
          (snd (SyncService.handleFileEvent
             "/home/u/.config/Code/User/settings.json" (lateWorld []))))))))
  = [{| tid := 1; due := 6050; act := FireDebounce |}].
Proof.
  destruct (debounce_is_shared_across_paths (lateWorld [])
    "/home/u/.config/Code/User/settings.json" "/home/u/.bashrc" 1050 5)
    as (_ & _ & _ & _ & _).
  - split; [|split; [|split]]; cbn; try (intros t Ht; by inversion Ht).
    constructor.
  - reflexivity.
  - reflexivity.
  - reflexivity.
  - discriminate.
  - vm_compute. discriminate.
  - vm_compute. discriminate.
  - vm_compute. split; [discriminate | reflexivity].
  - intros u Hu. by inversion Hu.
  - vm_compute. reflexivity.
Defined.

(** X26: the two native watchers of an external file share the
    deduplication map.  Once the directory watcher has retained an event
    that names the file, an event of the direct watcher less than 100 ms
    later changes nothing.  The directory watcher ignores an event without
    a name and an event that names another file. *)
Theorem native_watchers_count_a_change_once (w : World) (sourcePath : string)
    (t2 : Z) (fuel : nat) :
  let name := path_basename sourcePath in
  let w1 := snd (SyncService.handleDirEvent sourcePath (Some name) w) in
  let v := advance fuel t2 w1 in
  name <> "" ->
  isEnabled (svc w) = true -> isSyncing (svc w) = false ->
  isApplyingRemoteChanges (svc w) = false ->
  SyncService.EVENT_THRESHOLD
    <= now (host w) - default 0 (lastEventTime (svc w) !! sourcePath) ->
  now (host w) <= t2 < now (host w) + SyncService.EVENT_THRESHOLD ->
  SyncService.EVENT_THRESHOLD <= debounceMs w ->
  (forall u, u ∈ timers (host w) -> t2 < due u) ->
  debounceTimerAt w (now (host w)) (nextTimer (host w)) ∈ timers (host w1) /\
  SyncService.handleDirectEvent sourcePath v = (Ok tt, v) /\
  timers (host v) = timers (host w1) /\
  (forall other, other <> name ->
     SyncService.handleDirEvent sourcePath (Some other) w = (Ok tt, w)) /\
  SyncService.handleDirEvent sourcePath None w = (Ok tt, w).
Proof.
  cbv zeta. intros Hname He Hs Ha Hp Ht2 Hdelay Hdue.
  rewrite (handleDirEvent_named _ _ Hname).
  rewrite (handleFileEvent_retained sourcePath w Hp).
  rewrite handleFileChange_idle by assumption. cbn [snd].
  set (w1 := withSvc _ (withHost _ _)).
  rewrite advance_idle.
  2:{ intros u Hu. subst w1. cbn in Hu. apply elem_of_app in Hu as [Hu|Hu].
      - apply Hdue. destruct (debounceTimer (svc w)); [|exact Hu].
        by apply filter_subset in Hu.
      - apply list_elem_of_singleton in Hu as ->. cbn. unfold debounceMs in *.
        cbn. lia. }
  replace (Z.max (now (host w1)) t2) with t2 by (subst w1; cbn; lia).
  split; [subst w1; cbn; apply elem_of_app; right; apply list_elem_of_here|].
  split; [|split; [reflexivity|split]].
  - change (SyncService.handleDirectEvent sourcePath)
      with (SyncService.handleFileEvent sourcePath).
    unfold SyncService.handleFileEvent, bind, gets. cbn beta iota.
    subst w1. cbn. rewrite lookup_insert_eq. cbn.
    destruct (_ <? _) eqn:Hlt; [reflexivity|]. apply Z.ltb_ge in Hlt. lia.
  - intros other Hother. unfold SyncService.handleDirEvent.
    destruct (String.eqb (path_basename sourcePath) other) eqn:Heq.
    + apply String.eqb_eq in Heq. congruence.
    + by rewrite andb_false_r.
  - reflexivity.
Qed.

Lemma native_watchers_count_a_change_once_witness :
  timers (host
    (snd (SyncService.handleDirectEvent "/home/u/.bashrc"
       (advance 5 1020
          (snd (SyncService.handleDirEvent "/home/u/.bashrc" (Some ".bashrc")
                  (lateWorld [])))))))
  = [{| tid := 0; due := 6000; act := FireDebounce |}].
Proof.
  destruct (native_watchers_count_a_change_once (lateWorld [])
    "/home/u/.bashrc" 1020 5) as (_ & Hskip & Htimers & _).
  - discriminate.
  - reflexivity.
  - reflexivity.
  - reflexivity.
  - vm_compute. discriminate.
  - vm_compute. split; [discriminate | reflexivity].
  - vm_compute. discriminate.
  - intros u Hu. by inversion Hu.
  - change (path_basename "/home/u/.bashrc") with ".bashrc" in Hskip, Htimers.
    rewrite Hskip. cbn [snd]. rewrite Htimers. vm_compute. reflexivity.
Defined.

(** ** No file configuration *)

Lemma watchers_initialPull :
  Steps (unchanged watchersOf) SyncService.initialPull.
Proof. unfold_methods. unchanged. Qed.

Lemma watchers_git_initialize :
  Steps (unchanged watchersOf) GitService.initialize.
Proof. unfold GitService.initialize. unfold_methods. unchanged. Qed.

(** X27: without a [settingsSync.files] key [setupFileWatcher] returns
    before it creates a watcher, while the mirror falls back to
    'settings.json' and 'keybindings.json'.  An [initialize] whose git
    initialisation succeeds then returns with the service enabled and the
    watchers as they were: nothing is watched. *)
Theorem no_files_configuration (w : World) :
  files (cfg (host w)) = None ->
  SyncService.setupFileWatcher w = (Ok tt, w) /\
  batchToWorkingDir w
    = map (fun file =>
             (file, path_join (workingDirectory (cfg (host w)))
                      (path_relative (userSettingsPath (cfg (host w))) file)))
          (fg (host w) ["settings.json"; "keybindings.json"] []
              (userSettingsPath (cfg (host w)))) /\
  (fst (GitService.initialize w) = Ok tt ->
   exists w',
     SyncService.initialize w = (Ok tt, w') /\
     isEnabled (svc w') = true /\
     watchers (svc w') = watchers (svc w)).
Proof.
  intros Hnone. split; [|split].
  - by rewrite setupFileWatcher_unfold, Hnone.
  - unfold batchToWorkingDir, SyncService.fileConfigOrDefault.
    rewrite Hnone. cbn. by rewrite app_nil_r.
  - intros Hgit.
    pose proof (quiet_git_initialize w) as Hq0.
    pose proof (watchers_git_initialize w) as Hw0.
    destruct (GitService.initialize w) as [r0 w0] eqn:Hinit.
    cbn in Hgit. subst r0. cbn [snd] in *.
    unfold quiet, control in Hq0. injection Hq0 as _ _ _ _ Hcfg0 _ _ _.
    unfold SyncService.initialize. unfold bind at 1. rewrite Hinit.
    unfold config. unfold bind at 1, gets at 1. cbn beta iota.
    assert (H1 : exists w1,
              (if pullOnLaunch (cfg (host w0))
               then tryCatch SyncService.initialPull (fun _ => ret tt)
               else ret tt) w0 = (Ok tt, w1) /\
              watchersOf w1 = watchersOf w0 /\ cfg (host w1) = cfg (host w0)).
    { destruct (pullOnLaunch (cfg (host w0))).
      - pose proof (swallow_ok SyncService.initialPull w0) as H.
        pose proof (swallow_snd SyncService.initialPull w0) as Hsnd.
        pose proof (watchers_initialPull w0) as Hw.
        pose proof (calm_initialPull w0) as (_ & Hc & _).
        destruct (tryCatch _ _ w0) as [r w1]. cbn in H, Hsnd. subst r.
        exists w1. rewrite Hsnd. by repeat split.
      - exists w0. by repeat split. }
    destruct H1 as (w1 & H1 & Hw1 & Hcfg1). unfold bind at 1. rewrite H1.
    unfold bind at 1. rewrite setupFileWatcher_unfold.
    rewrite Hcfg1, Hcfg0, Hnone.
    destruct (setup_tail w1) as (w' & Htail & Hen & _ & Hws & _).
    exists w'. split; [exact Htail|]. split; [exact Hen|].
    rewrite Hws. unfold unchanged, watchersOf in *. congruence.
Qed.

Lemma no_files_configuration_witness :
  (exists w',
     SyncService.initialize
       (withHost (setCfg bareConfig) (startWorld ∅ [])) = (Ok tt, w') /\
     isEnabled (svc w') = true /\ watchers (svc w') = []) /\
  batchToWorkingDir (withHost (setCfg bareConfig) (startWorld ∅ []))
  = [("/home/u/.config/Code/User/settings.json",
      "/home/u/settings-sync/settings.json");
     ("/home/u/.config/Code/User/keybindings.json",
      "/home/u/settings-sync/keybindings.json")].
Proof.
  destruct (no_files_configuration
    (withHost (setCfg bareConfig) (startWorld ∅ [])) eq_refl)
    as (_ & Hbatch & Hinit).
  split; [|rewrite Hbatch; vm_compute; reflexivity].
  destruct (Hinit ltac:(vm_compute; reflexivity)) as (w' & Hrun & Hen & Hws).
  exists w'. by repeat split.
Defined.

(** * The pipelines, step by step *)

(** ** Environments in which nothing fails *)

Lemma sameOp_eq q q' : sameOp q q' = true -> q = q'.
Proof.
  unfold sameOp. intros H. apply Nat.eqb_eq in H.
  destruct q as [c| | | | | | |], q' as [c'| | | | | | |];
    try destruct c; try destruct c'; cbn in H;
    first [reflexivity | discriminate H].
Qed.

Lemma answers_ask q0 q w :
  answers (host (snd (ask q0 w))) q
    = if sameOp q q0 then tl (answers (host w) q0) else answers (host w) q.
Proof. reflexivity. Qed.

Lemma Forall_tl {A} (P : A -> Prop) (l : list A) : Forall P l -> Forall P (tl l).
Proof. intros H. destruct H; [constructor | assumption]. Qed.

#[global] Instance staysObliging_preorder : PreOrder staysObliging.
Proof.
  split.
  - intros w H. exact H.
  - intros a b c Hab Hbc H. apply Hbc, Hab, H.
Qed.

Lemma obliging_ask q : Steps staysObliging (ask q).
Proof.
  intros w Hw q' Hq'. rewrite answers_ask.
  destruct (sameOp q' q) eqn:Hsame.
  - apply sameOp_eq in Hsame. subst q'. apply Forall_tl, Hw, Hq'.
  - apply Hw, Hq'.
Qed.

Lemma obliging_unchanged {A} (m : M A) :
  Steps (unchanged (fun w => answers (host w))) m -> Steps staysObliging m.
Proof.
  intros H w Hw q Hq. specialize (H w). unfold unchanged in H.
  rewrite H. apply Hw, Hq.
Qed.

Lemma noFailure_answer q n w :
  noFailure w -> fallible q = true -> answerAt q n w = true.
Proof.
  intros Hw Hq. unfold answerAt. specialize (Hw q Hq).
  revert Hw. generalize (answers (host w) q). induction n as [|n IH]; intros l Hl.
  - cbn. destruct Hl; [reflexivity | by symmetry].
  - rewrite Nat.iter_succ_r. apply IH, Forall_tl, Hl.
Qed.

Create HintDb obliging.
#[global] Hint Resolve obliging_ask : obliging.

(** Break a method into its statements; only [ask] touches the answers. *)
Ltac obliging :=
  steps_with ltac:(first
    [ solve [eauto with obliging]
    | apply obliging_unchanged; let w := fresh "w" in intros w; reflexivity
    | apply steps_tryFinally;
        [typeclasses eauto | | let w := fresh "w" in intros w _; assumption]
    | let w := fresh "w" in let H := fresh "H" in intros w H; exact H ]).

Lemma obliging_gitCmd c : Steps staysObliging (GitService.gitCmd c).
Proof. unfold GitService.gitCmd, GitService.effect, emit. destruct c; obliging. Qed.
#[global] Hint Resolve obliging_gitCmd : obliging.

Lemma obliging_hasChanges : Steps staysObliging GitService.hasChanges.
Proof. unfold GitService.hasChanges, emit. obliging. Qed.

Lemma obliging_pull : Steps staysObliging GitService.pull.
Proof. unfold GitService.pull, emit. obliging. Qed.

Lemma obliging_push : Steps staysObliging GitService.push.
Proof.
  unfold GitService.push, GitService.onPushRejected, GitService.pullAndRetry,
    GitService.isInitialized, config, emit.
  obliging.
Qed.

Lemma obliging_forcePush : Steps staysObliging GitService.forcePush.
Proof.
  unfold GitService.forcePush, GitService.isInitialized, config, emit.
  obliging.
Qed.

Lemma obliging_forcePull : Steps staysObliging GitService.forcePull.
Proof. unfold GitService.forcePull, emit. obliging. Qed.

Lemma obliging_copyFile a b : Steps staysObliging (SyncService.copyFile a b).
Proof. unfold SyncService.copyFile, emit. obliging. Qed.
#[global] Hint Resolve obliging_copyFile : obliging.

Lemma obliging_copyFilesToWorkingDir :
  Steps staysObliging SyncService.copyFilesToWorkingDir.
Proof.
  unfold SyncService.copyFilesToWorkingDir, GitService.getWorkingDirectory,
    SyncService.getUserSettingsPath, config, emit.
  obliging.
Qed.

Lemma obliging_release w :
  staysObliging w (SyncService.releaseRemoteLockLater w) /\
  staysObliging w (SyncService.releaseSyncLockLater w).
Proof. split; intros H; exact H. Qed.

Lemma obliging_copyFilesFromWorkingDir :
  Steps staysObliging SyncService.copyFilesFromWorkingDir.
Proof.
  unfold SyncService.copyFilesFromWorkingDir, SyncService.mirrorToLive,
    GitService.getWorkingDirectory, SyncService.getUserSettingsPath, config,
    emit.
  apply steps_bind; [typeclasses eauto | |].
  - apply obliging_unchanged. intros w. reflexivity.
  - intros _. apply steps_tryFinally; [typeclasses eauto | |].
    + obliging.
    + intros w. apply obliging_release.
Qed.

Lemma obliging_pushExtensions :
  Steps staysObliging ExtensionService.pushExtensions.
Proof.
  unfold ExtensionService.pushExtensions,
    ExtensionService.saveExtensionsToFile,
    ExtensionService.getCurrentExtensions, config, emit.
  obliging.
Qed.

Lemma obliging_pullExtensions :
  Steps staysObliging ExtensionService.pullExtensions.
Proof.
  unfold ExtensionService.pullExtensions,
    ExtensionService.readSyncedExtensions,
    ExtensionService.installMissingExtensions,
    ExtensionService.removeExtraExtensions,
    ExtensionService.installExtension, ExtensionService.uninstallExtension,
    config, emit.
  obliging.
Qed.

(** ** What a step leaves behind *)

Lemma ran_trans cs1 gs1 ps1 n1 cs2 gs2 ps2 n2 w1 w2 w3 :
  ran cs1 gs1 ps1 n1 w1 w2 -> ran cs2 gs2 ps2 n2 w2 w3 ->
  ran (cs1 ++ cs2) (gs1 ++ gs2) (ps1 ++ ps2) (n1 + n2) w1 w3.
Proof.
  intros (Hc1 & Hg1 & Hp1 & Hs1 & Hd1 & Ho1) (Hc2 & Hg2 & Hp2 & Hs2 & Hd2 & Ho2).
  unfold ran, callsGrow, gitGrow in *.
  rewrite Hc2, Hc1, Hg2, Hg1, Hp2, Hp1, Hs2, Hs1, Hd2, Hd1, !app_assoc.
  repeat split.
  - rewrite Nat.add_comm. symmetry. apply Nat.iter_add.
  - by transitivity w2.
Qed.

Lemma setting_hasChanges : Steps (unchanged settingView) GitService.hasChanges.
Proof. unfold_methods. unchanged. Qed.

Lemma setting_pull : Steps (unchanged settingView) GitService.pull.
Proof. unfold_methods. unchanged. Qed.

Lemma setting_push : Steps (unchanged settingView) GitService.push.
Proof. unfold_methods. unchanged. Qed.

Lemma setting_forcePush : Steps (unchanged settingView) GitService.forcePush.
Proof. unfold_methods. unchanged. Qed.

Lemma setting_forcePull : Steps (unchanged settingView) GitService.forcePull.
Proof. unfold_methods. unchanged. Qed.

Lemma setting_copyFilesToWorkingDir :
  Steps (unchanged settingView) SyncService.copyFilesToWorkingDir.
Proof. unfold_methods. unchanged. Qed.

Lemma setting_copyFilesFromWorkingDir :
  Steps (unchanged settingView) SyncService.copyFilesFromWorkingDir.
Proof. unfold_methods. unchanged. Qed.

Lemma setting_pushExtensions :
  Steps (unchanged settingView) ExtensionService.pushExtensions.
Proof. unfold_methods. unchanged. Qed.

Lemma setting_pullExtensions :
  Steps (unchanged settingView) ExtensionService.pullExtensions.
Proof. unfold_methods. unchanged. Qed.

Lemma dirty_pull : Steps (unchanged dirtyAnswers) GitService.pull.
Proof. unfold_methods. unchanged. Qed.

Lemma dirty_push : Steps (unchanged dirtyAnswers) GitService.push.
Proof. unfold_methods. unchanged. Qed.

Lemma dirty_forcePush : Steps (unchanged dirtyAnswers) GitService.forcePush.
Proof. unfold_methods. unchanged. Qed.

Lemma dirty_forcePull : Steps (unchanged dirtyAnswers) GitService.forcePull.
Proof. unfold_methods. unchanged. Qed.

Lemma dirty_copyFilesToWorkingDir :
  Steps (unchanged dirtyAnswers) SyncService.copyFilesToWorkingDir.
Proof. unfold_methods. unchanged. Qed.

Lemma dirty_copyFilesFromWorkingDir :
  Steps (unchanged dirtyAnswers) SyncService.copyFilesFromWorkingDir.
Proof. unfold_methods. unchanged. Qed.

Lemma dirty_pushExtensions :
  Steps (unchanged dirtyAnswers) ExtensionService.pushExtensions.
Proof. unfold_methods. unchanged. Qed.

Lemma dirty_pullExtensions :
  Steps (unchanged dirtyAnswers) ExtensionService.pullExtensions.
Proof. unfold_methods. unchanged. Qed.




Lemma copies_hasChanges : Steps (unchanged copiesView) GitService.hasChanges.
Proof. unfold_methods. unchanged. Qed.

Lemma copies_pull : Steps (unchanged copiesView) GitService.pull.
Proof. unfold_methods. unchanged. Qed.

Lemma copies_push : Steps (unchanged copiesView) GitService.push.
Proof. unfold_methods. unchanged. Qed.

Lemma copies_forcePush : Steps (unchanged copiesView) GitService.forcePush.
Proof. unfold_methods. unchanged. Qed.

Lemma copies_forcePull : Steps (unchanged copiesView) GitService.forcePull.
Proof. unfold_methods. unchanged. Qed.

Lemma copies_pushExtensions :
  Steps (unchanged copiesView) ExtensionService.pushExtensions.
Proof. unfold_methods. unchanged. Qed.

Lemma copies_pullExtensions :
  Steps (unchanged copiesView) ExtensionService.pullExtensions.
Proof. unfold_methods. unchanged. Qed.

Lemma gitView_copyFilesFromWorkingDir :
  Steps (unchanged gitView) SyncService.copyFilesFromWorkingDir.
Proof. unfold_methods. unchanged. Qed.

Lemma gitView_pushExtensions :
  Steps (unchanged gitView) ExtensionService.pushExtensions.
Proof. unfold_methods. unchanged. Qed.

Lemma gitView_pullExtensions :
  Steps (unchanged gitView) ExtensionService.pullExtensions.
Proof. unfold_methods. unchanged. Qed.

Lemma noFailure_hd q w :
  noFailure w -> fallible q = true -> hd true (answers (host w) q) = true.
Proof. intros Hw Hq. exact (noFailure_answer q 0 w Hw Hq). Qed.

Lemma gitGrow_unchanged w w' : gitView w' = gitView w -> gitGrow [] w w'.
Proof.
  unfold gitView, gitGrow. intros H. rewrite app_nil_r. congruence.
Qed.

Lemma copies_unchanged w w' :
  copiesView w' = copiesView w ->
  copiesOf (trace (host w')) = copiesOf (trace (host w)) ++ [].
Proof. unfold copiesView. intros H. by rewrite app_nil_r. Qed.

(** [hasChanges] on an initialised service: [git status], then its
    answer. *)
Lemma ran_hasChanges w :
  initialized (git w) = true -> noFailure w ->
  exists w1,
    GitService.hasChanges w = (Ok (answerAt TreeDirty 0 w), w1) /\
    ran [CHasChanges (answerAt TreeDirty 0 w)] [Status] [] 1 w w1.
Proof.
  intros Hi Hw.
  pose proof (noFailure_hd (OGit Status) w Hw eq_refl) as Hst.
  assert (exists w1,
    GitService.hasChanges w = (Ok (answerAt TreeDirty 0 w), w1) /\
    trace (host w1)
      = trace (host w)
          ++ [ObsGit Status; ObsCall (CHasChanges (answerAt TreeDirty 0 w))] /\
    dirtyAnswers w1 = tl (dirtyAnswers w)) as (w1 & Heq & Htr & Hd).
  { unfold GitService.hasChanges, GitService.gitCmd, GitService.effect,
      bind, gets, emit, modify, ask, ret, throw.
    cbn beta iota. rewrite Hi. cbn [negb].
    cbn [host withHost setTrace answers]. rewrite Hst. cbn.
    eexists. split; [reflexivity|]. split; [|reflexivity].
    cbn. by rewrite <- app_assoc. }
  exists w1. split; [exact Heq|].
  pose proof (setting_hasChanges w) as Hs.
  pose proof (obliging_hasChanges w) as Ho.
  rewrite Heq in Hs, Ho. cbn [snd] in *.
  unfold ran, callsGrow, gitGrow. rewrite Htr.
  rewrite callsOf_app, gitCmdsOf_app, copiesOf_app. cbn.
  by repeat split.
Qed.

Lemma ran_copyFilesToWorkingDir w :
  noFailure w ->
  exists w1,
    SyncService.copyFilesToWorkingDir w = (Ok tt, w1) /\
    ran [CCopyToWorking] [] (batchToWorkingDir w) 0 w w1.
Proof.
  intros Hw.
  destruct (copyFilesToWorkingDir_batch w (Hw CopyIO eq_refl))
    as (w1 & Heq & Hcopies).
  exists w1. split; [exact Heq|].
  pose proof (calls_copyFilesToWorkingDir w) as Hc.
  pose proof (gitView_copyFilesToWorkingDir w) as Hg.
  pose proof (setting_copyFilesToWorkingDir w) as Hs.
  pose proof (dirty_copyFilesToWorkingDir w) as Hd.
  pose proof (obliging_copyFilesToWorkingDir w) as Ho.
  rewrite Heq in Hc, Hg, Hs, Hd, Ho. cbn [snd] in *.
  unfold ran. repeat split; try assumption.
  by apply gitGrow_unchanged.
Qed.

Lemma copyFilesFromWorkingDir_batch w :
  Forall (eq true) (answers (host w) CopyIO) ->
  exists w1,
    SyncService.copyFilesFromWorkingDir w = (Ok tt, w1) /\
    copiesOf (trace (host w1))
      = copiesOf (trace (host w)) ++ batchFromWorkingDir w.
Proof.
  intros Hio.
  unfold SyncService.copyFilesFromWorkingDir, tryFinally.
  unfold bind at 1, modify at 1. cbn beta iota.
  destruct (mirrorToLive_batch (withSvc (setIsApplyingRemoteChanges true) w)
              Hio) as (w1 & Heq & Hcopies).
  rewrite Heq. eexists. split; [reflexivity|]. exact Hcopies.
Qed.

Lemma ran_copyFilesFromWorkingDir w :
  noFailure w ->
  exists w1,
    SyncService.copyFilesFromWorkingDir w = (Ok tt, w1) /\
    ran [CCopyFromWorking] [] (batchFromWorkingDir w) 0 w w1.
Proof.
  intros Hw.
  destruct (copyFilesFromWorkingDir_batch w (Hw CopyIO eq_refl))
    as (w1 & Heq & Hcopies).
  exists w1. split; [exact Heq|].
  pose proof (calls_copyFilesFromWorkingDir w) as Hc.
  pose proof (gitView_copyFilesFromWorkingDir w) as Hg.
  pose proof (setting_copyFilesFromWorkingDir w) as Hs.
  pose proof (dirty_copyFilesFromWorkingDir w) as Hd.
  pose proof (obliging_copyFilesFromWorkingDir w) as Ho.
  rewrite Heq in Hc, Hg, Hs, Hd, Ho. cbn [snd] in *.
  unfold ran. repeat split; try assumption.
  by apply gitGrow_unchanged.
Qed.

Lemma ran_pushExtensions w :
  noFailure w ->
  exists w1,
    ExtensionService.pushExtensions w = (Ok tt, w1) /\
    ran [CPushExtensions] [] [] 0 w w1.
Proof.
  intros Hw.
  pose proof (noFailure_hd WriteIO w Hw eq_refl) as Hwrite.
  assert (Hok : fst (ExtensionService.pushExtensions w) = Ok tt).
  { rewrite pushExtensions_unfold. cbv zeta. rewrite Hwrite.
    by destruct (negb _). }
  pose proof (calls_pushExtensions w) as Hc.
  pose proof (gitView_pushExtensions w) as Hg.
  pose proof (copies_pushExtensions w) as Hp.
  pose proof (setting_pushExtensions w) as Hs.
  pose proof (dirty_pushExtensions w) as Hd.
  pose proof (obliging_pushExtensions w) as Ho.
  destruct (ExtensionService.pushExtensions w) as [r w1].
  cbn [fst snd] in *. subst r. exists w1. split; [reflexivity|].
  unfold ran. repeat split; try assumption.
  - by apply gitGrow_unchanged.
  - by apply copies_unchanged.
Qed.

(** [pullExtensions] fails only on a file that does not parse. *)
Lemma pullExtensions_result w :
  (fst (ExtensionService.pullExtensions w) = Ok tt \/
   fst (ExtensionService.pullExtensions w)
     = Err "SyntaxError: unexpected token in JSON") /\
  (extensionsSync (cfg (host w)) = false ->
   fst (ExtensionService.pullExtensions w) = Ok tt).
Proof.
  rewrite pullExtensions_unfold. cbv zeta.
  destruct (extensionsSync (cfg (host w))); cbn [negb].
  2:{ split; [by left | reflexivity]. }
  split; [|discriminate].
  destruct (fs (host w) !! _) as [[text|synced]|]; [by right | | by left].
  left. unfold bind.
  destruct (installMissingExtensions_spec synced
              (snd (emit (ObsCall CPullExtensions) w))) as (w1 & Heq & _).
  rewrite Heq.
  destruct (extensionsAutoRemove (cfg (host w))); [|reflexivity].
  destruct (removeExtraExtensions_spec synced w1) as (w2 & Heq2 & _).
  by rewrite Heq2.
Qed.

Lemma ran_pullExtensions w :
  ran [CPullExtensions] [] [] 0 w (snd (ExtensionService.pullExtensions w)).
Proof.
  pose proof (calls_pullExtensions w) as Hc.
  pose proof (gitView_pullExtensions w) as Hg.
  pose proof (copies_pullExtensions w) as Hp.
  pose proof (setting_pullExtensions w) as Hs.
  pose proof (dirty_pullExtensions w) as Hd.
  pose proof (obliging_pullExtensions w) as Ho.
  unfold ran. repeat split; try assumption.
  - by apply gitGrow_unchanged.
  - by apply copies_unchanged.
Qed.

Lemma files_push : Steps (unchanged filesView) GitService.push.
Proof. unfold_methods. unchanged. Qed.

Lemma files_pull : Steps (unchanged filesView) GitService.pull.
Proof. unfold_methods. unchanged. Qed.

Lemma files_forcePush : Steps (unchanged filesView) GitService.forcePush.
Proof. unfold_methods. unchanged. Qed.

Lemma files_forcePull : Steps (unchanged filesView) GitService.forcePull.
Proof. unfold_methods. unchanged. Qed.

Lemma files_hasChanges : Steps (unchanged filesView) GitService.hasChanges.
Proof. unfold_methods. unchanged. Qed.

Lemma extensions_copyFilesToWorkingDir :
  Steps (unchanged extensionsView) SyncService.copyFilesToWorkingDir.
Proof. unfold_methods. unchanged. Qed.

Lemma extensions_hasChanges :
  Steps (unchanged extensionsView) GitService.hasChanges.
Proof. unfold_methods. unchanged. Qed.

(** The frame facts of [ran] for a method that records the call [c] and
    starts no copy. *)
Lemma ran_frames {A} (m : M A) c gs w :
  callsGrow [c] w (snd (m w)) -> gitGrow gs w (snd (m w)) ->
  unchanged copiesView w (snd (m w)) ->
  unchanged settingView w (snd (m w)) ->
  unchanged dirtyAnswers w (snd (m w)) ->
  staysObliging w (snd (m w)) ->
  ran [c] gs [] 0 w (snd (m w)).
Proof.
  intros Hc Hg Hp Hs Hd Ho. unfold ran. repeat split; try assumption.
  by apply copies_unchanged.
Qed.

(** A pull that does not fail. *)
Lemma ran_pull w :
  initialized (git w) = true -> noFailure w ->
  fst (GitService.pull w) = Ok tt /\
  ran [CGitPull] [PullRebase] [] 0 w (snd (GitService.pull w)).
Proof.
  intros Hi Hw.
  pose proof (noFailure_hd (OGit PullRebase) w Hw eq_refl) as Hpull.
  assert (Hrun : fst (GitService.pull w) = Ok tt /\
                 gitGrow [PullRebase] w (snd (GitService.pull w))).
  { unfold gitGrow.
    unfold GitService.pull, GitService.gitCmd, GitService.effect,
      tryCatch, bind, gets, emit, modify, ask, ret, throw.
    cbn beta iota. cbn [host git withHost setTrace answers initialized].
    rewrite Hi. cbn [negb]. cbn in Hpull |- *. rewrite Hpull. cbn.
    split; [reflexivity|]. by git_trace. }
  destruct Hrun as [Hok Hg]. split; [exact Hok|].
  apply ran_frames; [apply calls_pull | exact Hg | apply copies_pull
    | apply setting_pull | apply dirty_pull | apply obliging_pull].
Qed.

(** A push in which nothing fails: the pull when [pullBeforePush] is set,
    then add, commit and push. *)
Lemma ran_push w :
  initialized (git w) = true -> noFailure w ->
  fst (GitService.push w) = Ok tt /\
  ran [CGitPush] (pullFirst (cfg (host w)) ++ [Add; Commit; Push]) [] 0
    w (snd (GitService.push w)) /\
  ahead (git (snd (GitService.push w))) = 0%nat.
Proof.
  intros Hi Hw.
  pose proof (noFailure_hd (OGit PullRebase) w Hw eq_refl) as Hpull.
  pose proof (noFailure_hd (OGit Add) w Hw eq_refl) as Hadd.
  pose proof (noFailure_hd (OGit Commit) w Hw eq_refl) as Hcommit.
  pose proof (noFailure_hd (OGit Push) w Hw eq_refl) as Hpush.
  assert (Hrun : fst (GitService.push w) = Ok tt /\
                 gitGrow (pullFirst (cfg (host w)) ++ [Add; Commit; Push])
                   w (snd (GitService.push w)) /\
                 ahead (git (snd (GitService.push w))) = 0%nat).
  { unfold gitGrow, pullFirst.
    unfold GitService.push, GitService.isInitialized,
      GitService.onPushRejected, GitService.pullAndRetry, GitService.gitCmd,
      GitService.effect, config.
    unfold tryCatch, bind, gets, emit, modify, ask, ret, throw.
    cbn beta iota. cbn [host git withHost withGit setTrace setAnswers answers
      initialized cfg fst snd]. rewrite Hi. cbn [negb].
    cbn in Hpull, Hadd, Hcommit, Hpush |- *.
    destruct (pullBeforePush (cfg (host w))); cbn.
    - rewrite Hpull. cbn. rewrite Hadd. cbn. rewrite Hcommit. cbn.
      destruct (hd true (answers (host w) StagedChanges)); cbn;
        rewrite Hpush; cbn; git_trace; by repeat split.
    - rewrite Hadd. cbn. rewrite Hcommit. cbn.
      destruct (hd true (answers (host w) StagedChanges)); cbn;
        rewrite Hpush; cbn; git_trace; by repeat split. }
  destruct Hrun as (Hok & Hg & Hahead).
  split; [exact Hok|]. split; [|exact Hahead].
  apply ran_frames; [apply calls_push | exact Hg | apply copies_push
    | apply setting_push | apply dirty_push | apply obliging_push].
Qed.

(** A force push in which nothing fails. *)
Lemma ran_forcePush w :
  initialized (git w) = true -> noFailure w ->
  fst (GitService.forcePush w) = Ok tt /\
  ran [CGitForcePush]
    (pullFirstForce (cfg (host w)) ++ [Add; Commit; PushForce]) [] 0
    w (snd (GitService.forcePush w)) /\
  ahead (git (snd (GitService.forcePush w))) = 0%nat.
Proof.
  intros Hi Hw.
  pose proof (noFailure_hd (OGit PullPlain) w Hw eq_refl) as Hpull.
  pose proof (noFailure_hd (OGit Add) w Hw eq_refl) as Hadd.
  pose proof (noFailure_hd (OGit Commit) w Hw eq_refl) as Hcommit.
  pose proof (noFailure_hd (OGit PushForce) w Hw eq_refl) as Hpush.
  assert (Hrun : fst (GitService.forcePush w) = Ok tt /\
                 gitGrow (pullFirstForce (cfg (host w))
                          ++ [Add; Commit; PushForce])
                   w (snd (GitService.forcePush w)) /\
                 ahead (git (snd (GitService.forcePush w))) = 0%nat).
  { unfold gitGrow, pullFirstForce.
    unfold GitService.forcePush, GitService.isInitialized, GitService.gitCmd,
      GitService.effect, config.
    unfold tryCatch, bind, gets, emit, modify, ask, ret, throw.
    cbn beta iota. cbn [host git withHost withGit setTrace setAnswers answers
      initialized cfg fst snd]. rewrite Hi. cbn [negb].
    cbn in Hpull, Hadd, Hcommit, Hpush |- *.
    destruct (pullBeforeForcePush (cfg (host w))); cbn.
    - rewrite Hpull. cbn. rewrite Hadd. cbn. rewrite Hcommit. cbn.
      destruct (hd true (answers (host w) StagedChanges)); cbn;
        rewrite Hpush; cbn; git_trace; by repeat split.
    - rewrite Hadd. cbn. rewrite Hcommit. cbn.
      destruct (hd true (answers (host w) StagedChanges)); cbn;
        rewrite Hpush; cbn; git_trace; by repeat split. }
  destruct Hrun as (Hok & Hg & Hahead).
  split; [exact Hok|]. split; [|exact Hahead].
  apply ran_frames; [apply calls_forcePush | exact Hg | apply copies_forcePush
    | apply setting_forcePush | apply dirty_forcePush
    | apply obliging_forcePush].
Qed.

(** A force pull in which nothing fails. *)
Lemma ran_forcePull w :
  initialized (git w) = true -> noFailure w ->
  fst (GitService.forcePull w) = Ok tt /\
  ran [CGitForcePull] [Fetch; RevparseHead; ResetHardOrigin] [] 0
    w (snd (GitService.forcePull w)) /\
  ahead (git (snd (GitService.forcePull w))) = 0%nat.
Proof.
  intros Hi Hw.
  pose proof (noFailure_hd (OGit Fetch) w Hw eq_refl) as Hfetch.
  pose proof (noFailure_hd (OGit RevparseHead) w Hw eq_refl) as Hrev.
  pose proof (noFailure_hd (OGit ResetHardOrigin) w Hw eq_refl) as Hreset.
  assert (Hrun : fst (GitService.forcePull w) = Ok tt /\
                 gitGrow [Fetch; RevparseHead; ResetHardOrigin]
                   w (snd (GitService.forcePull w)) /\
                 ahead (git (snd (GitService.forcePull w))) = 0%nat).
  { unfold gitGrow.
    unfold GitService.forcePull, GitService.gitCmd, GitService.effect.
    unfold tryCatch, bind, gets, emit, modify, ask, ret, throw.
    cbn beta iota. cbn [host git withHost withGit setTrace setAnswers answers
      initialized cfg fst snd]. rewrite Hi. cbn [negb].
    cbn in Hfetch, Hrev, Hreset |- *.
    rewrite Hfetch. cbn. rewrite Hrev. cbn. rewrite Hreset. cbn.
    git_trace. by repeat split. }
  destruct Hrun as (Hok & Hg & Hahead).
  split; [exact Hok|]. split; [|exact Hahead].
  apply ran_frames; [apply calls_forcePull | exact Hg | apply copies_forcePull
    | apply setting_forcePull | apply dirty_forcePull
    | apply obliging_forcePull].
Qed.

(** ** The runs of [sync], step by step *)

Lemma syncBody_plan w : SyncService.syncBody w = syncPlan w.
Proof.
  unfold SyncService.syncBody, syncPlan, pipeline, bind, ret.
  destruct (GitService.hasChanges w) as [[[]|e] w1]; [| |reflexivity].
  - destruct (SyncService.copyFilesToWorkingDir w1) as [[[]|e] w2];
      [|reflexivity].
    destruct (ExtensionService.pushExtensions w2) as [[[]|e] w3];
      [|reflexivity].
    by destruct (GitService.push w3) as [[[]|e] w4].
  - destruct (GitService.pull w1) as [[[]|e] w2]; [|reflexivity].
    destruct (GitService.hasChanges w2) as [[[]|e] w3];
      [|reflexivity|reflexivity].
    destruct (SyncService.copyFilesFromWorkingDir w3) as [[[]|e] w4];
      [|reflexivity].
    by destruct (ExtensionService.pullExtensions w4) as [[[]|e] w5].
Qed.

Lemma forcePush_plan w :
  SyncService.forcePush w
    = reportAs "Force push failed: "
        (pipeline [SyncService.copyFilesToWorkingDir;
                   ExtensionService.pushExtensions;
                   GitService.forcePush]) w.
Proof.
  unfold SyncService.forcePush, reportAs, pipeline, tryCatch, bind.
  destruct (SyncService.copyFilesToWorkingDir w) as [[[]|e] w1];
    [|reflexivity].
  destruct (ExtensionService.pushExtensions w1) as [[[]|e] w2];
    [|reflexivity].
  by destruct (GitService.forcePush w2) as [[[]|e] w3].
Qed.

Lemma forcePull_plan w :
  SyncService.forcePull w
    = reportAs "Force pull failed: "
        (pipeline [GitService.forcePull;
                   SyncService.copyFilesFromWorkingDir;
                   ExtensionService.pullExtensions]) w.
Proof.
  unfold SyncService.forcePull, reportAs, pipeline, tryCatch, bind.
  destruct (GitService.forcePull w) as [[[]|e] w1]; [|reflexivity].
  destruct (SyncService.copyFilesFromWorkingDir w1) as [[[]|e] w2];
    [|reflexivity].
  by destruct (ExtensionService.pullExtensions w2) as [[[]|e] w3].
Qed.

Lemma batch_setting w w' :
  settingView w' = settingView w ->
  batchToWorkingDir w' = batchToWorkingDir w /\
  batchFromWorkingDir w' = batchFromWorkingDir w.
Proof.
  unfold settingView, batchToWorkingDir, batchFromWorkingDir.
  intros [= Hc Hf _]. by rewrite Hc, Hf.
Qed.

Lemma ran_initialized cs gs ps n w w' :
  ran cs gs ps n w w' -> initialized (git w') = initialized (git w).
Proof. intros (_ & _ & _ & Hs & _). unfold settingView in Hs. congruence. Qed.

Lemma ran_cfg cs gs ps n w w' :
  ran cs gs ps n w w' -> cfg (host w') = cfg (host w).
Proof. intros (_ & _ & _ & Hs & _). unfold settingView in Hs. congruence. Qed.

Lemma ran_noFailure cs gs ps n w w' :
  ran cs gs ps n w w' -> noFailure w -> noFailure w'.
Proof. intros (_ & _ & _ & _ & _ & Ho). exact Ho. Qed.

Lemma ran_batches cs gs ps n w w' :
  ran cs gs ps n w w' ->
  batchToWorkingDir w' = batchToWorkingDir w /\
  batchFromWorkingDir w' = batchFromWorkingDir w.
Proof. intros (_ & _ & _ & Hs & _). by apply batch_setting. Qed.

Lemma ran_answerAt cs gs ps n w w' k :
  ran cs gs ps n w w' -> answerAt TreeDirty k w' = answerAt TreeDirty (k + n) w.
Proof.
  intros (_ & _ & _ & _ & Hd & _). unfold answerAt, dirtyAnswers in *.
  rewrite Hd. by rewrite Nat.iter_add.
Qed.

Lemma ran_lists cs gs ps n cs' gs' ps' w w' :
  ran cs gs ps n w w' -> cs = cs' -> gs = gs' -> ps = ps' ->
  ran cs' gs' ps' n w w'.
Proof. by intros H <- <- <-. Qed.

(** The push pipeline, once [hasChanges] has answered [true]. *)
Lemma pushPipeline_run w :
  initialized (git w) = true -> noFailure w ->
  let r := pipeline [SyncService.copyFilesToWorkingDir;
                     ExtensionService.pushExtensions;
                     GitService.push] w in
  fst r = Ok tt /\
  ran [CCopyToWorking; CPushExtensions; CGitPush]
    (pullFirst (cfg (host w)) ++ [Add; Commit; Push])
    (batchToWorkingDir w) 0 w (snd r) /\
  ahead (git (snd r)) = 0%nat /\
  (extensionsSync (cfg (host w)) = true ->
   fs (host (snd r)) !! ExtensionService.extensionsFile (cfg (host w))
     = Some (Json (currentExtensions w))).
Proof.
  intros Hi Hw. cbv zeta. unfold pipeline.
  destruct (ran_copyFilesToWorkingDir w Hw) as (w1 & Heq1 & Hr1).
  pose proof (extensions_copyFilesToWorkingDir w) as Hext1.
  rewrite Heq1 in Hext1 |- *. cbn [snd] in Hext1.
  pose proof (ran_noFailure _ _ _ _ _ _ Hr1 Hw) as Hw1.
  pose proof (ran_initialized _ _ _ _ _ _ Hr1) as Hi1. rewrite Hi in Hi1.
  pose proof (ran_cfg _ _ _ _ _ _ Hr1) as Hc1.
  destruct (ran_pushExtensions w1 Hw1) as (w2 & Heq2 & Hr2).
  pose proof (pushExtensions_ok w1) as Hfile.
  rewrite Heq2 in Hfile |- *. cbn [fst snd] in Hfile.
  pose proof (ran_noFailure _ _ _ _ _ _ Hr2 Hw1) as Hw2.
  pose proof (ran_initialized _ _ _ _ _ _ Hr2) as Hi2. rewrite Hi1 in Hi2.
  pose proof (ran_cfg _ _ _ _ _ _ Hr2) as Hc2.
  destruct (ran_push w2 Hi2 Hw2) as (Hok3 & Hr3 & Hahead).
  pose proof (files_push w2) as Hfs3.
  destruct (GitService.push w2) as [r3 w3]. cbn [fst snd] in *. subst r3.
  cbn [fst snd]. split; [reflexivity|]. split; [|split; [exact Hahead|]].
  - rewrite Hc2, Hc1 in Hr3.
    eapply ran_lists;
      [exact (ran_trans _ _ _ _ _ _ _ _ _ _ _
                (ran_trans _ _ _ _ _ _ _ _ _ _ _ Hr1 Hr2) Hr3)
      | reflexivity | reflexivity | by rewrite !app_nil_r].
  - intros Hsync. unfold unchanged, filesView in Hfs3. rewrite Hfs3.
    rewrite Hc1 in Hfile. destruct (Hfile Hsync eq_refl) as (_ & _ & Hjson).
    rewrite Hjson. unfold currentExtensions.
    unfold unchanged, extensionsView in Hext1. by rewrite Hext1.
Qed.

(** The pull pipeline, once [hasChanges] has answered [true] after the
    pull. *)
Lemma pullPipeline_run w :
  noFailure w ->
  let r := pipeline [SyncService.copyFilesFromWorkingDir;
                     ExtensionService.pullExtensions] w in
  ran [CCopyFromWorking; CPullExtensions] [] (batchFromWorkingDir w) 0
    w (snd r) /\
  (fst r = Ok tt \/ fst r = Err "SyntaxError: unexpected token in JSON") /\
  (extensionsSync (cfg (host w)) = false -> fst r = Ok tt).
Proof.
  intros Hw. cbv zeta. unfold pipeline.
  destruct (ran_copyFilesFromWorkingDir w Hw) as (w1 & Heq1 & Hr1).
  rewrite Heq1.
  pose proof (ran_cfg _ _ _ _ _ _ Hr1) as Hc1.
  pose proof (ran_pullExtensions w1) as Hr2.
  destruct (pullExtensions_result w1) as [Hres Hoff]. rewrite Hc1 in Hoff.
  destruct (ExtensionService.pullExtensions w1) as [[[]|e] w2];
    cbn [fst snd] in *.
  - split; [|split; [by left | done]].
    eapply ran_lists; [exact (ran_trans _ _ _ _ _ _ _ _ _ _ _ Hr1 Hr2)
      | reflexivity | reflexivity | by rewrite app_nil_r].
  - split; [|split; [exact Hres | exact Hoff]].
    eapply ran_lists; [exact (ran_trans _ _ _ _ _ _ _ _ _ _ _ Hr1 Hr2)
      | reflexivity | reflexivity | by rewrite app_nil_r].
Qed.

Lemma ran_refl w : ran [] [] [] 0 w w.
Proof.
  unfold ran, callsGrow, gitGrow. rewrite !app_nil_r.
  repeat split. by intros H.
Qed.

Lemma ran_same_host cs gs ps n w w' v v' :
  ran cs gs ps n w w' ->
  host v = host w -> git v = git w -> host v' = host w' -> git v' = git w' ->
  ran cs gs ps n v v'.
Proof.
  unfold ran, callsGrow, gitGrow, settingView, dirtyAnswers, staysObliging,
    noFailure.
  intros H Hh Hg Hh' Hg'. by rewrite Hh, Hg, Hh', Hg'.
Qed.

(** The three complete runs of [syncPlan]. *)
Lemma syncPlan_runs w :
  initialized (git w) = true -> noFailure w ->
  let c := cfg (host w) in
  let r := syncPlan w in
  (answerAt TreeDirty 0 w = true ->
   fst r = Ok tt /\
   ran pushRun (Status :: pullFirst c ++ [Add; Commit; Push])
     (batchToWorkingDir w) 1 w (snd r) /\
   ahead (git (snd r)) = 0%nat /\
   (extensionsSync c = true ->
    fs (host (snd r)) !! ExtensionService.extensionsFile c
      = Some (Json (currentExtensions w)))) /\
  (answerAt TreeDirty 0 w = false -> answerAt TreeDirty 1 w = false ->
   fst r = Ok tt /\
   ran pullRunUnchanged [Status; PullRebase; Status] [] 2 w (snd r) /\
   fs (host (snd r)) = fs (host w)) /\
  (answerAt TreeDirty 0 w = false -> answerAt TreeDirty 1 w = true ->
   ran pullRunChanged [Status; PullRebase; Status] (batchFromWorkingDir w) 2
     w (snd r) /\
   (fst r = Ok tt \/ fst r = Err "SyntaxError: unexpected token in JSON") /\
   (extensionsSync c = false -> fst r = Ok tt)).
Proof.
  intros Hi Hw. cbv zeta. unfold syncPlan.
  destruct (ran_hasChanges w Hi Hw) as (w1 & Heq1 & Hr1).
  pose proof (files_hasChanges w) as Hfs1.
  pose proof (extensions_hasChanges w) as Hext1.
  rewrite Heq1 in Hfs1, Hext1 |- *. cbn [snd] in Hfs1, Hext1.
  pose proof (ran_noFailure _ _ _ _ _ _ Hr1 Hw) as Hw1.
  pose proof (ran_initialized _ _ _ _ _ _ Hr1) as Hi1. rewrite Hi in Hi1.
  pose proof (ran_cfg _ _ _ _ _ _ Hr1) as Hc1.
  destruct (ran_batches _ _ _ _ _ _ Hr1) as [Hb1 Hb1'].
  pose proof (ran_answerAt _ _ _ _ _ _ 0 Hr1) as Hd1. cbn in Hd1.
  split; [|split].
  - intros Hdirty. rewrite Hdirty in *.
    destruct (pushPipeline_run w1 Hi1 Hw1) as (Hok & Hr & Hahead & Hfile).
    split; [exact Hok|]. split; [|split; [exact Hahead|]].
    + rewrite Hc1, Hb1 in Hr.
      exact (ran_trans _ _ _ _ _ _ _ _ _ _ _ Hr1 Hr).
    + intros Hsync. rewrite Hc1 in Hfile. rewrite (Hfile Hsync).
      unfold currentExtensions. unfold unchanged, extensionsView in Hext1.
      by rewrite Hext1.
  - intros Hclean Hclean2. rewrite Hclean in *.
    destruct (ran_pull w1 Hi1 Hw1) as (Hok2 & Hr2).
    pose proof (files_pull w1) as Hfs2.
    destruct (GitService.pull w1) as [r2 w2]. cbn [fst snd] in *. subst r2.
    pose proof (ran_noFailure _ _ _ _ _ _ Hr2 Hw1) as Hw2.
    pose proof (ran_initialized _ _ _ _ _ _ Hr2) as Hi2. rewrite Hi1 in Hi2.
    pose proof (ran_answerAt _ _ _ _ _ _ 0 Hr2) as Hd2. cbn in Hd2.
    destruct (ran_hasChanges w2 Hi2 Hw2) as (w3 & Heq3 & Hr3).
    pose proof (files_hasChanges w2) as Hfs3.
    rewrite Heq3 in Hfs3. cbn [snd] in Hfs3.
    rewrite Hd2, Hd1, Hclean2 in Heq3, Hr3. rewrite Heq3. cbn [fst snd].
    split; [reflexivity|]. split.
    + exact (ran_trans _ _ _ _ _ _ _ _ _ _ _
               (ran_trans _ _ _ _ _ _ _ _ _ _ _ Hr1 Hr2) Hr3).
    + unfold unchanged, filesView in *. congruence.
  - intros Hclean Hdirty2. rewrite Hclean in *.
    destruct (ran_pull w1 Hi1 Hw1) as (Hok2 & Hr2).
    destruct (GitService.pull w1) as [r2 w2]. cbn [fst snd] in *. subst r2.
    pose proof (ran_noFailure _ _ _ _ _ _ Hr2 Hw1) as Hw2.
    pose proof (ran_initialized _ _ _ _ _ _ Hr2) as Hi2. rewrite Hi1 in Hi2.
    pose proof (ran_cfg _ _ _ _ _ _ Hr2) as Hc2.
    destruct (ran_batches _ _ _ _ _ _ Hr2) as [_ Hb2].
    pose proof (ran_answerAt _ _ _ _ _ _ 0 Hr2) as Hd2. cbn in Hd2.
    destruct (ran_hasChanges w2 Hi2 Hw2) as (w3 & Heq3 & Hr3).
    rewrite Hd2, Hd1, Hdirty2 in Heq3, Hr3. rewrite Heq3.
    pose proof (ran_noFailure _ _ _ _ _ _ Hr3 Hw2) as Hw3.
    pose proof (ran_cfg _ _ _ _ _ _ Hr3) as Hc3.
    destruct (ran_batches _ _ _ _ _ _ Hr3) as [_ Hb3].
    destruct (pullPipeline_run w3 Hw3) as (Hr & Hres & Hoff).
    rewrite Hb3, Hb2, Hb1' in Hr. rewrite Hc3, Hc2, Hc1 in Hoff.
    split; [|split; [exact Hres | exact Hoff]].
    exact (ran_trans _ _ _ _ _ _ _ _ _ _ _
             (ran_trans _ _ _ _ _ _ _ _ _ _ _
                (ran_trans _ _ _ _ _ _ _ _ _ _ _ Hr1 Hr2) Hr3) Hr).
Qed.

Lemma ran_sync_frame cs gs ps n w x :
  ran cs gs ps n (withSvc (setIsSyncing true) w) x ->
  ran cs gs ps n w (SyncService.releaseSyncLockLater x).
Proof. intros H. exact H. Qed.

Lemma noFailure_scripted (c : Config) exts files script s g :
  (forall q, fallible q = true -> Forall (eq true) (scripted script q)) ->
  noFailure {| svc := s; git := g; host := sampleHost c exts files script |}.
Proof. intros H q Hq. apply H, Hq. Qed.


Lemma noFailure_pushBranchWorld : noFailure pushBranchWorld.
Proof.
  intros q Hq.
  destruct q as [c| | | | | | |]; try discriminate Hq;
    try destruct c; vm_compute; constructor.
Qed.



(** ** The force operations, step by step *)

Lemma ran_reportAs pfx (m : M unit) cs gs ps n w :
  ran cs gs ps n w (snd (m w)) ->
  ran cs gs ps n w (snd (reportAs pfx m w)).
Proof.
  unfold reportAs, tryCatch. destruct (m w) as [[[]|e] w1]; [done|].
  cbn [snd]. unfold bind, emit, modify, throw. cbn [snd].
  unfold ran, callsGrow, gitGrow, settingView, dirtyAnswers, staysObliging,
    noFailure.
  cbn [host git withHost setTrace trace cfg fg answers].
  rewrite callsOf_app, gitCmdsOf_app, copiesOf_app. cbn.
  by rewrite !app_nil_r.
Qed.

Lemma reportAs_result pfx (m : M unit) w :
  fst (reportAs pfx m w)
    = match fst (m w) with
      | Ok a => Ok a
      | Err e => Err (pfx +:+ e)
      end.
Proof.
  unfold reportAs, tryCatch. by destruct (m w) as [[[]|e] w1].
Qed.

Lemma reportAs_git pfx (m : M unit) w :
  git (snd (reportAs pfx m w)) = git (snd (m w)) /\
  fs (host (snd (reportAs pfx m w))) = fs (host (snd (m w))).
Proof.
  unfold reportAs, tryCatch. by destruct (m w) as [[[]|e] w1].
Qed.

(** A force push in which nothing fails. *)
Lemma forcePushPipeline_run w :
  initialized (git w) = true -> noFailure w ->
  let r := pipeline [SyncService.copyFilesToWorkingDir;
                     ExtensionService.pushExtensions;
                     GitService.forcePush] w in
  fst r = Ok tt /\
  ran forcePushRun
    (pullFirstForce (cfg (host w)) ++ [Add; Commit; PushForce])
    (batchToWorkingDir w) 0 w (snd r) /\
  ahead (git (snd r)) = 0%nat /\
  (extensionsSync (cfg (host w)) = true ->
   fs (host (snd r)) !! ExtensionService.extensionsFile (cfg (host w))
     = Some (Json (currentExtensions w))).
Proof.
  intros Hi Hw. cbv zeta. unfold pipeline.
  destruct (ran_copyFilesToWorkingDir w Hw) as (w1 & Heq1 & Hr1).
  pose proof (extensions_copyFilesToWorkingDir w) as Hext1.
  rewrite Heq1 in Hext1 |- *. cbn [snd] in Hext1.
  pose proof (ran_noFailure _ _ _ _ _ _ Hr1 Hw) as Hw1.
  pose proof (ran_initialized _ _ _ _ _ _ Hr1) as Hi1. rewrite Hi in Hi1.
  pose proof (ran_cfg _ _ _ _ _ _ Hr1) as Hc1.
  destruct (ran_pushExtensions w1 Hw1) as (w2 & Heq2 & Hr2).
  pose proof (pushExtensions_ok w1) as Hfile.
  rewrite Heq2 in Hfile |- *. cbn [fst snd] in Hfile.
  pose proof (ran_noFailure _ _ _ _ _ _ Hr2 Hw1) as Hw2.
  pose proof (ran_initialized _ _ _ _ _ _ Hr2) as Hi2. rewrite Hi1 in Hi2.
  pose proof (ran_cfg _ _ _ _ _ _ Hr2) as Hc2.
  destruct (ran_forcePush w2 Hi2 Hw2) as (Hok3 & Hr3 & Hahead).
  pose proof (files_forcePush w2) as Hfs3.
  destruct (GitService.forcePush w2) as [r3 w3]. cbn [fst snd] in *. subst r3.
  cbn [fst snd]. split; [reflexivity|]. split; [|split; [exact Hahead|]].
  - rewrite Hc2, Hc1 in Hr3.
    eapply ran_lists;
      [exact (ran_trans _ _ _ _ _ _ _ _ _ _ _
                (ran_trans _ _ _ _ _ _ _ _ _ _ _ Hr1 Hr2) Hr3)
      | reflexivity | reflexivity | by rewrite !app_nil_r].
  - intros Hsync. unfold unchanged, filesView in Hfs3. rewrite Hfs3.
    rewrite Hc1 in Hfile. destruct (Hfile Hsync eq_refl) as (_ & _ & Hjson).
    rewrite Hjson. unfold currentExtensions.
    unfold unchanged, extensionsView in Hext1. by rewrite Hext1.
Qed.

(** A force push before the git service is initialised: the mirror and
    the extension snapshot are made, then GitService.forcePush refuses. *)
Lemma forcePushPipeline_uninitialized w :
  initialized (git w) = false -> noFailure w ->
  let r := pipeline [SyncService.copyFilesToWorkingDir;
                     ExtensionService.pushExtensions;
                     GitService.forcePush] w in
  fst r = Err "Git service not initialized" /\
  ran forcePushRun [] (batchToWorkingDir w) 0 w (snd r).
Proof.
  intros Hi Hw. cbv zeta. unfold pipeline.
  destruct (ran_copyFilesToWorkingDir w Hw) as (w1 & Heq1 & Hr1).
  rewrite Heq1.
  pose proof (ran_noFailure _ _ _ _ _ _ Hr1 Hw) as Hw1.
  pose proof (ran_initialized _ _ _ _ _ _ Hr1) as Hi1. rewrite Hi in Hi1.
  destruct (ran_pushExtensions w1 Hw1) as (w2 & Heq2 & Hr2).
  rewrite Heq2.
  pose proof (ran_initialized _ _ _ _ _ _ Hr2) as Hi2. rewrite Hi1 in Hi2.
  destruct (git_force_needs_initialized w2 Hi2) as [Heq3 _].
  rewrite Heq3. cbn [fst snd]. split; [reflexivity|].
  assert (Hr3 : ran [CGitForcePush] [] [] 0 w2
                  (snd (emit (ObsCall CGitForcePush) w2))).
  { unfold emit, modify. cbn [snd].
    unfold ran, callsGrow, gitGrow, settingView, dirtyAnswers, staysObliging,
      noFailure.
    cbn [host git withHost setTrace trace cfg fg answers].
    rewrite callsOf_app, gitCmdsOf_app, copiesOf_app. cbn.
    by rewrite !app_nil_r. }
  eapply ran_lists;
    [exact (ran_trans _ _ _ _ _ _ _ _ _ _ _
              (ran_trans _ _ _ _ _ _ _ _ _ _ _ Hr1 Hr2) Hr3)
    | reflexivity | reflexivity | by rewrite !app_nil_r].
Qed.

(** A force pull in which no git command and no copy fails. *)
Lemma forcePullPipeline_run w :
  initialized (git w) = true -> noFailure w ->
  let r := pipeline [GitService.forcePull;
                     SyncService.copyFilesFromWorkingDir;
                     ExtensionService.pullExtensions] w in
  ran forcePullRun [Fetch; RevparseHead; ResetHardOrigin]
    (batchFromWorkingDir w) 0 w (snd r) /\
  ahead (git (snd r)) = 0%nat /\
  (fst r = Ok tt \/ fst r = Err "SyntaxError: unexpected token in JSON") /\
  (extensionsSync (cfg (host w)) = false -> fst r = Ok tt).
Proof.
  intros Hi Hw. cbv zeta.
  change (pipeline [GitService.forcePull;
                    SyncService.copyFilesFromWorkingDir;
                    ExtensionService.pullExtensions] w)
    with (match GitService.forcePull w with
          | (Ok _, w1) =>
              pipeline [SyncService.copyFilesFromWorkingDir;
                        ExtensionService.pullExtensions] w1
          | (Err e, w1) => (Err e, w1)
          end).
  destruct (ran_forcePull w Hi Hw) as (Hok1 & Hr1 & Hahead).
  destruct (GitService.forcePull w) as [r1 w1]. cbn [fst snd] in *. subst r1.
  pose proof (ran_noFailure _ _ _ _ _ _ Hr1 Hw) as Hw1.
  pose proof (ran_cfg _ _ _ _ _ _ Hr1) as Hc1.
  destruct (ran_batches _ _ _ _ _ _ Hr1) as [_ Hb1].
  destruct (pullPipeline_run w1 Hw1) as (Hr & Hres & Hoff).
  rewrite Hb1 in Hr. rewrite Hc1 in Hoff.
  split; [exact (ran_trans _ _ _ _ _ _ _ _ _ _ _ Hr1 Hr)|].
  split; [|split; [exact Hres | exact Hoff]].
  pose proof (gitView_copyFilesFromWorkingDir w1) as Hg2.
  unfold pipeline.
  destruct (SyncService.copyFilesFromWorkingDir w1) as [[[]|e] w2];
    cbn [snd] in Hg2 |- *.
  - pose proof (gitView_pullExtensions w2) as Hg3.
    destruct (ExtensionService.pullExtensions w2) as [[[]|e] w3];
      cbn [snd] in Hg3 |- *; unfold unchanged, gitView in *; congruence.
  - unfold unchanged, gitView in *. congruence.
Qed.

(** C9: [SyncService.forcePush] and [SyncService.forcePull] consult neither
    [isEnabled] nor [isSyncing]: overwriting the two flags with any values
    changes neither the result nor the final world (up to the same
    overwriting).  Whatever the flags, a force push is the pipeline of the
    mirror to the working tree, pushExtensions and GitService.forcePush,
    and a force pull the pipeline of GitService.forcePull, the mirror to
    the live directory and pullExtensions: each step starts when the
    previous one has returned normally, and the first error ends the run,
    shown and thrown behind the prefix of the method.  When no git
    command, no copy and no write fails, the whole pipeline is executed
    over an initialised git service: the force push returns normally after
    its three calls, the copies of the batch, the extension snapshot and
    the commands add, commit and [push -f] (behind [pull] when
    [pullBeforeForcePush] is set); the force pull makes its three calls,
    sends fetch, rev-parse and [reset --hard], starts the copies of its
    batch, and fails only on an extension file that does not parse.  The
    one check on the way is the [initialized] test of GitService, which
    makes the operation fail with 'Git service not initialized': at once
    for a force pull, after the mirror and the extension snapshot for a
    force push. *)
Theorem force_operations_ignore_guards (enabled syncing : bool) (w : World) :
  let c := cfg (host w) in
  let v := overrideFlags enabled syncing w in
  let pushed := snd (SyncService.forcePush v) in
  let pulled := snd (SyncService.forcePull v) in
  SyncService.forcePush v
    = (fst (SyncService.forcePush w),
       overrideFlags enabled syncing (snd (SyncService.forcePush w))) /\
  SyncService.forcePull v
    = (fst (SyncService.forcePull w),
       overrideFlags enabled syncing (snd (SyncService.forcePull w))) /\
  SyncService.forcePush v
    = reportAs "Force push failed: "
        (pipeline [SyncService.copyFilesToWorkingDir;
                   ExtensionService.pushExtensions;
                   GitService.forcePush]) v /\
  SyncService.forcePull v
    = reportAs "Force pull failed: "
        (pipeline [GitService.forcePull;
                   SyncService.copyFilesFromWorkingDir;
                   ExtensionService.pullExtensions]) v /\
  (exists cs, callsGrow cs v pushed /\
     cs `prefix_of` forcePushRun /\
     (fst (SyncService.forcePush v) = Ok tt -> cs = forcePushRun)) /\
  (exists cs, callsGrow cs v pulled /\
     cs `prefix_of` forcePullRun /\
     (fst (SyncService.forcePull v) = Ok tt -> cs = forcePullRun)) /\
  (noFailure w -> initialized (git w) = true ->
   fst (SyncService.forcePush v) = Ok tt /\
   callsGrow forcePushRun v pushed /\
   gitGrow (pullFirstForce c ++ [Add; Commit; PushForce]) v pushed /\
   copiesOf (trace (host pushed))
     = copiesOf (trace (host v)) ++ batchToWorkingDir w /\
   (extensionsSync c = true ->
    fs (host pushed) !! ExtensionService.extensionsFile c
      = Some (Json (currentExtensions w))) /\
   ahead (git pushed) = 0%nat) /\
  (noFailure w -> initialized (git w) = true ->
   callsGrow forcePullRun v pulled /\
   gitGrow [Fetch; RevparseHead; ResetHardOrigin] v pulled /\
   copiesOf (trace (host pulled))
     = copiesOf (trace (host v)) ++ batchFromWorkingDir w /\
   ahead (git pulled) = 0%nat /\
   (fst (SyncService.forcePull v) = Ok tt \/
    fst (SyncService.forcePull v)
      = Err "Force pull failed: SyntaxError: unexpected token in JSON") /\
   (extensionsSync c = false -> fst (SyncService.forcePull v) = Ok tt)) /\
  (initialized (git w) = false ->
   GitService.forcePush v
     = (Err "Git service not initialized",
        snd (emit (ObsCall CGitForcePush) v)) /\
   GitService.forcePull v
     = (Err "Git service not initialized",
        snd (emit (ObsCall CGitForcePull) v)) /\
   fst (SyncService.forcePull v)
     = Err "Force pull failed: Git service not initialized" /\
   callsGrow [CGitForcePull] v pulled /\
   copiesOf (trace (host pulled)) = copiesOf (trace (host v)) /\
   (noFailure w ->
    fst (SyncService.forcePush v)
      = Err "Force push failed: Git service not initialized" /\
    callsGrow forcePushRun v pushed /\
    gitGrow [] v pushed /\
    copiesOf (trace (host pushed))
      = copiesOf (trace (host v)) ++ batchToWorkingDir w)).
Proof.
  cbv zeta. set (v := overrideFlags enabled syncing w).
  split; [apply blind_sync_forcePush|].
  split; [apply blind_sync_forcePull|].
  split; [apply forcePush_plan|].
  split; [apply forcePull_plan|].
  split; [apply forcePush_runs|].
  split; [apply forcePull_runs|].
  split; [|split].
  - intros Hw Hi.
    assert (Hwv : noFailure v) by exact Hw.
    assert (Hiv : initialized (git v) = true) by exact Hi.
    destruct (forcePushPipeline_run v Hiv Hwv) as (Hok & Hr & Hahead & Hfile).
    rewrite forcePush_plan.
    apply (ran_reportAs "Force push failed: ") in Hr.
    destruct Hr as (Hc & Hg & Hp & _).
    destruct (reportAs_git "Force push failed: "
      (pipeline [SyncService.copyFilesToWorkingDir;
                 ExtensionService.pushExtensions;
                 GitService.forcePush]) v) as [Hgit Hfs].
    rewrite reportAs_result, Hok, Hgit, Hfs.
    repeat split; assumption.
  - intros Hw Hi.
    assert (Hwv : noFailure v) by exact Hw.
    assert (Hiv : initialized (git v) = true) by exact Hi.
    destruct (forcePullPipeline_run v Hiv Hwv) as (Hr & Hahead & Hres & Hoff).
    rewrite forcePull_plan.
    apply (ran_reportAs "Force pull failed: ") in Hr.
    destruct Hr as (Hc & Hg & Hp & _).
    destruct (reportAs_git "Force pull failed: "
      (pipeline [GitService.forcePull;
                 SyncService.copyFilesFromWorkingDir;
                 ExtensionService.pullExtensions]) v) as [Hgit _].
    rewrite reportAs_result, Hgit.
    split; [exact Hc|]. split; [exact Hg|]. split; [exact Hp|].
    split; [exact Hahead|]. split.
    + destruct Hres as [-> | ->]; [by left | by right].
    + intros Hsync. by rewrite (Hoff Hsync).
  - intros Hi.
    assert (Hiv : initialized (git v) = false) by exact Hi.
    destruct (git_force_needs_initialized v Hiv) as [H1 H2].
    split; [exact H1|]. split; [exact H2|].
    assert (Hpull : SyncService.forcePull v
      = (Err "Force pull failed: Git service not initialized",
         snd (emit (ObsShowError
                "Force pull failed: Git service not initialized")
                (snd (emit (ObsCall CGitForcePull) v))))).
    { unfold SyncService.forcePull, tryCatch, bind. rewrite H2. reflexivity. }
    rewrite Hpull. cbn [fst snd].
    split; [reflexivity|]. split.
    { unfold callsGrow, emit, modify. cbn [snd host withHost setTrace trace].
      rewrite !callsOf_app. cbn. by rewrite app_nil_r. }
    split.
    { unfold emit, modify. cbn [snd host withHost setTrace trace].
      rewrite !copiesOf_app. cbn. by rewrite !app_nil_r. }
    intros Hw.
    assert (Hwv : noFailure v) by exact Hw.
    destruct (forcePushPipeline_uninitialized v Hiv Hwv) as (Herr & Hr).
    rewrite forcePush_plan.
    apply (ran_reportAs "Force push failed: ") in Hr.
    destruct Hr as (Hc & Hg & Hp & _).
    rewrite reportAs_result, Herr.
    repeat split; assumption.
Qed.

Lemma noFailure_idleWorld : noFailure (idleWorld []).
Proof.
  intros q Hq.
  destruct q as [c| | | | | | |]; try discriminate Hq;
    try destruct c; vm_compute; constructor.
Qed.

Lemma force_operations_ignore_guards_witness :
  (fst (SyncService.forcePush (overrideFlags false true (idleWorld [])))
     = Ok tt /\
   callsOf (trace (host (snd
     (SyncService.forcePush (overrideFlags false true (idleWorld []))))))
     = forcePushRun /\
   gitCmdsOf (trace (host (snd
     (SyncService.forcePush (overrideFlags false true (idleWorld []))))))
     = [Add; Commit; PushForce]) /\
  (fst (SyncService.forcePull (overrideFlags false true (idleWorld [])))
     = Ok tt /\
   callsOf (trace (host (snd
     (SyncService.forcePull (overrideFlags false true (idleWorld []))))))
     = forcePullRun /\
   gitCmdsOf (trace (host (snd
     (SyncService.forcePull (overrideFlags false true (idleWorld []))))))
     = [Fetch; RevparseHead; ResetHardOrigin]) /\
  fst (SyncService.forcePull
         (overrideFlags true false
            (withGit (setInitialized false) (idleWorld []))))
    = Err "Force pull failed: Git service not initialized".
Proof.
  destruct (force_operations_ignore_guards false true (idleWorld []))
    as (_ & _ & _ & _ & _ & _ & Hpush & Hpull & _).
  destruct (Hpush noFailure_idleWorld eq_refl) as (Hok & Hc & Hg & _).
  destruct (Hpull noFailure_idleWorld eq_refl)
    as (Hc' & Hg' & _ & _ & Hres & _).
  split; [|split].
  - split; [exact Hok|]. split; [exact Hc | exact Hg].
  - split; [|split; [exact Hc' | exact Hg']].
    destruct Hres as [Hres|Hres]; [exact Hres|].
    vm_compute in Hres. discriminate Hres.
  - destruct (force_operations_ignore_guards true false
                (withGit (setInitialized false) (idleWorld [])))
      as (_ & _ & _ & _ & _ & _ & _ & _ & Hcheck).
    destruct (Hcheck eq_refl) as (_ & _ & Herr & _). exact Herr.
Defined.
